(** * Story generation pipeline: parser, variant detector, story generator

    A shallow embedding of the three scripts under
    [skills/story-generation/scripts]:

    - [parse_component.py]  (module [ParseComponent])
    - [detect_variants.py]  (module [DetectVariants])
    - [generate_story.py]   (module [GenerateStory])

    Text is modelled as [string] (one [ascii] per character); the case
    mapping, the whitespace class and the word class are the ASCII ones.
    Python's [re] is modelled by a backtracking matcher over a small
    pattern syntax ([Re.regex]) into which every pattern literal of the
    scripts is transcribed. *)

From Stdlib Require Import Ascii String ZArith Lia Bool.
From stdpp Require Import base list gmap strings sorting.

Local Open Scope Z_scope.

(* ===================================================================== *)
(** ** Python [str] methods used by the scripts *)
(* ===================================================================== *)

Module PyStr.

Definition code (c : ascii) : N := N_of_ascii c.

Definition in_range (lo hi : N) (c : ascii) : bool :=
  ((lo <=? code c) && (code c <=? hi))%N.

Definition is_upper (c : ascii) : bool := in_range 65 90 c.
Definition is_lower (c : ascii) : bool := in_range 97 122 c.
Definition is_digit (c : ascii) : bool := in_range 48 57 c.

(** [str.isspace] on the ASCII range: TAB LF VT FF CR, FS GS RS US, SP. *)
Definition is_space (c : ascii) : bool :=
  in_range 9 13 c || in_range 28 31 c || (code c =? 32)%N.

(** [[A-Za-z0-9_]], which is also [\w] on the ASCII range.  Above that
    range [re] consults the Unicode tables, which this development does
    not have: a statement that depends on the class [\w] is made for
    text on which [isascii] holds. *)
Definition is_word (c : ascii) : bool :=
  is_upper c || is_lower c || is_digit c || (code c =? 95)%N.

Definition lower_char (c : ascii) : ascii :=
  if is_upper c then ascii_of_N (code c + 32) else c.
Definition upper_char (c : ascii) : ascii :=
  if is_lower c then ascii_of_N (code c - 32) else c.

(** [s.lower()] *)
Fixpoint lower (s : string) : string :=
  match s with
  | EmptyString => EmptyString
  | String c s' => String (lower_char c) (lower s')
  end.

(** [s.capitalize()]: first character upper-cased, the rest lower-cased. *)
Definition capitalize (s : string) : string :=
  match s with
  | EmptyString => EmptyString
  | String c s' => String (upper_char c) (lower s')
  end.

(** [s.startswith(p)] *)
Definition startswith (s p : string) : bool := String.prefix p s.

(** [sub in s] *)
Fixpoint contains (sub s : string) : bool :=
  String.prefix sub s ||
  match s with
  | EmptyString => false
  | String _ s' => contains sub s'
  end.

(** [s.endswith(p)] *)
Definition endswith (s p : string) : bool :=
  let n := String.length s in
  let m := String.length p in
  (m <=? n)%nat && String.eqb (String.substring (n - m) m s) p.

(** [x in l] for a list of strings *)
Definition mem (x : string) (l : list string) : bool :=
  existsb (String.eqb x) l.

(** [any(hint in s for hint in hints)] *)
Definition any_in (hints : list string) (s : string) : bool :=
  existsb (fun h => contains h s) hints.

Fixpoint lstrip (s : string) : string :=
  match s with
  | EmptyString => EmptyString
  | String c s' => if is_space c then lstrip s' else s
  end.

Fixpoint rstrip (s : string) : string :=
  match s with
  | EmptyString => EmptyString
  | String c s' =>
      match rstrip s' with
      | EmptyString => if is_space c then EmptyString else String c EmptyString
      | r => String c r
      end
  end.

(** [s.strip()] *)
Definition strip (s : string) : string := rstrip (lstrip s).

(** [s.split(sep)] for a one-character separator. *)
Fixpoint split_on (sep : ascii) (s : string) : list string :=
  match s with
  | EmptyString => [EmptyString]
  | String c s' =>
      if Ascii.eqb c sep then EmptyString :: split_on sep s'
      else match split_on sep s' with
           | [] => [String c EmptyString]
           | w :: ws => String c w :: ws
           end
  end.

(** [s.split()]: the maximal runs of non-whitespace characters. *)
Fixpoint split_ws_go (cur : option string) (s : string) : list string :=
  match s with
  | EmptyString => match cur with Some w => [w] | None => [] end
  | String c s' =>
      if is_space c then
        match cur with
        | Some w => w :: split_ws_go None s'
        | None => split_ws_go None s'
        end
      else
        match cur with
        | Some w => split_ws_go (Some (w +:+ String c EmptyString)) s'
        | None => split_ws_go (Some (String c EmptyString)) s'
        end
  end.
Definition split_ws (s : string) : list string := split_ws_go None s.

(** [sep.join(l)] *)
Fixpoint join (sep : string) (l : list string) : string :=
  match l with
  | [] => EmptyString
  | [x] => x
  | x :: l' => x +:+ sep +:+ join sep l'
  end.

(** [s.replace(old, new)] for a non-empty [old]: left to right,
    non-overlapping.  [skip] counts the characters of a replaced
    occurrence that are still to be dropped. *)
Fixpoint replace_go (old new : string) (skip : nat) (s : string) : string :=
  match s with
  | EmptyString => EmptyString
  | String c s' =>
      match skip with
      | S k => replace_go old new k s'
      | O =>
          if String.prefix old s
          then new +:+ replace_go old new (String.length old - 1) s'
          else String c (replace_go old new O s')
      end
  end.
Definition replace (s old new : string) : string := replace_go old new O s.

(** Truth value of a string: [if s:] *)
Definition truthy (s : string) : bool :=
  match s with EmptyString => false | _ => true end.

(** [s.isascii()] *)
Fixpoint isascii (s : string) : bool :=
  match s with
  | EmptyString => true
  | String c s' => (code c <? 128)%N && isascii s'
  end.

(** The digit of [n] (below 16) in lower-case hexadecimal. *)
Definition hex_digit (n : N) : ascii :=
  if (n <? 10)%N then ascii_of_N (48 + n) else ascii_of_N (87 + n).

(** How [repr] writes one character inside the quotes [quote]: the quote
    and the backslash are escaped, TAB, LF and CR get their letter, every
    other control character its two hexadecimal digits. *)
Definition backslash : ascii := "092"%char.

Definition repr_char (quote c : ascii) : string :=
  if Ascii.eqb c quote || Ascii.eqb c backslash then String backslash (String c EmptyString)
  else if (code c =? 9)%N then String backslash "t"
  else if (code c =? 10)%N then String backslash "n"
  else if (code c =? 13)%N then String backslash "r"
  else if (code c <? 32)%N || (code c =? 127)%N then
    String backslash (String "x"%char
      (String (hex_digit (code c / 16)) (String (hex_digit (code c mod 16)) EmptyString)))
  else String c EmptyString.

Fixpoint repr_body (quote : ascii) (s : string) : string :=
  match s with
  | EmptyString => EmptyString
  | String c s' => repr_char quote c +:+ repr_body quote s'
  end.

(** [repr(s)]: in single quotes, unless [s] holds a single quote and no
    double quote. *)
Definition repr (s : string) : string :=
  let single := "039"%char in
  let double := "034"%char in
  let quote :=
    if contains (String single EmptyString) s && negb (contains (String double EmptyString) s)
    then double else single in
  String quote (repr_body quote s +:+ String quote EmptyString).

End PyStr.

(* ===================================================================== *)
(** ** The fragment of [re] used by the scripts *)
(* ===================================================================== *)

Module Re.

(** Pattern syntax.  Every repetition in the scripts' patterns is over
    a character class, so [Star] and [Plus] take a class. *)
Inductive regex : Type :=
| Lit (t : string)                (* literal text *)
| Cls (p : ascii -> bool)         (* one character of a class *)
| Star (p : ascii -> bool)        (* greedy [p*] *)
| Plus (p : ascii -> bool)        (* greedy [p+] *)
| Seq (a b : regex)
| Alt (a b : regex)               (* [a|b], left first *)
| Opt (a : regex)                 (* greedy [a?] *)
| Grp (n : nat) (a : regex).      (* capturing group number [n] *)

(** Captured groups, most recent binding first. *)
Definition groups := list (nat * string).

Fixpoint group (g : groups) (n : nat) : option string :=
  match g with
  | [] => None
  | (m, t) :: g' => if Nat.eqb m n then Some t else group g' n
  end.

Fixpoint strip_prefix (t s : string) : option string :=
  match t, s with
  | EmptyString, _ => Some s
  | String a t', String b s' => if Ascii.eqb a b then strip_prefix t' s' else None
  | String _ _, EmptyString => None
  end.

(** The text consumed between a position [s] and a later position [s']. *)
Definition consumed (s s' : string) : string :=
  String.substring 0 (String.length s - String.length s') s.

(** Greedy repetition of a class: longest run first, then backtrack. *)
Fixpoint star {R} (p : ascii -> bool) (s : string) (k : string -> option R) : option R :=
  match s with
  | EmptyString => k s
  | String c s' =>
      if p c then
        match star p s' k with
        | Some x => Some x
        | None => k s
        end
      else k s
  end.

(** Backtracking matcher in continuation-passing style: [k] is the rest
    of the pattern; the first successful path wins. *)
Fixpoint rmatch {R} (r : regex) (s : string) (g : groups)
         (k : string -> groups -> option R) : option R :=
  match r with
  | Lit t => match strip_prefix t s with Some s' => k s' g | None => None end
  | Cls p => match s with
             | String c s' => if p c then k s' g else None
             | EmptyString => None
             end
  | Star p => star p s (fun s' => k s' g)
  | Plus p => match s with
              | String c s' => if p c then star p s' (fun s'' => k s'' g) else None
              | EmptyString => None
              end
  | Seq a b => rmatch a s g (fun s' g' => rmatch b s' g' k)
  | Alt a b => match rmatch a s g k with
               | Some x => Some x
               | None => rmatch b s g k
               end
  | Opt a => match rmatch a s g k with
             | Some x => Some x
             | None => k s g
             end
  | Grp n a => rmatch a s g (fun s' g' => k s' ((n, consumed s s') :: g'))
  end.

(** A match anchored at the current position: the remaining text and the
    groups. *)
Definition match_here (r : regex) (s : string) : option (string * groups) :=
  rmatch r s [] (fun s' g => Some (s', g)).

(** [re.search]: the leftmost match. *)
Fixpoint search_rest (r : regex) (s : string) : option (string * groups) :=
  match match_here r s with
  | Some m => Some m
  | None =>
      match s with
      | EmptyString => None
      | String _ s' => search_rest r s'
      end
  end.

Definition search (r : regex) (s : string) : option groups :=
  snd <$> search_rest r s.

(** [re.finditer]: successive non-overlapping matches.  None of the
    patterns iterated over in the scripts matches the empty string; a
    match that consumes nothing is stepped over by one character. *)
Fixpoint finditer_go (fuel : nat) (r : regex) (s : string) : list groups :=
  match fuel with
  | O => []
  | S fuel' =>
      match search_rest r s with
      | None => []
      | Some (s', g) =>
          g :: (if (String.length s' <? String.length s)%nat
                then finditer_go fuel' r s'
                else match s' with
                     | EmptyString => []
                     | String _ t => finditer_go fuel' r t
                     end)
      end
  end.

Definition finditer (r : regex) (s : string) : list groups :=
  finditer_go (S (String.length s)) r s.

(** [re.findall] for a pattern with exactly one group. *)
Definition findall1 (r : regex) (s : string) : list string :=
  (fun g => default EmptyString (group g 1)) <$> finditer r s.

Declare Scope re_scope.
Delimit Scope re_scope with re.
Infix "⋅" := Seq (at level 41, right associativity) : re_scope.

(** Character classes of the patterns. *)
Definition one_of (cs : string) (c : ascii) : bool :=
  existsb (Ascii.eqb c) (list_ascii_of_string cs).
Definition none_of (cs : string) (c : ascii) : bool := negb (one_of cs c).

End Re.

Import Re.
Local Open Scope re_scope.

(* ===================================================================== *)
(** ** detect_variants.py *)
(* ===================================================================== *)

Module DetectVariants.

(** Values stored in [Variant.args]: the scripts only ever store string
    literals and [True]. *)
Inductive pyval : Type :=
| PStr (s : string)
| PBool (b : bool).

(** [@dataclass class Variant]; [args] is a dict, kept in insertion
    order. *)
Record Variant : Type := mkVariant {
  name : string;
  description : string;
  args : list (string * pyval);
  priority : Z
}.

(** The prop dictionaries (keys name, type, required, default_value)
    and the metadata dictionary handed to [detect_variants].  The two
    keys read with [.get(key, default)] may be absent. *)
Record PropDict : Type := mkPropDict {
  pd_name : string;
  pd_type : string;
  pd_required : bool;
  pd_default_value : option string
}.

Record MetadataDict : Type := mkMetadataDict {
  md_name : string;
  md_component_type : option string;
  md_props : option (list PropDict)
}.

Definition VARIANT_PATTERNS : list (string * list string) :=
  [ ("variant", ["primary"; "secondary"; "outline"; "ghost"; "link";
                 "danger"; "success"; "warning"]);
    ("color", ["primary"; "secondary"; "success"; "warning"; "danger"; "info"]);
    ("size", ["small"; "medium"; "large"; "xs"; "sm"; "md"; "lg"; "xl"]);
    ("type", ["button"; "submit"; "reset"; "text"; "email"; "password"; "number"]);
    ("appearance", ["filled"; "outline"; "ghost"; "link"]);
    ("intent", ["primary"; "success"; "warning"; "danger"]) ].

Definition SIZE_PROPS : list string := ["size"; "fontSize"; "width"; "height"].

Definition STATE_PROPS : list string :=
  ["disabled"; "loading"; "active"; "selected"; "checked"; "error"; "readonly"].

(** [VARIANT_PATTERNS[k]] when [k in VARIANT_PATTERNS]. *)
Fixpoint dict_get {V} (d : list (string * V)) (k : string) : option V :=
  match d with
  | [] => None
  | (k', v) :: d' => if String.eqb k k' then Some v else dict_get d' k
  end.

(** The quote characters of the union pattern. *)
Definition dquote : ascii := "034"%char.
Definition squote : ascii := "039"%char.
Definition is_quote (c : ascii) : bool := Ascii.eqb c dquote || Ascii.eqb c squote.

(** The pattern of [_parse_union_type]: a quote character, one or more
    characters that are not quote characters (group 1), a quote
    character. *)
Definition quoted_literal : regex :=
  Cls is_quote ⋅ Grp 1 (Plus (fun c => negb (is_quote c))) ⋅ Cls is_quote.

Definition _parse_union_type (type_str : string) : list string :=
  let matches := findall1 quoted_literal type_str in
  match matches with
  | _ :: _ => matches
  | [] =>
      if PyStr.contains "|" type_str then
        let parts := PyStr.split_on "|"%char type_str in
        PyStr.strip <$> filter (fun p => PyStr.truthy (PyStr.strip p) = true) parts
      else []
  end.

(** Pass 1: one variant per admissible literal of a recognised prop. *)
Definition enum_variants_of (prop : PropDict) : list Variant :=
  let prop_name := pd_name prop in
  let prop_type := pd_type prop in
  match dict_get VARIANT_PATTERNS prop_name with
  | Some expected_values =>
      let union_values := _parse_union_type prop_type in
      (fun value =>
         mkVariant (PyStr.capitalize value)
                   (prop_name +:+ ": " +:+ value)
                   [(prop_name, PStr value)]
                   1)
        <$> filter (fun value =>
                      negb (match expected_values with [] => false | _ => true end)
                      || PyStr.mem value expected_values = true)
                   union_values
  | None => []
  end.

Definition _detect_enum_variants (props : list PropDict) : list Variant :=
  concat (enum_variants_of <$> props).

Definition is_smallish (value : string) : bool :=
  PyStr.mem (PyStr.lower value) ["small"; "sm"; "xs"].
Definition is_largeish (value : string) : bool :=
  PyStr.mem (PyStr.lower value) ["large"; "lg"; "xl"].
Definition is_size_name (prop_name : string) : bool :=
  PyStr.mem (PyStr.lower prop_name) ["size"; "fontsize"].

(** The body of the inner loop of pass 2, for one literal. *)
Definition size_variant_of (prop_name value : string) : list Variant :=
  if is_smallish value then
    [mkVariant "Small" "Small size variant" [(prop_name, PStr value)] 2]
  else if is_largeish value then
    [mkVariant "Large" "Large size variant" [(prop_name, PStr value)] 2]
  else [].

Definition size_variants_of (prop : PropDict) : list Variant :=
  let prop_name := pd_name prop in
  let prop_type := pd_type prop in
  if is_size_name prop_name then
    concat (size_variant_of prop_name <$> _parse_union_type prop_type)
  else [].

Definition _detect_size_variants (props : list PropDict) : list Variant :=
  concat (size_variants_of <$> props).

(** Pass 3: boolean state props. *)
Definition state_variants_of (prop : PropDict) : list Variant :=
  let prop_name := pd_name prop in
  let prop_type := pd_type prop in
  if PyStr.contains "boolean" (PyStr.lower prop_type) then
    if PyStr.mem (PyStr.lower prop_name) STATE_PROPS then
      [mkVariant (PyStr.capitalize prop_name)
                 (prop_name +:+ " state")
                 [(prop_name, PBool true)]
                 2]
    else []
  else [].

Definition _detect_state_variants (props : list PropDict) : list Variant :=
  concat (state_variants_of <$> props).

(** [any(p.name.lower() in names for p in props)] *)
Definition any_prop_named (names : list string) (props : list PropDict) : bool :=
  existsb (fun p => PyStr.mem (PyStr.lower (pd_name p)) names) props.

(** Pass 4: rules keyed by the component type. *)
Definition _detect_type_specific_variants
           (component_type : string) (props : list PropDict) : list Variant :=
  if String.eqb component_type "button" then
    if any_prop_named ["icon"; "lefticon"; "righticon"] props then
      [mkVariant "WithIcon" "Button with icon" [] 3]
    else []
  else if String.eqb component_type "input" then
    if any_prop_named ["error"; "iserror"; "haserror"] props then
      [mkVariant "WithError" "Input with error state"
                 [("error", PStr "This field is required")] 2]
    else []
  else if String.eqb component_type "modal" then
    [mkVariant "Open" "Modal in open state" [("isOpen", PBool true)] 1]
  else if String.eqb component_type "table" then
    [mkVariant "WithData" "Table with sample data" [] 1;
     mkVariant "Empty" "Table with no data" [] 2]
  else [].

(** [variants.sort(key=lambda v: v.priority)].  [list.sort] is stable, and
    the stable ordering of a list by a key is unique; it is written here
    as a stable insertion sort. *)
Fixpoint insert_by_priority (v : Variant) (l : list Variant) : list Variant :=
  match l with
  | [] => [v]
  | w :: l' =>
      if priority v <=? priority w then v :: w :: l'
      else w :: insert_by_priority v l'
  end.

Fixpoint sort_by_priority (l : list Variant) : list Variant :=
  match l with
  | [] => []
  | v :: l' => insert_by_priority v (sort_by_priority l')
  end.

Definition default_variant : Variant :=
  mkVariant "Default" "Default component state" [] 1.

(** What the four passes emit, in order, before the fallback. *)
Definition detected (component_metadata : MetadataDict) : list Variant :=
  let props := default [] (md_props component_metadata) in
  let component_type := default "other" (md_component_type component_metadata) in
  _detect_enum_variants props
    ++ _detect_size_variants props
    ++ _detect_state_variants props
    ++ _detect_type_specific_variants component_type props.

Definition detect_variants (component_metadata : MetadataDict) : list Variant :=
  let variants := detected component_metadata in
  let variants :=
    match variants with
    | [] => variants ++ [default_variant]
    | _ => variants
    end in
  sort_by_priority variants.

End DetectVariants.

Import DetectVariants.

(* ===================================================================== *)
(** ** The interpreter's world: files, output streams, exceptions *)
(* ===================================================================== *)

Module Py.

(** The exceptions the scripts can meet.  All of them derive from
    [Exception]; each carries the text [str(e)] prints. *)
Inductive exn : Type :=
| FileNotFoundError (msg : string)
| NotADirectoryError (msg : string)
| IsADirectoryError (msg : string)
| OSError (msg : string)
| ValueError (msg : string)
| ReError (msg : string)
| TypeError (msg : string)
| AttributeError (msg : string).

Definition exn_message (e : exn) : string :=
  match e with
  | FileNotFoundError m | NotADirectoryError m | IsADirectoryError m | OSError m
  | ValueError m | ReError m | TypeError m | AttributeError m => m
  end.

Inductive outcome (A : Type) : Type :=
| Val (a : A)
| Exc (e : exn).
Arguments Val {A} a.
Arguments Exc {A} e.

#[global] Instance outcome_ret : MRet outcome := fun A a => Val a.
#[global] Instance outcome_bind : MBind outcome := fun A B f m =>
  match m with
  | Val a => f a
  | Exc e => Exc e
  end.

(** The file system (Linux; regular files and directories only, without
    links or permission bits) and the two output streams.  [files] maps the path of each regular file to
    its text and [dirs] holds the paths of the directories; paths are
    kept in normal form, relative ones are relative to the working
    directory.  In a file system nothing is both a file and a directory,
    and what lies above a file or a directory is a directory.  The
    streams are kept as the lines printed so far, oldest first. *)
Record World : Type := mkWorld {
  files : gmap string string;
  dirs : gset string;
  stdout : list string;
  stderr : list string
}.

Definition IO (A : Type) : Type := World -> outcome A * World.

#[global] Instance IO_ret : MRet IO := fun A a w => (Val a, w).
#[global] Instance IO_bind : MBind IO := fun A B f m w =>
  match m w with
  | (Val a, w') => f a w'
  | (Exc e, w') => (Exc e, w')
  end.

(** A pure computation that may raise, run inside [IO]. *)
Definition lift {A} (m : outcome A) : IO A := fun w => (m, w).

(** [try: body except Exception as e: handler(e)] *)
Definition try_except {A} (body : IO A) (handler : exn -> IO A) : IO A :=
  fun w =>
    match body w with
    | (Val a, w') => (Val a, w')
    | (Exc e, w') => handler e w'
    end.

(** [print(line, file=sys.stderr)] and [print(line)] *)
Definition print_err (line : string) : IO unit :=
  fun w => (Val (), mkWorld (files w) (dirs w) (stdout w) (stderr w ++ [line])).
Definition print_out (line : string) : IO unit :=
  fun w => (Val (), mkWorld (files w) (dirs w) (stdout w ++ [line]) (stderr w)).

(** *** [pathlib]: the last component of a path, its suffix and its stem
    (CPython 3.8 to 3.13), for paths in normal form with separator [/]. *)

(** The text before and after the last occurrence of [sep]. *)
Fixpoint rpartition (sep : ascii) (s : string) : option (string * string) :=
  match s with
  | EmptyString => None
  | String c s' =>
      match rpartition sep s' with
      | Some (a, b) => Some (String c a, b)
      | None => if Ascii.eqb c sep then Some (EmptyString, s') else None
      end
  end.

(** [Path(p).name] *)
Definition path_name (p : string) : string :=
  match rpartition "/"%char p with
  | Some (_, b) => b
  | None => p
  end.

(** [Path(p).parent] *)
Definition path_parent (p : string) : string :=
  match rpartition "/"%char p with
  | Some (EmptyString, _) => "/"
  | Some (a, _) => a
  | None => "."
  end.

(** [Path(p).suffix]: from the last dot of the name on, when that dot is
    neither the first nor the last character of the name. *)
Definition path_suffix (p : string) : string :=
  match rpartition "."%char (path_name p) with
  | Some (String _ _, String c b) => String "."%char (String c b)
  | _ => EmptyString
  end.

(** [Path(p).stem] *)
Definition path_stem (p : string) : string :=
  match rpartition "."%char (path_name p) with
  | Some (String c a, String _ _) => String c a
  | _ => path_name p
  end.

(** The prefixes of a path that end with a component, shortest first:
    every proper prefix that ends before a separator, then the path
    itself.  For a directory [d] they are the directories
    [mkdir(parents=True)] makes. *)
Fixpoint ancestors_go (done : string) (rest : string) : list string :=
  match rest with
  | EmptyString => [done]
  | String c rest' =>
      (if Ascii.eqb c "/"%char then
         match done with EmptyString => [] | _ => [done] end
       else [])
        ++ ancestors_go (done +:+ String c EmptyString) rest'
  end.

(** *** Opening a file for reading *)

Inductive errno : Type := ENOENT | ENOTDIR | EISDIR | ENAMETOOLONG.

(** The [OSError] raised for an error number, with the text [str(e)]
    prints: the number, its message and [repr] of the file name. *)
Definition os_error (e : errno) (filename : string) : exn :=
  match e with
  | ENOENT =>
      FileNotFoundError ("[Errno 2] No such file or directory: " +:+ PyStr.repr filename)
  | ENOTDIR =>
      NotADirectoryError ("[Errno 20] Not a directory: " +:+ PyStr.repr filename)
  | EISDIR =>
      IsADirectoryError ("[Errno 21] Is a directory: " +:+ PyStr.repr filename)
  | ENAMETOOLONG =>
      OSError ("[Errno 36] File name too long: " +:+ PyStr.repr filename)
  end.

(** The limits of the system on one component and on a whole path. *)
Definition NAME_MAX : nat := 255.
Definition PATH_MAX : nat := 4096.

(** Why the system does not reach a regular file when it walks a path
    component by component; [prefixes] are the prefixes of the path that
    end with a component, shortest first, the path itself last.  A
    component is looked up in a directory: one that is too long is
    refused there, one that is not there is not found, and a file in the
    place of a directory stops the walk. *)
Fixpoint walk_error (w : World) (prefixes : list string) : errno :=
  match prefixes with
  | [] => ENOENT
  | p :: rest =>
      if (NAME_MAX <? String.length (path_name p))%nat then ENAMETOOLONG
      else
        match rest with
        | [] => if bool_decide (p ∈ dirs w) then EISDIR else ENOENT
        | _ :: _ =>
            if bool_decide (p ∈ dirs w) then walk_error w rest
            else if bool_decide (is_Some (files w !! p)) then ENOTDIR
            else ENOENT
        end
  end.

(** The exception [open(path, 'r')] raises when no regular file is at
    [path]: a NUL character is refused before the system is asked. *)
Definition open_error (path : string) (w : World) : exn :=
  if PyStr.contains (String "000"%char EmptyString) path then
    ValueError "embedded null byte"
  else if (PATH_MAX <=? String.length path)%nat then os_error ENAMETOOLONG path
  else os_error (walk_error w (ancestors_go EmptyString path)) path.

(** [with open(path, 'r', encoding='utf-8') as f: f.read()] *)
Definition read_text (path : string) : IO string :=
  fun w =>
    match files w !! path with
    | Some content => (Val content, w)
    | None => (Exc (open_error path w), w)
    end.

(** [with open(path, 'w', encoding='utf-8') as f: f.write(text)] *)
Definition write_text (path text : string) : IO unit :=
  fun w => (Val (), mkWorld (<[path := text]> (files w)) (dirs w) (stdout w) (stderr w)).

(** [path.exists()] *)
Definition path_exists (path : string) : IO bool :=
  fun w => (Val (bool_decide (is_Some (files w !! path)) || bool_decide (path ∈ dirs w)), w).

(** [d.mkdir(parents=True, exist_ok=True)] *)
Definition mkdir_parents (d : string) : IO unit :=
  fun w => (Val (), mkWorld (files w)
                            (dirs w ∪ list_to_set (ancestors_go EmptyString d))
                            (stdout w) (stderr w)).

End Py.

Import Py.

(* ===================================================================== *)
(** ** parse_component.py *)
(* ===================================================================== *)

Module ParseComponent.

(** [@dataclass class PropDefinition] *)
Record PropDefinition : Type := mkPropDefinition {
  prop_name : string;
  prop_type : string;
  required : bool;
  default_value : option string;
  description : option string
}.

(** [@dataclass class ComponentMetadata] *)
Record ComponentMetadata : Type := mkComponentMetadata {
  name : string;
  file_path : string;
  framework : string;
  props : list PropDefinition;
  component_type : string;
  has_children : bool;
  exports_default : bool
}.

(** [PropDefinition(name=..., type=..., required=...)]: the two optional
    fields keep their default [None]. *)
Definition PropDefinition3 (n t : string) (r : bool) : PropDefinition :=
  mkPropDefinition n t r None None.

(** The ordered keyword table of [ComponentParser.classify_component]:
    the first row with a keyword contained in the lower-cased name wins. *)
Definition CLASSIFICATION : list (list string * string) :=
  [ (["button"; "btn"], "button");
    (["input"; "textfield"; "textarea"], "input");
    (["select"; "dropdown"; "combo"], "select");
    (["checkbox"; "check"], "checkbox");
    (["radio"], "radio");
    (["switch"; "toggle"], "switch");
    (["card"], "card");
    (["modal"; "dialog"], "modal");
    (["sidebar"; "drawer"], "sidebar");
    (["container"; "box"; "grid"], "layout");
    (["table"; "datagrid"], "table");
    (["list"], "list");
    (["chart"; "graph"], "chart");
    (["badge"; "tag"; "chip"], "badge");
    (["avatar"], "avatar");
    (["alert"; "notification"], "alert");
    (["toast"; "snackbar"], "toast");
    (["progress"; "loader"; "spinner"], "progress");
    (["menu"; "nav"], "menu");
    (["tab"], "tabs");
    (["breadcrumb"], "breadcrumb");
    (["pagination"; "pager"], "pagination") ].

Fixpoint classify_rows (rows : list (list string * string)) (name_lower : string) : string :=
  match rows with
  | [] => "other"
  | (terms, category) :: rows' =>
      if PyStr.any_in terms name_lower then category
      else classify_rows rows' name_lower
  end.

Definition classify_component (nm : string) (ps : list PropDefinition) : string :=
  classify_rows CLASSIFICATION (PyStr.lower nm).

(** An identifier that starts with an upper-case letter:
    the group of the three name patterns. *)
Definition component_ident : regex := Grp 1 (Cls PyStr.is_upper ⋅ Star PyStr.is_word).

(** The three name patterns of [_extract_component_name], in the order
    they are tried: function NAME; const NAME followed by = or :;
    export (default) function NAME. *)
Definition function_pattern : regex :=
  Lit "function" ⋅ Plus PyStr.is_space ⋅ component_ident.
Definition const_pattern : regex :=
  Lit "const" ⋅ Plus PyStr.is_space ⋅ component_ident
    ⋅ Star PyStr.is_space ⋅ Cls (one_of "=:").
Definition export_pattern : regex :=
  Lit "export" ⋅ Plus PyStr.is_space ⋅ Opt (Lit "default" ⋅ Plus PyStr.is_space)
    ⋅ Lit "function" ⋅ Plus PyStr.is_space ⋅ component_ident.

(** [match.group(1)] of a successful search. *)
Definition search_group1 (r : regex) (content : string) : option string :=
  g ← search r content; group g 1.

Definition _extract_component_name (content file_path : string) : string :=
  match search_group1 function_pattern content with
  | Some n => n
  | None =>
      match search_group1 const_pattern content with
      | Some n => n
      | None =>
          match search_group1 export_pattern content with
          | Some n => n
          | None => path_stem file_path
          end
      end
  end.

(** The braces block of a props declaration: an opening brace, one or
    more characters other than a closing brace (group 1), a closing
    brace. *)
Definition braces_block : regex :=
  Lit "{" ⋅ Grp 1 (Plus (none_of "}")) ⋅ Lit "}".

(** interface Props followed by a braces block; type Props = followed by a
    braces block. *)
Definition generic_interface_pattern : regex :=
  Lit "interface" ⋅ Plus PyStr.is_space ⋅ Lit "Props" ⋅ Star PyStr.is_space ⋅ braces_block.
Definition generic_type_pattern : regex :=
  Lit "type" ⋅ Plus PyStr.is_space ⋅ Lit "Props" ⋅ Star PyStr.is_space
    ⋅ Lit "=" ⋅ Star PyStr.is_space ⋅ braces_block.

(** One member of a React props block: a word (group 1), an optional
    question mark (group 2), a colon, the type text up to the next
    semicolon (group 3), an optional semicolon. *)
Definition react_prop_pattern : regex :=
  Grp 1 (Plus PyStr.is_word) ⋅ Opt (Grp 2 (Lit "?")) ⋅ Lit ":" ⋅ Star PyStr.is_space
    ⋅ Grp 3 (Plus (none_of ";")) ⋅ Opt (Lit ";").

(** [match.group(n) == '?'] *)
Definition group_is (g : groups) (n : nat) (t : string) : bool :=
  match group g n with
  | Some x => String.eqb x t
  | None => false
  end.

(** [re.finditer(pattern, match.group(n))]: the text of a group that took
    part in the match; for one that did not, [finditer] is handed [None]
    and raises. *)
Definition group_text (g : groups) (n : nat) : outcome string :=
  match group g n with
  | Some x => Val x
  | None => Exc (TypeError "expected string or bytes-like object, got 'NoneType'")
  end.

(** [match.group(n).strip()]; a group that took no part is [None], which
    has no [strip]. *)
Definition group_strip (g : groups) (n : nat) : outcome string :=
  match group g n with
  | Some x => Val (PyStr.strip x)
  | None => Exc (AttributeError "'NoneType' object has no attribute 'strip'")
  end.

(** [match.group(n)] where the script only stores it. *)
Definition group_or_none (g : groups) (n : nat) : option string := group g n.

(** One member of a Vue type-based props block: as for React, with the
    type text ending at the next semicolon or comma. *)
Definition vue_prop_pattern : regex :=
  Grp 1 (Plus PyStr.is_word) ⋅ Opt (Grp 2 (Lit "?")) ⋅ Lit ":" ⋅ Star PyStr.is_space
    ⋅ Grp 3 (Plus (none_of ";,")).

(** defineProps with a type argument in braces; defineProps called on an
    object literal. *)
Definition define_props_type_pattern : regex :=
  Lit "defineProps<" ⋅ braces_block ⋅ Lit ">".
Definition define_props_runtime_pattern : regex :=
  Lit "defineProps(" ⋅ braces_block ⋅ Lit ")".

(** One member of a runtime props object: a word (group 1), a colon, a
    braces block holding type: and a word (group 2), then required: and
    optionally true or false (group 3). *)
Definition vue_runtime_prop_pattern : regex :=
  Grp 1 (Plus PyStr.is_word) ⋅ Lit ":" ⋅ Star PyStr.is_space ⋅ Lit "{"
    ⋅ Star (none_of "}") ⋅ Lit "type:" ⋅ Star PyStr.is_space
    ⋅ Grp 2 (Plus PyStr.is_word)
    ⋅ Star (none_of "}") ⋅ Lit "required:" ⋅ Star PyStr.is_space
    ⋅ Opt (Grp 3 (Alt (Lit "true") (Lit "false")))
    ⋅ Star (none_of "}") ⋅ Lit "}".

Definition vue_prop_of (g : groups) : outcome PropDefinition :=
  n ← group_text g 1;
  let optional := group_is g 2 "?" in
  t ← group_strip g 3;
  Val (PropDefinition3 n t (negb optional)).

Definition vue_runtime_prop_of (g : groups) : outcome PropDefinition :=
  n ← group_text g 1;
  t ← group_text g 2;
  let required_str := group_or_none g 3 in
  let req := match required_str with
             | Some r => if PyStr.truthy r then String.eqb r "true" else false
             | None => false
             end in
  Val (PropDefinition3 n t req).

(** [VueParser._extract_props] *)
Definition VueParser_extract_props (content : string) : outcome (list PropDefinition) :=
  ps ← match search define_props_type_pattern content with
       | Some g =>
           props_block ← group_text g 1;
           mapM vue_prop_of (finditer vue_prop_pattern props_block)
       | None => Val []
       end;
  match search define_props_runtime_pattern content, ps with
  | Some g, [] =>
      props_block ← group_text g 1;
      more ← mapM vue_runtime_prop_of (finditer vue_runtime_prop_pattern props_block);
      Val (ps ++ more)
  | _, _ => Val ps
  end.

(** [VueParser.parse] *)
Definition VueParser_parse (file_path : string) : IO (option ComponentMetadata) :=
  try_except
    (content ← read_text file_path;
     let nm := path_stem file_path in
     ps ← lift (VueParser_extract_props content);
     let has_children := PyStr.contains "<slot" content in
     let component_type := classify_component nm ps in
     mret (Some (mkComponentMetadata nm file_path "vue" ps component_type
                                     has_children true)))
    (fun e =>
       print_err ("Error parsing " +:+ file_path +:+ ": " +:+ exn_message e);;
       mret None).

(** A Svelte prop: export let and a word (group 1), optionally a colon and
    a type text free of = and ; (group 2), optionally = and a default text
    free of ; (group 3), an optional semicolon. *)
Definition svelte_prop_pattern : regex :=
  Lit "export" ⋅ Plus PyStr.is_space ⋅ Lit "let" ⋅ Plus PyStr.is_space
    ⋅ Grp 1 (Plus PyStr.is_word)
    ⋅ Opt (Lit ":" ⋅ Star PyStr.is_space ⋅ Grp 2 (Plus (none_of "=;")))
    ⋅ Opt (Star PyStr.is_space ⋅ Lit "=" ⋅ Star PyStr.is_space
             ⋅ Grp 3 (Plus (none_of ";")))
    ⋅ Opt (Lit ";").

(** [match.group(n).strip() if match.group(n) else alt] *)
Definition group_strip_or {A} (g : groups) (n : nat) (some : string -> A) (alt : A) : A :=
  match group g n with
  | Some x => if PyStr.truthy x then some (PyStr.strip x) else alt
  | None => alt
  end.

Definition svelte_prop_of (g : groups) : outcome PropDefinition :=
  n ← group_text g 1;
  let t := group_strip_or g 2 id "any" in
  let default := group_strip_or g 3 Some None in
  (* If has default value, it's optional *)
  let req := match default with None => true | Some _ => false end in
  Val (mkPropDefinition n t req default None).

(** [SvelteParser._extract_props] *)
Definition SvelteParser_extract_props (content : string) : outcome (list PropDefinition) :=
  mapM svelte_prop_of (finditer svelte_prop_pattern content).

(** [SvelteParser.parse] *)
Definition SvelteParser_parse (file_path : string) : IO (option ComponentMetadata) :=
  try_except
    (content ← read_text file_path;
     let nm := path_stem file_path in
     ps ← lift (SvelteParser_extract_props content);
     let has_children := PyStr.contains "<slot" content in
     let component_type := classify_component nm ps in
     mret (Some (mkComponentMetadata nm file_path "svelte" ps component_type
                                     has_children true)))
    (fun e =>
       print_err ("Error parsing " +:+ file_path +:+ ": " +:+ exn_message e);;
       mret None).

Section DynamicPatterns.

(** The component name is spliced unescaped into two of the patterns of
    [ReactTypeScriptParser._extract_props].  A name made of word characters
    only stands for itself; for any other name (one taken from the file
    name) what [re] compiles from the pattern text is left open: a
    pattern, or [re.error]. *)
Variable re_compile : string -> outcome regex.

Definition named_interface_pattern (component_name : string) : outcome regex :=
  if forallb PyStr.is_word (list_ascii_of_string component_name) then
    Val (Lit "interface" ⋅ Plus PyStr.is_space ⋅ Lit component_name ⋅ Lit "Props"
           ⋅ Star PyStr.is_space ⋅ braces_block)
  else re_compile ("interface\s+" +:+ component_name +:+ "Props\s*\{([^}]+)\}").

Definition named_type_pattern (component_name : string) : outcome regex :=
  if forallb PyStr.is_word (list_ascii_of_string component_name) then
    Val (Lit "type" ⋅ Plus PyStr.is_space ⋅ Lit component_name ⋅ Lit "Props"
           ⋅ Star PyStr.is_space ⋅ Lit "=" ⋅ Star PyStr.is_space ⋅ braces_block)
  else re_compile ("type\s+" +:+ component_name +:+ "Props\s*=\s*\{([^}]+)\}").

(** The props block: the first of the four declarations that is found. *)
Definition find_props_block (content component_name : string) : outcome (option groups) :=
  r1 ← named_interface_pattern component_name;
  match search r1 content with
  | Some g => Val (Some g)
  | None =>
      match search generic_interface_pattern content with
      | Some g => Val (Some g)
      | None =>
          r3 ← named_type_pattern component_name;
          match search r3 content with
          | Some g => Val (Some g)
          | None => Val (search generic_type_pattern content)
          end
      end
  end.

Definition react_prop_of (g : groups) : outcome PropDefinition :=
  n ← group_text g 1;
  let optional := group_is g 2 "?" in
  t ← group_strip g 3;
  (* Clean up type (remove newlines, extra spaces) *)
  let t := PyStr.join " " (PyStr.split_ws t) in
  Val (PropDefinition3 n t (negb optional)).

Definition ReactTypeScriptParser_extract_props (content component_name : string)
  : outcome (list PropDefinition) :=
  m ← find_props_block content component_name;
  match m with
  | Some g =>
      props_block ← group_text g 1;
      mapM react_prop_of (finditer react_prop_pattern props_block)
  | None => Val []
  end.

(** [ReactTypeScriptParser.parse] *)
Definition ReactTypeScriptParser_parse (file_path : string) : IO (option ComponentMetadata) :=
  try_except
    (content ← read_text file_path;
     let nm := _extract_component_name content file_path in
     if negb (PyStr.truthy nm) then mret None
     else
       ps ← lift (ReactTypeScriptParser_extract_props content nm);
       let has_children := existsb (fun p => String.eqb (prop_name p) "children") ps in
       let exports_default := PyStr.contains "export default" content in
       let component_type := classify_component nm ps in
       mret (Some (mkComponentMetadata nm file_path "react" ps component_type
                                       has_children exports_default)))
    (fun e =>
       print_err ("Error parsing " +:+ file_path +:+ ": " +:+ exn_message e);;
       mret None).

(** The file types each parser takes. *)
Definition REACT_EXTENSIONS : list string := [".tsx"; ".jsx"; ".ts"; ".js"].

(** [parse_component] *)
Definition parse_component (file_path : string) : IO (option ComponentMetadata) :=
  let extension := PyStr.lower (path_suffix file_path) in
  if PyStr.mem extension REACT_EXTENSIONS then ReactTypeScriptParser_parse file_path
  else if String.eqb extension ".vue" then VueParser_parse file_path
  else if String.eqb extension ".svelte" then SvelteParser_parse file_path
  else
    print_err ("Unsupported file type: " +:+ extension);;
    mret None.

End DynamicPatterns.

End ParseComponent.

(* ===================================================================== *)
(** ** generate_story.py *)
(* ===================================================================== *)

Module GenerateStory.

Import ParseComponent.

(** Component type to interaction test mapping *)
Definition INTERACTION_TESTS : list (string * string) :=
  [ ("button", "
    const button = canvas.getByRole('button');
    await expect(button).toBeInTheDocument();
    await userEvent.click(button);
    if (args.onClick) {
      await expect(args.onClick).toHaveBeenCalled();
    }
    await expect(button).not.toBeDisabled();
        ");
    ("input", "
    const input = canvas.getByRole('textbox');
    await expect(input).toBeInTheDocument();
    await userEvent.type(input, 'Test input');
    await expect(input).toHaveValue('Test input');
        ");
    ("checkbox", "
    const checkbox = canvas.getByRole('checkbox');
    await expect(checkbox).toBeInTheDocument();
    await userEvent.click(checkbox);
    await expect(checkbox).toBeChecked();
        ");
    ("select", "
    const select = canvas.getByRole('combobox');
    await expect(select).toBeInTheDocument();
    await userEvent.selectOptions(select, 'option1');
        ") ].

(** Component type to a11y rules mapping *)
Definition A11Y_RULES : list (string * list string) :=
  [ ("button", ["{ id: 'button-name', enabled: true }";
                "{ id: 'color-contrast', enabled: true }"]);
    ("input", ["{ id: 'label', enabled: true }";
               "{ id: 'color-contrast', enabled: true }"]);
    ("modal", ["{ id: 'aria-dialog-name', enabled: true }";
               "{ id: 'focus-trap', enabled: true }"]) ].

(** Component type to a11y test code mapping *)
Definition A11Y_TEST_CODE : list (string * string) :=
  [ ("button", "
    const button = canvas.getByRole('button');
    button.focus();
    await expect(button).toHaveFocus();
    await userEvent.keyboard('{Enter}');
        ");
    ("input", "
    const input = canvas.getByRole('textbox');
    await expect(input).toHaveAccessibleName();
    input.focus();
    await expect(input).toHaveFocus();
        ") ].

(** [d.get(key, default)] *)
Definition dict_get_or {V} (d : list (string * V)) (k : string) (dflt : V) : V :=
  default dflt (dict_get d k).

(** [_metadata_to_dict] *)
Definition _metadata_to_dict (metadata : ComponentMetadata) : MetadataDict :=
  mkMetadataDict
    (name metadata)
    (Some (component_type metadata))
    (Some ((fun p => mkPropDict (prop_name p) (prop_type p) (required p) (default_value p))
             <$> props metadata)).

(** A literal between single quotes: the pattern of the enum rule. *)
Definition single_quoted : regex :=
  Lit "'" ⋅ Grp 1 (Plus (none_of "'")) ⋅ Lit "'".

(** [_infer_control_type]: the first rule that applies decides. *)
Definition _infer_control_type (prop : PropDefinition) : option string :=
  let ptype := prop_type prop in
  let prop_type := PyStr.lower ptype in
  let prop_name := PyStr.lower (ParseComponent.prop_name prop) in
  (* Boolean *)
  if PyStr.contains "boolean" prop_type then Some "{ control: 'boolean' }"
  (* Number - check for range hints *)
  else if PyStr.contains "number" prop_type then
    if PyStr.any_in ["opacity"; "progress"; "percent"; "ratio"] prop_name then
      Some "{ control: { type: 'range', min: 0, max: 1, step: 0.1 } }"
    else if PyStr.any_in ["size"; "width"; "height"; "padding"; "margin"; "gap"] prop_name then
      Some "{ control: { type: 'range', min: 0, max: 100, step: 1 } }"
    else Some "{ control: 'number' }"
  (* Color - match by prop name pattern *)
  else if PyStr.any_in ["color"; "background"; "bg"; "fill"; "stroke"] prop_name then
    Some "{ control: 'color' }"
  (* Date - match by prop name pattern *)
  else if PyStr.endswith prop_name "date" || PyStr.endswith prop_name "time"
          || PyStr.contains "timestamp" prop_name then
    Some "{ control: 'date' }"
  (* Object/Array types *)
  else if PyStr.contains "object" prop_type || PyStr.contains "record" prop_type
          || PyStr.contains "{" ptype then
    Some "{ control: 'object' }"
  else if PyStr.contains "array" prop_type || PyStr.contains "[]" ptype then
    Some "{ control: 'object' }"
  (* File input *)
  else if PyStr.contains "file" prop_type
          || PyStr.mem prop_name ["file"; "files"; "src"; "source"] then
    if PyStr.contains "image" prop_name || PyStr.contains "avatar" prop_name
       || PyStr.contains "photo" prop_name then
      Some "{ control: { type: 'file', accept: 'image/*' } }"
    else Some "{ control: 'file' }"
  else
    (* String with union (enum): options at top level *)
    let enum :=
      if PyStr.contains "|" ptype && PyStr.contains "'" ptype then
        let matches := findall1 single_quoted ptype in
        match matches with
        | [] => None
        | _ =>
            let options_str := PyStr.join ", " ((fun opt => "'" +:+ opt +:+ "'") <$> matches) in
            (* Use radio for 2-4 options, select for more *)
            if (length matches <=? 4)%nat then
              Some ("{ options: [" +:+ options_str +:+ "], control: { type: 'radio' } }")
            else
              Some ("{ options: [" +:+ options_str +:+ "], control: { type: 'select' } }")
        end
      else None in
    match enum with
    | Some control => Some control
    | None =>
        (* Function/callback - use action *)
        if PyStr.contains "function" prop_type || PyStr.contains "=>" prop_type
           || PyStr.startswith prop_name "on" then
          Some ("{ action: '" +:+ ParseComponent.prop_name prop +:+ "' }")
        (* String (text) - default for string types *)
        else if PyStr.contains "string" prop_type then Some "{ control: 'text' }"
        (* ReactNode/ReactElement - disable control *)
        else if PyStr.contains "react" prop_type || PyStr.contains "node" prop_type
                || PyStr.contains "element" prop_type then
          Some "{ control: false }"
        else None
    end.

(** [_generate_arg_types] *)
Definition arg_type_line (prop : PropDefinition) : list string :=
  (* Skip children *)
  if String.eqb (prop_name prop) "children" then []
  else match _infer_control_type prop with
       | Some control => ["    " +:+ prop_name prop +:+ ": " +:+ control +:+ ","]
       | None => []
       end.

Definition _generate_arg_types (ps : list PropDefinition) : string :=
  PyStr.join "
" (concat (arg_type_line <$> ps)).

(** One line of a story's args. *)
Definition arg_line (kv : string * pyval) : string :=
  match kv with
  | (key, PStr value) => "    " +:+ key +:+ ": '" +:+ value +:+ "',"
  | (key, PBool value) => "    " +:+ key +:+ ": " +:+ (if value then "true" else "false") +:+ ","
  end.

(** [key in variant.args] *)
Definition has_key (key : string) (d : list (string * pyval)) : bool :=
  existsb (fun kv => String.eqb key kv.1) d.

Definition variant_story (metadata : ComponentMetadata) (variant : Variant) : string :=
  let lines := arg_line <$> args variant in
  (* Add children for components that need it *)
  let lines :=
    if has_children metadata && negb (has_key "children" (args variant))
    then lines ++ ["    children: '" +:+ name metadata +:+ "',"]
    else lines in
  let args_str := PyStr.join "
" lines in
  "
export const " +:+ DetectVariants.name variant +:+ ": Story = {
  args: {
" +:+ args_str +:+ "
  },
};
".

(** [_generate_variant_stories] *)
Definition _generate_variant_stories
           (metadata : ComponentMetadata) (variants : list Variant) : string :=
  PyStr.join "
" (variant_story metadata <$> variants).

(** [_generate_default_args] *)
Definition _generate_default_args (metadata : ComponentMetadata) : string :=
  let lines :=
    (if has_children metadata
     then ["    children: '" +:+ name metadata +:+ "',"] else [])
    ++ (if String.eqb (component_type metadata) "button"
        then if existsb (fun p => String.eqb (prop_name p) "onClick") (props metadata)
             then ["    onClick: () => {},"] else []
        else []) in
  PyStr.join "
" lines.

(** The text printed when the story file has been written.  The script
    begins it with three characters outside ASCII, U+00E2 U+0153 U+2026,
    which are seven bytes in UTF-8. *)
Definition story_generated_mark : string :=
  String "195"%char (String "162"%char
  (String "197"%char (String "147"%char
  (String "226"%char (String "128"%char (String "166"%char EmptyString)))))).

Definition story_generated (output_file : string) : string :=
  story_generated_mark +:+ " Story generated: " +:+ output_file.

Section Generator.

(** How [re] reads a pattern text with an unescaped component name in it
    (see [ParseComponent]), and the directory [TEMPLATE_DIR], which is fixed
    by where the script is installed. *)
Variable re_compile : string -> outcome regex.
Variable TEMPLATE_DIR : string.

(** [_generate_story_content] *)
Definition _generate_story_content
           (metadata : ComponentMetadata) (variants : list Variant)
           (testing_level : string) : IO string :=
  (* Select template based on framework and testing level *)
  let template_name := framework metadata +:+ "-" +:+ testing_level +:+ ".template" in
  let template_path := TEMPLATE_DIR +:+ "/" +:+ template_name in
  (* Fallback to basic template if specific level not found *)
  found ← path_exists template_path;
  let template_path :=
    if (found : bool) then template_path
    else TEMPLATE_DIR +:+ "/" +:+ framework metadata +:+ "-basic.template" in
  found ← path_exists template_path;
  if negb (found : bool) then
    print_err ("Template not found: " +:+ template_path);;
    mret EmptyString
  else
    (* Load template *)
    template ← read_text template_path;
    let story_title := "Components/" +:+ name metadata in
    let arg_types := _generate_arg_types (props metadata) in
    let variant_stories := _generate_variant_stories metadata variants in
    let default_args := _generate_default_args metadata in
    let interaction_test :=
      dict_get_or INTERACTION_TESTS (component_type metadata)
                  "// Component-specific interaction test" in
    let a11y_rules :=
      PyStr.join ",
          " (dict_get_or A11Y_RULES (component_type metadata)
                         ["{ id: 'color-contrast', enabled: true }"]) in
    let a11y_test :=
      dict_get_or A11Y_TEST_CODE (component_type metadata)
                  "// Component-specific accessibility test" in
    (* Replace template variables *)
    let story_content := PyStr.replace template "{{COMPONENT_NAME}}" (name metadata) in
    let story_content := PyStr.replace story_content "{{STORY_TITLE}}" story_title in
    let story_content := PyStr.replace story_content "{{ARG_TYPES}}" arg_types in
    let story_content := PyStr.replace story_content "{{VARIANT_STORIES}}" variant_stories in
    let story_content := PyStr.replace story_content "{{DEFAULT_ARGS}}" default_args in
    let story_content :=
      PyStr.replace story_content "{{INTERACTION_TEST_CODE}}" (PyStr.strip interaction_test) in
    let story_content := PyStr.replace story_content "{{A11Y_RULES}}" a11y_rules in
    let story_content :=
      PyStr.replace story_content "{{A11Y_TEST_CODE}}" (PyStr.strip a11y_test) in
    mret story_content.

(** [generate_story]; [output_path] is [None] or a path. *)
Definition generate_story (component_path testing_level : string)
           (output_path : option string) : IO (option string) :=
  (* Parse component *)
  metadata ← parse_component re_compile component_path;
  match metadata with
  | None =>
      print_err ("Failed to parse component: " +:+ component_path);;
      mret None
  | Some metadata =>
      (* Detect variants *)
      let metadata_dict := _metadata_to_dict metadata in
      let variants := detect_variants metadata_dict in
      (* Generate story content *)
      story_content ← _generate_story_content metadata variants testing_level;
      (* Write to file if output path provided *)
      (match output_path with
       | Some output_file =>
           if PyStr.truthy output_file then
             mkdir_parents (path_parent output_file);;
             write_text output_file story_content;;
             print_out (story_generated output_file)
           else mret ()
       | None => mret ()
       end);;
      mret (Some story_content)
  end.

End Generator.

End GenerateStory.

(* ===================================================================== *)
(** ** The file-level entry points *)
(* ===================================================================== *)

Module EntryPoints.

Import ParseComponent.

Section EntryPoints.

Variable re_compile : string -> outcome regex.
Variable TEMPLATE_DIR : string.

(** [detect_variants_from_file] of detect_variants.py *)
Definition detect_variants_from_file (file_path : string) : IO (list Variant) :=
  metadata ← parse_component re_compile file_path;
  match metadata with
  | None => mret []
  | Some metadata =>
      (* Convert to dict *)
      let metadata_dict :=
        mkMetadataDict
          (name metadata)
          (Some (component_type metadata))
          (Some ((fun p => mkPropDict (prop_name p) (prop_type p)
                                      (required p) (default_value p))
                   <$> props metadata)) in
      mret (detect_variants metadata_dict)
  end.

(** [parent / child] for a directory in normal form. *)
Definition path_join (parent child : string) : string :=
  if String.eqb parent "." then child
  else if String.eqb parent "/" then "/" +:+ child
  else parent +:+ "/" +:+ child.

(** The arguments of the command line of generate_story.py. *)
Record Args : Type := mkArgs {
  component_path : string;
  level : string;
  output : option string;
  dry_run : bool
}.

(** The output path [main] settles on when neither --output nor --dry-run
    is given: the component's directory, its base name, .stories, its
    extension. *)
Definition default_output_path (component_path : string) : string :=
  path_join (path_parent component_path)
            (path_stem component_path +:+ ".stories" +:+ path_suffix component_path).

(** [main] of generate_story.py, after the arguments are read. *)
Definition main (args : Args) : IO unit :=
  (* Determine output path *)
  let output_path :=
    match output args with
    | Some o => if PyStr.truthy o then Some o
                else if dry_run args then None
                else Some (default_output_path (component_path args))
    | None => if dry_run args then None
              else Some (default_output_path (component_path args))
    end in
  (* Generate story *)
  story_content ← GenerateStory.generate_story
                    re_compile TEMPLATE_DIR (component_path args) (level args)
                    (if negb (dry_run args) then output_path else None);
  (* Print to stdout if dry run *)
  match story_content with
  | Some content =>
      if dry_run args && PyStr.truthy content then print_out content else mret ()
  | None => mret ()
  end.

End EntryPoints.

End EntryPoints.

(* ===================================================================== *)
(** ** scan_components.py: the two file filters *)
(* ===================================================================== *)

Module ScanComponents.

(** Default patterns to exclude *)
Definition EXCLUDE_PATTERNS : list string :=
  ["node_modules"; ".git"; "dist"; "build"; "coverage"; ".next"; ".nuxt";
   ".storybook"; "__pycache__"; ".pytest_cache"; "test"; "tests"; "__tests__";
   "*.test.*"; "*.spec.*"; "*.stories.*"].

(** Component file extensions *)
Definition COMPONENT_EXTENSIONS : list string :=
  [".tsx"; ".jsx"; ".vue"; ".svelte"; ".ts"; ".js"].

(** [Path(p).parts] for a path in normal form: the root, when the path
    is absolute, and the names between the separators. *)
Definition path_parts (p : string) : list string :=
  (if String.prefix "/" p then ["/"] else [])
    ++ filter (fun s => PyStr.truthy s = true) (PyStr.split_on "/"%char p).

(** [fnmatch] for a pattern without brackets: a star stands for any text
    (separators included), a question mark for any one character, every
    other character for itself; the whole name has to match. *)
Fixpoint glob (pat : string) : string -> bool :=
  match pat with
  | EmptyString => fun s => negb (PyStr.truthy s)
  | String c pat' =>
      if Ascii.eqb c "*"%char then
        fix star (s : string) : bool :=
          glob pat' s || match s with
                         | EmptyString => false
                         | String _ s' => star s'
                         end
      else if Ascii.eqb c "?"%char then
        fun s => match s with
                 | EmptyString => false
                 | String _ s' => glob pat' s'
                 end
      else
        fun s => match s with
                 | EmptyString => false
                 | String d s' => Ascii.eqb c d && glob pat' s'
                 end
  end.

Section Filters.

(** What [fnmatch.fnmatch] answers for a pattern that has an opening
    bracket in it (a character set, or a bracket that stands for itself). *)
Variable fnmatch_brackets : string -> string -> bool.

(** [fnmatch.fnmatch(name, pat)] on a POSIX system. *)
Definition fnmatch (name pat : string) : bool :=
  if PyStr.contains "[" pat then fnmatch_brackets name pat else glob pat name.

(** [ComponentScanner._should_exclude] *)
Definition _should_exclude (file_path : string) (exclude_patterns : list string) : bool :=
  let file_str := file_path in
  existsb (fun pattern =>
             (* Exact directory match *)
             PyStr.mem pattern (path_parts file_path)
             (* Wildcard pattern *)
             || (PyStr.contains "*" pattern && fnmatch file_str ("*" +:+ pattern)))
          exclude_patterns.

End Filters.

(** [ComponentScanner._is_component_file]; [None] stands for the
    IndexError that [filename[0]] raises on an empty stem. *)
Definition _is_component_file (file_path : string) : option bool :=
  (* Must be a valid component extension *)
  if negb (PyStr.mem (path_suffix file_path) COMPONENT_EXTENSIONS) then Some false
  else
    let filename := path_stem file_path in
    match filename with
    | EmptyString => None
    | String c _ =>
        (* Component files usually start with uppercase *)
        if PyStr.is_upper c then Some true
        (* Or are in a components directory *)
        else if PyStr.contains "component" (PyStr.lower file_path) then Some true
        (* Or are named index (for directory-based components) *)
        else if String.eqb (PyStr.lower filename) "index" then Some true
        else Some false
    end.

End ScanComponents.

(* ===================================================================== *)
(** ** Vocabulary of the properties *)
(* ===================================================================== *)

Module PC := ParseComponent.
Module GS := GenerateStory.

(** What every variant emitted by one of the four passes satisfies. *)
Definition pass_variant (v : Variant) : Prop :=
  (priority v = 1 ∨ priority v = 2 ∨ priority v = 3) ∧ name v ≠ "Default".

(** No admissible literal of [VARIANT_PATTERNS] lower-cases to "default",
    and no list of admissible literals is empty. *)
Definition table_row_ok (row : string * list string) : bool :=
  match row.2 with
  | [] => false
  | _ => negb (PyStr.mem "default" (PyStr.lower <$> row.2))
  end.

(** Number of variants of a given name in a list. *)
Definition count_named (nm : string) (l : list Variant) : nat :=
  length (filter (fun v => name v = nm) l).

(** Number of literals satisfying [f] in the unions of the size-named
    props. *)
Definition size_literals (f : string -> bool) (props : list PropDict) : nat :=
  sum_list ((fun p => if is_size_name (pd_name p)
                      then length (filter (fun v => f v = true)
                                          (_parse_union_type (pd_type p)))
                      else O) <$> props).

(** Number of places of [s] at which the text [sub] starts. *)
Fixpoint occurrences (sub s : string) : nat :=
  ((if String.prefix sub s then 1 else 0)
   + match s with
     | EmptyString => 0
     | String _ s' => occurrences sub s'
     end)%nat.

(** The claim as the specification words it: one Small when a small-ish
    literal is present in a size-named prop, one Large when a large-ish
    one is, and no Medium. *)
Definition size_pass_collapses (props : list PropDict) : Prop :=
  ((0 < size_literals is_smallish props)%nat ->
     count_named "Small" (_detect_size_variants props) = 1%nat)
  ∧ ((0 < size_literals is_largeish props)%nat ->
     count_named "Large" (_detect_size_variants props) = 1%nat)
  ∧ count_named "Medium" (_detect_size_variants props) = 0%nat.


(** The three extraction strategies, the file types each takes, and the
    framework each writes into the metadata. *)
Inductive strategy : Type := React | Vue | Svelte.

Definition strategy_of_extension (ext : string) : option strategy :=
  if decide (ext ∈ [".tsx"; ".jsx"; ".ts"; ".js"]) then Some React
  else if decide (ext = ".vue") then Some Vue
  else if decide (ext = ".svelte") then Some Svelte
  else None.

Definition framework_of (s : strategy) : string :=
  match s with
  | React => "react"
  | Vue => "vue"
  | Svelte => "svelte"
  end.

Definition run_strategy (re_compile : string -> outcome regex) (s : strategy)
  : string -> IO (option ParseComponent.ComponentMetadata) :=
  match s with
  | React => ParseComponent.ReactTypeScriptParser_parse re_compile
  | Vue => ParseComponent.VueParser_parse
  | Svelte => ParseComponent.SvelteParser_parse
  end.

(** The lower-cased extension of a path: what the dispatch looks at. *)
Definition extension_of (file_path : string) : string :=
  PyStr.lower (path_suffix file_path).

(** The world after one more line on the error stream. *)
Definition with_stderr (w : World) (line : string) : World :=
  mkWorld (files w) (dirs w) (stdout w) (stderr w ++ [line]).

(** The name rules in the order of the specification: the first pattern
    that is found gives the name. *)
Definition NAME_RULES : list regex :=
  [ParseComponent.function_pattern; ParseComponent.const_pattern;
   ParseComponent.export_pattern].

Fixpoint first_group1 (rules : list regex) (content : string) : option string :=
  match rules with
  | [] => None
  | r :: rules' =>
      match ParseComponent.search_group1 r content with
      | Some n => Some n
      | None => first_group1 rules' content
      end
  end.

(** The name by the ordered rules, with the base name as the fallback. *)
Definition name_by_rules (content file_path : string) : string :=
  default (path_stem file_path) (first_group1 NAME_RULES content).

(** A prop with a default is not required. *)
Definition default_not_required (p : ParseComponent.PropDefinition) : Prop :=
  is_Some (ParseComponent.default_value p) -> ParseComponent.required p = false.

(** The hints of the colour rule of [_infer_control_type]. *)
Definition COLOR_HINTS : list string := ["color"; "background"; "bg"; "fill"; "stroke"].

(** What one line of the error stream says for a caught exception. *)
Definition parse_error_line (file_path : string) (e : exn) : string :=
  "Error parsing " +:+ file_path +:+ ": " +:+ exn_message e.

(** The exception of a file that is not there: [str(e)] shows the error
    number, its message and [repr] of the path. *)
Definition not_found (file_path : string) : exn :=
  FileNotFoundError ("[Errno 2] No such file or directory: " +:+ PyStr.repr file_path).

(** A component of a path in normal form, within the limit on names. *)
Definition plain_component (c : string) : bool :=
  negb (String.eqb c EmptyString) && negb (String.eqb c ".") && negb (String.eqb c "..")
  && (String.length c <=? NAME_MAX)%nat.

(** The paths the file operations are modelled for: ASCII text without
    NUL, shorter than [PATH_MAX], in normal form (no empty component, no
    component [.] or [..], no separator at the end), every component
    within [NAME_MAX]. *)
Definition plain_path (p : string) : bool :=
  PyStr.isascii p
  && negb (PyStr.contains (String "000"%char EmptyString) p)
  && (String.length p <? PATH_MAX)%nat
  && forallb (fun a => plain_component (path_name a)) (ancestors_go EmptyString p).

(** There is neither a file nor a directory at [path], and no file where
    a directory above [path] would be. *)
Definition nothing_at (path : string) (w : World) : bool :=
  negb (bool_decide (path ∈ dirs w))
  && forallb (fun a => negb (bool_decide (is_Some (files w !! a))))
             (ancestors_go EmptyString path).

(** Nothing is at [path]: neither a file nor a directory. *)
Definition path_absent (path : string) (w : World) : Prop :=
  files w !! path = None ∧ path ∉ dirs w.

(** *** Inputs of the examples *)

(** A regular-expression compiler that rejects every pattern text it is
    asked about (it is only asked about names that are not plain words). *)
Definition re_rejects : string -> outcome regex :=
  fun pattern => Exc (ReError ("bad pattern: " +:+ pattern)).

(** A world holding exactly the given files and the directories above
    them. *)
Definition world_of (fs : list (string * string)) : World :=
  mkWorld (list_to_map fs)
          (list_to_set (concat ((fun f => ancestors_go EmptyString (path_parent f.1)) <$> fs)))
          [] [].

Definition button_tsx : string :=
"import React from 'react';

interface ButtonProps {
  variant?: 'primary' | 'secondary';
  disabled: boolean;
  onClick: () => void;
  children: React.ReactNode;
}

export default function Button({ variant, disabled }: ButtonProps) {
  return null;
}
".

Definition card_vue : string :=
"<script setup lang='ts'>
function Foo() { return 1 }
const props = defineProps<{ title: string, size?: 'sm' | 'lg' }>()
</script>
<template><div><slot /></div></template>
".

Definition modal_svelte : string :=
"<script lang='ts'>
  export let isOpen: boolean = false;
  export let title: string;
  export let size = 'md';
</script>
<div><slot /></div>
".

Definition example_world : World :=
  world_of [("src/Button.tsx", button_tsx);
            ("src/Card.vue", card_vue);
            ("src/Modal.svelte", modal_svelte)].

Definition card_vue_metadata : ParseComponent.ComponentMetadata :=
  ParseComponent.mkComponentMetadata
    "Card" "src/Card.vue" "vue"
    [ParseComponent.PropDefinition3 "title" "string" true;
     ParseComponent.PropDefinition3 "size" "'sm' | 'lg'" false]
    "card" true true.

Definition modal_svelte_metadata : ParseComponent.ComponentMetadata :=
  ParseComponent.mkComponentMetadata
    "Modal" "src/Modal.svelte" "svelte"
    [ParseComponent.mkPropDefinition "isOpen" "boolean" false (Some "false") None;
     ParseComponent.mkPropDefinition "title" "string" true None None;
     ParseComponent.mkPropDefinition "size" "any" false (Some "'md'") None]
    "modal" true true.

(** A component with the five usual sizes. *)
Definition avatar_tsx : string :=
"import React from 'react';

interface AvatarProps {
  size?: 'xs' | 'sm' | 'md' | 'lg' | 'xl';
}

export function Avatar({ size }: AvatarProps) {
  return <img className={size} />;
}
".

Definition avatar_world : World := world_of [("src/Avatar.tsx", avatar_tsx)].

Definition avatar_metadata : ParseComponent.ComponentMetadata :=
  ParseComponent.mkComponentMetadata
    "Avatar" "src/Avatar.tsx" "react"
    [ParseComponent.PropDefinition3 "size" "'xs' | 'sm' | 'md' | 'lg' | 'xl'" false]
    "avatar" false false.

(** *** What a pattern matches *)

(** Every character of [t] is in the class [p]. *)
Fixpoint str_all (p : ascii -> bool) (t : string) : bool :=
  match t with
  | EmptyString => true
  | String c t' => p c && str_all p t'
  end.

(** The texts a pattern matches. *)
Fixpoint lang (r : regex) (t : string) : Prop :=
  match r with
  | Lit u => t = u
  | Cls p => ∃ c, t = String c EmptyString ∧ p c = true
  | Star p => str_all p t = true
  | Plus p => t ≠ EmptyString ∧ str_all p t = true
  | Seq a b => ∃ t1 t2, t = t1 +:+ t2 ∧ lang a t1 ∧ lang b t2
  | Alt a b => lang a t ∨ lang b t
  | Opt a => lang a t ∨ t = EmptyString
  | Grp _ a => lang a t
  end.

(** The texts group [n] of a pattern can hold after a match. *)
Fixpoint captures (r : regex) (n : nat) (u : string) : Prop :=
  match r with
  | Seq a b | Alt a b => captures a n u ∨ captures b n u
  | Opt a => captures a n u
  | Grp m a => (m = n ∧ lang a u) ∨ captures a n u
  | _ => False
  end.

(** Group [n] takes part in every match of the pattern. *)
Fixpoint binds (r : regex) (n : nat) : bool :=
  match r with
  | Seq a b => binds a n || binds b n
  | Alt a b => binds a n && binds b n
  | Grp m a => Nat.eqb m n || binds a n
  | _ => false
  end.

(** [g] are the groups of a match of [r] on the text [t]. *)
Definition match_of (r : regex) (g : groups) (t : string) : Prop :=
  lang r t
  ∧ Forall (fun nu => captures r nu.1 nu.2) g
  ∧ ∀ n, binds r n = true -> is_Some (group g n).

(** *** Vocabulary of the further properties *)

Module EP := EntryPoints.

(** The order [detect_variants] returns its variants in. *)
Definition by_priority (v w : Variant) : Prop := priority v <= priority w.

(** The variants of one priority, in the order of the list. *)
Definition of_priority (p : Z) (l : list Variant) : list Variant :=
  filter (fun v => priority v = p) l.

(** What [detect_variants] sorts: the passes' output, or the fallback. *)
Definition to_sort (md : MetadataDict) : list Variant :=
  match detected md with
  | [] => [default_variant]
  | l => l
  end.

Definition is_letter (c : ascii) : bool := PyStr.is_upper c || PyStr.is_lower c.

(** An upper-case letter followed by letters: a name that can stand after
    export const in the generated story. *)
Definition is_story_identifier (n : string) : bool :=
  match n with
  | EmptyString => false
  | String c rest => PyStr.is_upper c && str_all is_letter rest
  end.

(** A non-empty text of lower-case letters. *)
Definition is_lower_word (n : string) : bool :=
  match n with
  | EmptyString => false
  | _ => str_all PyStr.is_lower n
  end.

(** A non-empty text of word characters. *)
Definition is_word_text (n : string) : bool :=
  match n with
  | EmptyString => false
  | _ => str_all PyStr.is_word n
  end.

(** An identifier with an upper-case initial, as the name rules take it. *)
Definition is_component_ident (n : string) : bool :=
  match n with
  | EmptyString => false
  | String c rest => PyStr.is_upper c && str_all PyStr.is_word rest
  end.

(** The categories [classify_component] can answer. *)
Definition CATEGORIES : list string :=
  ["button"; "input"; "select"; "checkbox"; "radio"; "switch"; "card"; "modal";
   "sidebar"; "layout"; "table"; "list"; "chart"; "badge"; "avatar"; "alert";
   "toast"; "progress"; "menu"; "tabs"; "breadcrumb"; "pagination"; "other"].

(** The placeholders [_generate_story_content] replaces. *)
Definition PLACEHOLDERS : list string :=
  ["{{COMPONENT_NAME}}"; "{{STORY_TITLE}}"; "{{ARG_TYPES}}"; "{{VARIANT_STORIES}}";
   "{{DEFAULT_ARGS}}"; "{{INTERACTION_TEST_CODE}}"; "{{A11Y_RULES}}";
   "{{A11Y_TEST_CODE}}"].

(** Two worlds with the same files, directories and standard output. *)
Definition same_files (w w' : World) : Prop :=
  files w' = files w ∧ dirs w' = dirs w.

(** A Vue file that declares its props at run time only. *)
Definition runtime_vue : string :=
"<script setup>
const props = defineProps({ label: String, size: Number })
</script>
<template><button>{{ label }}</button></template>
".

Definition runtime_vue_world : World :=
  world_of [("src/Plain.vue", runtime_vue)].

(** A prop built from one match of a prop pattern in some text. *)
Definition prop_from (r : regex) (f : groups -> outcome PC.PropDefinition)
           (p : PC.PropDefinition) : Prop :=
  ∃ block g, g ∈ finditer r block ∧ f g = Val p.

(** Where the props of each parser come from. *)
Definition built_by (s : strategy) (p : PC.PropDefinition) : Prop :=
  match s with
  | React => prop_from PC.react_prop_pattern PC.react_prop_of p
  | Vue => prop_from PC.vue_prop_pattern PC.vue_prop_of p
           ∨ prop_from PC.vue_runtime_prop_pattern PC.vue_runtime_prop_of p
  | Svelte => prop_from PC.svelte_prop_pattern PC.svelte_prop_of p
  end.

Definition button_tsx_metadata : PC.ComponentMetadata :=
  PC.mkComponentMetadata
    "Button" "src/Button.tsx" "react"
    [PC.PropDefinition3 "variant" "'primary' | 'secondary'" false;
     PC.PropDefinition3 "disabled" "boolean" true;
     PC.PropDefinition3 "onClick" "() => void" true;
     PC.PropDefinition3 "children" "React.ReactNode" true]
    "button" true true.

(** The two template paths of a run: the one of the testing level and the
    fallback. *)
Definition specific_template (dir : string) (md : PC.ComponentMetadata)
           (level : string) : string :=
  dir +:+ "/" +:+ PC.framework md +:+ "-" +:+ level +:+ ".template".
Definition basic_template (dir : string) (md : PC.ComponentMetadata) : string :=
  dir +:+ "/" +:+ PC.framework md +:+ "-basic.template".

(** The line that passes the children of a story. *)
Definition children_line (md : PC.ComponentMetadata) : string :=
  "    children: '" +:+ PC.name md +:+ "',".

(** A world with the Button component and a React template that has no
    placeholder in it. *)
Definition plain_template : string :=
"// stories are written by hand for this framework
export default {};
".

Definition templated_world : World :=
  world_of [("src/Button.tsx", button_tsx);
            ("templates/react-basic.template", plain_template)].

Module SC := ScanComponents.

(** The default exclude patterns without a star: names of directories
    (or files) that exclude every path they are a component of. *)
Definition PLAIN_EXCLUDES : list string :=
  ["node_modules"; ".git"; "dist"; "build"; "coverage"; ".next"; ".nuxt";
   ".storybook"; "__pycache__"; ".pytest_cache"; "test"; "tests"; "__tests__"].

(** A pattern character that stands for itself. *)
Definition is_plain_char (c : ascii) : bool :=
  negb (Ascii.eqb c "*"%char) && negb (Ascii.eqb c "?"%char).

(** One of the rules of [_infer_control_type] that stand before the
    callback rule applies: boolean, number, colour, date, object, array,
    file, or a union of quoted literals. *)
Definition earlier_rule_applies (prop : PC.PropDefinition) : bool :=
  let ptype := PC.prop_type prop in
  let t := PyStr.lower ptype in
  let n := PyStr.lower (PC.prop_name prop) in
  PyStr.contains "boolean" t
  || PyStr.contains "number" t
  || PyStr.any_in COLOR_HINTS n
  || (PyStr.endswith n "date" || PyStr.endswith n "time" || PyStr.contains "timestamp" n)
  || (PyStr.contains "object" t || PyStr.contains "record" t || PyStr.contains "{" ptype)
  || (PyStr.contains "array" t || PyStr.contains "[]" ptype)
  || (PyStr.contains "file" t || PyStr.mem n ["file"; "files"; "src"; "source"])
  || (PyStr.contains "|" ptype && PyStr.contains "'" ptype
      && match findall1 GS.single_quoted ptype with [] => false | _ => true end).

(** The callback rule: a function type, or a name that starts with on. *)
Definition looks_like_callback (prop : PC.PropDefinition) : bool :=
  let t := PyStr.lower (PC.prop_type prop) in
  let n := PyStr.lower (PC.prop_name prop) in
  PyStr.contains "function" t || PyStr.contains "=>" t || PyStr.startswith n "on".

(** The control that records calls. *)
Definition action_control (prop : PC.PropDefinition) : string :=
  "{ action: '" +:+ PC.prop_name prop +:+ "' }".
(* ===================================================================== *)
(** ** Facts about the string primitives *)
(* ===================================================================== *)

Section StringFacts.

Lemma lower_char_upper_char (c : ascii) :
  PyStr.lower_char (PyStr.upper_char c) = PyStr.lower_char c.
Proof. destruct c as [[] [] [] [] [] [] [] []]; reflexivity. Qed.

Lemma lower_char_idem (c : ascii) :
  PyStr.lower_char (PyStr.lower_char c) = PyStr.lower_char c.
Proof. destruct c as [[] [] [] [] [] [] [] []]; reflexivity. Qed.

Lemma lower_idem (s : string) : PyStr.lower (PyStr.lower s) = PyStr.lower s.
Proof. induction s as [|c s IH]; simpl; [done|]. by rewrite lower_char_idem, IH. Qed.

(** Lower-casing forgets what [capitalize] did. *)
Lemma lower_capitalize (s : string) :
  PyStr.lower (PyStr.capitalize s) = PyStr.lower s.
Proof.
  destruct s as [|c s]; simpl; [done|].
  by rewrite lower_char_upper_char, lower_idem.
Qed.

Lemma mem_true (x : string) (l : list string) :
  PyStr.mem x l = true <-> x ∈ l.
Proof.
  unfold PyStr.mem. rewrite existsb_exists, list_elem_of_In. split.
  - intros (y & Hy & Heq). apply String.eqb_eq in Heq. by subst.
  - intros Hx. exists x. split; [done|]. apply String.eqb_refl.
Qed.

Lemma mem_lower (x : string) (l : list string) :
  PyStr.mem x l = true -> PyStr.mem (PyStr.lower x) (PyStr.lower <$> l) = true.
Proof.
  rewrite !mem_true. intros Hx. by apply list_elem_of_fmap_2.
Qed.

End StringFacts.

(* ===================================================================== *)
(** ** Properties of the variant detector *)
(* ===================================================================== *)

Section DetectVariantsFacts.

(** Closes [pass_variant] for a variant written out as a constant. *)
Ltac pass_literal :=
  split; simpl; [ first [ by left | by right; left | by right; right ]
                | discriminate ].

Lemma Forall_concat_fmap {A B} (P : B -> Prop) (f : A -> list B) (l : list A) :
  (∀ x, Forall P (f x)) -> Forall P (concat (f <$> l)).
Proof.
  intros Hf. induction l as [|x l IH]; simpl; [constructor|].
  apply Forall_app. split; [apply Hf | apply IH].
Qed.

Lemma VARIANT_PATTERNS_rows : forallb table_row_ok VARIANT_PATTERNS = true.
Proof. vm_compute. reflexivity. Qed.

Lemma dict_get_In {V} (d : list (string * V)) (k : string) (v : V) :
  dict_get d k = Some v -> (k, v) ∈ d.
Proof.
  induction d as [|[k' v'] d IH]; simpl; [done|].
  destruct (String.eqb k k') eqn:E.
  - apply String.eqb_eq in E. intros [= ->]. subst. left.
  - intros H. right. by apply IH.
Qed.

Lemma capitalize_not_default (x : string) (l : list string) :
  PyStr.mem x l = true ->
  PyStr.mem "default" (PyStr.lower <$> l) = false ->
  PyStr.capitalize x ≠ "Default".
Proof.
  intros Hx Hl Hc. apply mem_lower in Hx.
  rewrite <- lower_capitalize, Hc in Hx.
  change (PyStr.lower "Default") with "default" in Hx. congruence.
Qed.

Lemma enum_variants_of_pass (prop : PropDict) :
  Forall pass_variant (enum_variants_of prop).
Proof.
  unfold enum_variants_of.
  destruct (dict_get VARIANT_PATTERNS (pd_name prop)) as [ev|] eqn:E; [|constructor].
  apply dict_get_In in E.
  pose proof VARIANT_PATTERNS_rows as Hrows.
  rewrite forallb_forall in Hrows.
  apply list_elem_of_In, Hrows in E. unfold table_row_ok in E. simpl in E.
  apply Forall_fmap, Forall_forall. intros value Hv.
  apply list_elem_of_filter in Hv as [Hc _].
  split; simpl; [by left|].
  destruct ev as [|e ev]; [done|].
  apply negb_true_iff in E.
  by apply (capitalize_not_default value (e :: ev)).
Qed.

Lemma size_variant_of_pass (prop_name value : string) :
  Forall pass_variant (size_variant_of prop_name value).
Proof.
  unfold size_variant_of.
  destruct (is_smallish value); [|destruct (is_largeish value)];
    repeat (apply Forall_cons; split; [pass_literal|]); apply Forall_nil_2.
Qed.

Lemma size_variants_of_pass (prop : PropDict) :
  Forall pass_variant (size_variants_of prop).
Proof.
  unfold size_variants_of. destruct (is_size_name _); [|constructor].
  apply Forall_concat_fmap, size_variant_of_pass.
Qed.

Lemma state_variants_of_pass (prop : PropDict) :
  Forall pass_variant (state_variants_of prop).
Proof.
  unfold state_variants_of.
  destruct (PyStr.contains _ _); [|constructor].
  destruct (PyStr.mem _ STATE_PROPS) eqn:E; [|constructor].
  apply Forall_cons; split; [|apply Forall_nil_2].
  split; simpl; [by right; left|].
  intros Hc. apply (f_equal PyStr.lower) in Hc.
  rewrite lower_capitalize in Hc. rewrite Hc in E. vm_compute in E. discriminate.
Qed.

Lemma type_specific_pass (component_type : string) (props : list PropDict) :
  Forall pass_variant (_detect_type_specific_variants component_type props).
Proof.
  unfold _detect_type_specific_variants.
  repeat match goal with
         | |- context [if ?b then _ else _] => destruct b
         end;
    repeat (apply Forall_cons; split; [pass_literal|]); apply Forall_nil_2.
Qed.

Lemma detected_pass (md : MetadataDict) : Forall pass_variant (detected md).
Proof.
  unfold detected, _detect_enum_variants, _detect_size_variants,
    _detect_state_variants.
  repeat (apply Forall_app; split).
  - apply Forall_concat_fmap, enum_variants_of_pass.
  - apply Forall_concat_fmap, size_variants_of_pass.
  - apply Forall_concat_fmap, state_variants_of_pass.
  - apply type_specific_pass.
Qed.

(** Sorting only reorders. *)
Lemma insert_by_priority_perm (v : Variant) (l : list Variant) :
  insert_by_priority v l ≡ₚ v :: l.
Proof.
  induction l as [|w l IH]; simpl; [done|].
  destruct (priority v <=? priority w); [done|].
  rewrite IH. apply Permutation_swap.
Qed.

Lemma sort_by_priority_perm (l : list Variant) : sort_by_priority l ≡ₚ l.
Proof.
  induction l as [|v l IH]; simpl; [done|].
  by rewrite insert_by_priority_perm, IH.
Qed.

(** The list that is sorted: the passes' output, or the fallback. *)
Lemma detect_variants_perm (md : MetadataDict) :
  detect_variants md ≡ₚ
    match detected md with [] => [default_variant] | l => l end.
Proof.
  unfold detect_variants. rewrite sort_by_priority_perm.
  by destruct (detected md).
Qed.

End DetectVariantsFacts.

(** C1.  For every metadata dictionary, [detect_variants] returns a
    non-empty list whose priorities are all 1, 2 or 3; when the four passes
    emit nothing the result is exactly the fallback variant (named Default,
    empty args, priority 1), and a variant named Default occurs in the
    result exactly when the four passes emitted nothing. *)
Theorem detect_variants_nonempty_default_iff (md : MetadataDict) :
  detect_variants md ≠ []
  ∧ Forall (fun v => priority v = 1 ∨ priority v = 2 ∨ priority v = 3)
           (detect_variants md)
  ∧ (detected md = [] -> detect_variants md = [default_variant])
  ∧ (default_variant ∈ detect_variants md <-> detected md = [])
  ∧ ((∃ v, v ∈ detect_variants md ∧ name v = "Default") <-> detected md = []).
Proof.
  pose proof (detect_variants_perm md) as Hp.
  pose proof (detected_pass md) as Hd.
  assert (Hdef : detected md = [] -> detect_variants md = [default_variant]).
  { intros E. rewrite E in Hp. by apply Permutation_singleton_r in Hp. }
  assert (Hnone : detected md ≠ [] ->
                  ∀ v, v ∈ detect_variants md -> name v ≠ "Default").
  { intros Hne v Hv. rewrite Hp in Hv.
    destruct (detected md) as [|w l] eqn:E; [done|].
    rewrite Forall_forall in Hd. by apply Hd. }
  split; [|split; [|split; [|split]]].
  - intros E. rewrite E in Hp. apply Permutation_nil_l in Hp.
    by destruct (detected md).
  - rewrite Hp. destruct (detected md) as [|w l] eqn:E.
    + repeat constructor.
    + eapply Forall_impl; [exact Hd|]. by intros v [? _].
  - exact Hdef.
  - split.
    + intros Hin. destruct (detected md) as [|w l] eqn:E; [done|].
      exfalso. by apply (Hnone ltac:(done) default_variant Hin).
    + intros E. rewrite (Hdef E). left.
  - split.
    + intros (v & Hin & Hn). destruct (detected md) as [|w l] eqn:E; [done|].
      exfalso. by apply (Hnone ltac:(done) v Hin).
    + intros E. exists default_variant. rewrite (Hdef E). split; [left|done].
Qed.

(** C5.  The button scenario: for a button-classified component with the
    props variant (the union of the literals primary and secondary) and
    disabled (boolean), whatever its name and the props' required flags and
    defaults, [detect_variants] returns Primary and Secondary (priority 1,
    args setting variant to the literal) followed by Disabled (priority 2,
    args setting disabled to true): three entries, none named Default. *)
Theorem detect_variants_button_scenario
        (nm : string) (r1 r2 : bool) (d1 d2 : option string) :
  let vs := detect_variants
              (mkMetadataDict nm (Some "button")
                 (Some [mkPropDict "variant" "'primary' | 'secondary'" r1 d1;
                        mkPropDict "disabled" "boolean" r2 d2])) in
  vs = [mkVariant "Primary" "variant: primary" [("variant", PStr "primary")] 1;
        mkVariant "Secondary" "variant: secondary" [("variant", PStr "secondary")] 1;
        mkVariant "Disabled" "disabled state" [("disabled", PBool true)] 2]
  ∧ (∃ d, mkVariant "Primary" d [("variant", PStr "primary")] 1 ∈ vs)
  ∧ (∃ d, mkVariant "Secondary" d [("variant", PStr "secondary")] 1 ∈ vs)
  ∧ (∃ d, mkVariant "Disabled" d [("disabled", PBool true)] 2 ∈ vs)
  ∧ (3 <= length vs)%nat
  ∧ Forall (fun v => name v ≠ "Default") vs.
Proof.
  intros vs.
  assert (E : vs = [mkVariant "Primary" "variant: primary" [("variant", PStr "primary")] 1;
        mkVariant "Secondary" "variant: secondary" [("variant", PStr "secondary")] 1;
        mkVariant "Disabled" "disabled state" [("disabled", PBool true)] 2])
    by (subst vs; vm_compute; reflexivity).
  rewrite E. split; [done|].
  split; [eexists; apply list_elem_of_here|].
  split; [eexists; apply list_elem_of_further, list_elem_of_here|].
  split; [eexists; do 2 apply list_elem_of_further; apply list_elem_of_here|].
  split; [simpl; lia|].
  repeat (apply Forall_cons; split; [simpl; discriminate|]). apply Forall_nil_2.
Qed.

(** C7.  A modal-classified component always gets the Open variant:
    priority 1, args mapping isOpen to true, whatever its props (also when
    the props are empty or absent). *)
Theorem detect_variants_modal_open (nm : string) (props : option (list PropDict)) :
  mkVariant "Open" "Modal in open state" [("isOpen", PBool true)] 1
    ∈ detect_variants (mkMetadataDict nm (Some "modal") props).
Proof.
  set (md := mkMetadataDict nm (Some "modal") props).
  set (v := mkVariant "Open" "Modal in open state" [("isOpen", PBool true)] 1).
  assert (Hin : v ∈ detected md).
  { unfold detected. rewrite !elem_of_app. do 3 right. simpl. left. }
  rewrite detect_variants_perm.
  destruct (detected md); [by apply not_elem_of_nil in Hin | done].
Qed.

(* --------------------------------------------------------------------- *)
(** *** The size pass *)
(* --------------------------------------------------------------------- *)

Section SizePass.

Lemma count_named_app (nm : string) (l1 l2 : list Variant) :
  count_named nm (l1 ++ l2) = (count_named nm l1 + count_named nm l2)%nat.
Proof. unfold count_named. by rewrite filter_app, length_app. Qed.

Lemma count_named_zero (nm : string) (l : list Variant) :
  Forall (fun v => name v ≠ nm) l -> count_named nm l = 0%nat.
Proof.
  unfold count_named. induction 1 as [|v l Hv _ IH]; [done|].
  rewrite filter_cons. by case_decide.
Qed.

Lemma smallish_not_largeish (value : string) :
  is_smallish value = true -> is_largeish value = false.
Proof.
  unfold is_smallish, is_largeish. rewrite mem_true.
  intros H. repeat (apply elem_of_cons in H as [-> | H]); try reflexivity.
  by apply not_elem_of_nil in H.
Qed.

Lemma count_small_literals (prop_name : string) (values : list string) :
  count_named "Small" (concat (size_variant_of prop_name <$> values))
  = length (filter (fun v => is_smallish v = true) values).
Proof.
  induction values as [|v values IH]; [done|].
  rewrite fmap_cons, concat_cons, count_named_app, IH, filter_cons.
  unfold size_variant_of.
  destruct (is_smallish v) eqn:Es; [by case_decide|].
  case_decide; [done|]. by destruct (is_largeish v).
Qed.

Lemma count_large_literals (prop_name : string) (values : list string) :
  count_named "Large" (concat (size_variant_of prop_name <$> values))
  = length (filter (fun v => is_largeish v = true) values).
Proof.
  induction values as [|v values IH]; [done|].
  rewrite fmap_cons, concat_cons, count_named_app, IH, filter_cons.
  unfold size_variant_of.
  destruct (is_smallish v) eqn:Es.
  - rewrite (smallish_not_largeish v Es). by case_decide.
  - destruct (is_largeish v); by case_decide.
Qed.

Lemma count_size_pass (nm : string) (f : string -> bool) (props : list PropDict) :
  (∀ prop_name values,
      count_named nm (concat (size_variant_of prop_name <$> values))
      = length (filter (fun v => f v = true) values)) ->
  count_named nm (_detect_size_variants props) = size_literals f props.
Proof.
  intros Hf. unfold _detect_size_variants, size_literals.
  induction props as [|p props IH]; [done|].
  rewrite !fmap_cons, concat_cons, count_named_app, IH. simpl sum_list. f_equal.
  unfold size_variants_of. destruct (is_size_name _); [apply Hf | done].
Qed.

Lemma size_pass_names (props : list PropDict) :
  Forall (fun v => (name v = "Small" ∨ name v = "Large") ∧ priority v = 2)
         (_detect_size_variants props).
Proof.
  apply Forall_concat_fmap. intros p. unfold size_variants_of.
  destruct (is_size_name _); [|constructor].
  apply Forall_concat_fmap. intros v. unfold size_variant_of.
  destruct (is_smallish v); [|destruct (is_largeish v)];
    repeat (apply Forall_cons; split; [simpl; auto|]); apply Forall_nil_2.
Qed.

End SizePass.

(* ===================================================================== *)
(** ** Properties of the parser *)
(* ===================================================================== *)

Section ParserFacts.

Variable re_compile : string -> outcome regex.

(** Unfolds the monadic plumbing of a parser run. *)
Ltac io_unfold :=
  unfold mbind, mret, IO_bind, IO_ret, try_except, lift, read_text, print_err,
    with_stderr.

(** Each parser run, case by case. *)
Lemma ReactTypeScriptParser_parse_cases (file_path : string) (w : World) :
  PC.ReactTypeScriptParser_parse re_compile file_path w =
  match files w !! file_path with
  | None => (Val None, with_stderr w (parse_error_line file_path (open_error file_path w)))
  | Some content =>
      let nm := PC._extract_component_name content file_path in
      if negb (PyStr.truthy nm) then (Val None, w)
      else match PC.ReactTypeScriptParser_extract_props re_compile content nm with
           | Val ps =>
               (Val (Some (PC.mkComponentMetadata
                             nm file_path "react" ps (PC.classify_component nm ps)
                             (existsb (fun p => String.eqb (PC.prop_name p) "children") ps)
                             (PyStr.contains "export default" content))), w)
           | Exc e => (Val None, with_stderr w (parse_error_line file_path e))
           end
  end.
Proof.
  unfold PC.ReactTypeScriptParser_parse. io_unfold.
  destruct (files w !! file_path) as [content|]; [|reflexivity].
  simpl. destruct (negb _); [reflexivity|].
  destruct (PC.ReactTypeScriptParser_extract_props _ _ _); reflexivity.
Qed.

Lemma VueParser_parse_cases (file_path : string) (w : World) :
  PC.VueParser_parse file_path w =
  match files w !! file_path with
  | None => (Val None, with_stderr w (parse_error_line file_path (open_error file_path w)))
  | Some content =>
      let nm := path_stem file_path in
      match PC.VueParser_extract_props content with
      | Val ps =>
          (Val (Some (PC.mkComponentMetadata
                        nm file_path "vue" ps (PC.classify_component nm ps)
                        (PyStr.contains "<slot" content) true)), w)
      | Exc e => (Val None, with_stderr w (parse_error_line file_path e))
      end
  end.
Proof.
  unfold PC.VueParser_parse. io_unfold.
  destruct (files w !! file_path) as [content|]; [|reflexivity].
  simpl. destruct (PC.VueParser_extract_props _); reflexivity.
Qed.

Lemma SvelteParser_parse_cases (file_path : string) (w : World) :
  PC.SvelteParser_parse file_path w =
  match files w !! file_path with
  | None => (Val None, with_stderr w (parse_error_line file_path (open_error file_path w)))
  | Some content =>
      let nm := path_stem file_path in
      match PC.SvelteParser_extract_props content with
      | Val ps =>
          (Val (Some (PC.mkComponentMetadata
                        nm file_path "svelte" ps (PC.classify_component nm ps)
                        (PyStr.contains "<slot" content) true)), w)
      | Exc e => (Val None, with_stderr w (parse_error_line file_path e))
      end
  end.
Proof.
  unfold PC.SvelteParser_parse. io_unfold.
  destruct (files w !! file_path) as [content|]; [|reflexivity].
  simpl. destruct (PC.SvelteParser_extract_props _); reflexivity.
Qed.

(** The dispatch of [parse_component] is the table [strategy_of_extension]. *)
Lemma parse_component_by_strategy (file_path : string) :
  PC.parse_component re_compile file_path =
  match strategy_of_extension (extension_of file_path) with
  | Some s => run_strategy re_compile s file_path
  | None => fun w =>
      (Val None, with_stderr w ("Unsupported file type: " +:+ extension_of file_path))
  end.
Proof.
  unfold PC.parse_component, strategy_of_extension, extension_of. cbv zeta.
  generalize (PyStr.lower (path_suffix file_path)). intros ext.
  destruct (PyStr.mem ext PC.REACT_EXTENSIONS) eqn:Em.
  - apply mem_true in Em. by rewrite decide_True.
  - unfold PC.REACT_EXTENSIONS in Em.
    rewrite decide_False; [|by rewrite <- mem_true, Em].
    destruct (String.eqb ext ".vue") eqn:Ev.
    + apply String.eqb_eq in Ev. by rewrite decide_True.
    + apply String.eqb_neq in Ev. rewrite decide_False by done.
      destruct (String.eqb ext ".svelte") eqn:Es.
      * apply String.eqb_eq in Es. by rewrite decide_True.
      * apply String.eqb_neq in Es. by rewrite decide_False.
Qed.

(** No run of a parser ends in an exception. *)
Lemma run_strategy_returns (s : strategy) (file_path : string) (w : World) :
  ∃ r w', run_strategy re_compile s file_path w = (Val r, w').
Proof.
  destruct s; simpl.
  - rewrite ReactTypeScriptParser_parse_cases. destruct (files w !! file_path); [|by eauto].
    simpl. destruct (negb _); [by eauto|].
    destruct (PC.ReactTypeScriptParser_extract_props _ _ _); by eauto.
  - rewrite VueParser_parse_cases. destruct (files w !! file_path); [|by eauto].
    simpl. destruct (PC.VueParser_extract_props _); by eauto.
  - rewrite SvelteParser_parse_cases. destruct (files w !! file_path); [|by eauto].
    simpl. destruct (PC.SvelteParser_extract_props _); by eauto.
Qed.

(** The base name of a file with an extension is not empty. *)
Lemma path_stem_nonempty (file_path : string) :
  path_suffix file_path ≠ EmptyString -> path_stem file_path ≠ EmptyString.
Proof.
  unfold path_suffix, path_stem.
  destruct (rpartition "." (path_name file_path)) as [[[|c a] [|d b]]|]; done.
Qed.

Lemma extension_nonempty (file_path : string) (s : strategy) :
  strategy_of_extension (extension_of file_path) = Some s ->
  path_suffix file_path ≠ EmptyString.
Proof.
  unfold extension_of. intros Hs E. rewrite E in Hs. vm_compute in Hs. discriminate.
Qed.

(** The source's cascade of name rules is the ordered rule list. *)
Lemma extract_component_name_by_rules (content file_path : string) :
  PC._extract_component_name content file_path = name_by_rules content file_path.
Proof.
  unfold PC._extract_component_name, name_by_rules, NAME_RULES. simpl.
  repeat destruct (PC.search_group1 _ content); reflexivity.
Qed.

(** What a run that returns metadata says about it. *)
Lemma run_strategy_metadata (s : strategy) (file_path : string) (w w' : World)
      (md : PC.ComponentMetadata) :
  run_strategy re_compile s file_path w = (Val (Some md), w') ->
  ∃ content,
    files w !! file_path = Some content
    ∧ w' = w
    ∧ PC.framework md = framework_of s
    ∧ PC.file_path md = file_path
    ∧ PC.name md = match s with
                   | React => PC._extract_component_name content file_path
                   | _ => path_stem file_path
                   end
    ∧ match s with
      | React => PC.ReactTypeScriptParser_extract_props re_compile content (PC.name md)
      | Vue => PC.VueParser_extract_props content
      | Svelte => PC.SvelteParser_extract_props content
      end = Val (PC.props md)
    ∧ PC.exports_default md = match s with
                              | React => PyStr.contains "export default" content
                              | _ => true
                              end
    ∧ (s = React -> PC.name md ≠ EmptyString).
Proof.
  destruct s; simpl.
  - rewrite ReactTypeScriptParser_parse_cases.
    destruct (files w !! file_path) as [content|]; [|discriminate].
    simpl. destruct (PyStr.truthy _) eqn:Et; simpl; [|discriminate].
    destruct (PC.ReactTypeScriptParser_extract_props _ _ _) eqn:Ep; [|discriminate].
    intros [= <- <-]. exists content. simpl.
    repeat split; try done.
    intros _ E. rewrite E in Et. discriminate.
  - rewrite VueParser_parse_cases.
    destruct (files w !! file_path) as [content|]; [|discriminate].
    simpl. destruct (PC.VueParser_extract_props _) eqn:Ep; [|discriminate].
    intros [= <- <-]. exists content. by repeat split.
  - rewrite SvelteParser_parse_cases.
    destruct (files w !! file_path) as [content|]; [|discriminate].
    simpl. destruct (PC.SvelteParser_extract_props _) eqn:Ep; [|discriminate].
    intros [= <- <-]. exists content. by repeat split.
Qed.

End ParserFacts.

(* --------------------------------------------------------------------- *)
(** *** The props the parsers build *)
(* --------------------------------------------------------------------- *)

Section PropsFacts.

Lemma mapM_outcome_Forall {A B} (f : A -> outcome B) (P : B -> Prop)
      (l : list A) (ps : list B) :
  (∀ x p, f x = Val p -> P p) -> mapM f l = Val ps -> Forall P ps.
Proof.
  intros Hf. revert ps. induction l as [|x l IH]; intros ps; simpl.
  - intros [= <-]. constructor.
  - unfold mbind, outcome_bind, mret, outcome_ret.
    destruct (f x) as [p|] eqn:Ex; [|discriminate].
    destruct (mapM f l) as [ps'|] eqn:El; [|discriminate].
    intros [= <-]. constructor; [by eapply Hf | by apply IH].
Qed.

(** Closes the goal for a prop built with [PropDefinition3]: its default
    is [None]. *)
Ltac no_default :=
  unfold mbind, outcome_bind;
  repeat match goal with
         | |- context [PC.group_text ?g ?n] => destruct (PC.group_text g n)
         | |- context [PC.group_strip ?g ?n] => destruct (PC.group_strip g n)
         end;
  try discriminate;
  intros [= <-]; intros [d Hd]; discriminate.

Lemma react_prop_of_default (g : groups) (p : PC.PropDefinition) :
  PC.react_prop_of g = Val p -> default_not_required p.
Proof. unfold PC.react_prop_of. no_default. Qed.

Lemma vue_prop_of_default (g : groups) (p : PC.PropDefinition) :
  PC.vue_prop_of g = Val p -> default_not_required p.
Proof. unfold PC.vue_prop_of. no_default. Qed.

Lemma vue_runtime_prop_of_default (g : groups) (p : PC.PropDefinition) :
  PC.vue_runtime_prop_of g = Val p -> default_not_required p.
Proof. unfold PC.vue_runtime_prop_of. no_default. Qed.

(** The Svelte parser is the one that records defaults; it derives
    [required] from the default it recorded. *)
Lemma svelte_prop_of_default (g : groups) (p : PC.PropDefinition) :
  PC.svelte_prop_of g = Val p -> default_not_required p.
Proof.
  unfold PC.svelte_prop_of, mbind, outcome_bind.
  destruct (PC.group_text g 1); [|discriminate].
  intros [= <-]. unfold default_not_required. simpl.
  destruct (PC.group_strip_or g 3 Some None); [done|]. by intros [d Hd].
Qed.

Lemma ReactTypeScriptParser_extract_props_default (re_compile : string -> outcome regex)
      (content nm : string) (ps : list PC.PropDefinition) :
  PC.ReactTypeScriptParser_extract_props re_compile content nm = Val ps ->
  Forall default_not_required ps.
Proof.
  unfold PC.ReactTypeScriptParser_extract_props, mbind, outcome_bind.
  destruct (PC.find_props_block _ _ _) as [[g|]|]; try discriminate.
  - destruct (PC.group_text g 1); [|discriminate].
    apply mapM_outcome_Forall, react_prop_of_default.
  - intros [= <-]. constructor.
Qed.

Lemma VueParser_extract_props_default (content : string) (ps : list PC.PropDefinition) :
  PC.VueParser_extract_props content = Val ps -> Forall default_not_required ps.
Proof.
  unfold PC.VueParser_extract_props, mbind, outcome_bind.
  set (typed := match search PC.define_props_type_pattern content with
                | Some g => _ | None => _ end).
  assert (Ht : ∀ l, typed = Val l -> Forall default_not_required l).
  { subst typed. destruct (search PC.define_props_type_pattern content) as [g|].
    - destruct (PC.group_text g 1); [|discriminate].
      intros l. apply mapM_outcome_Forall, vue_prop_of_default.
    - intros l [= <-]. constructor. }
  destruct typed as [l|]; [|discriminate].
  specialize (Ht l eq_refl).
  destruct (search PC.define_props_runtime_pattern content) as [g|];
    [|by intros [= <-]].
  destruct l as [|p l]; [|by intros [= <-]].
  destruct (PC.group_text g 1); [|discriminate].
  destruct (mapM _ _) as [more|] eqn:Em; [|discriminate].
  intros [= <-]. simpl.
  by eapply mapM_outcome_Forall; [apply vue_runtime_prop_of_default|].
Qed.

Lemma SvelteParser_extract_props_default (content : string) (ps : list PC.PropDefinition) :
  PC.SvelteParser_extract_props content = Val ps -> Forall default_not_required ps.
Proof. apply mapM_outcome_Forall, svelte_prop_of_default. Qed.

End PropsFacts.

(* --------------------------------------------------------------------- *)
(** *** The claims about the parser *)
(* --------------------------------------------------------------------- *)

(** C6.  [parse_component] picks the extraction strategy from the
    lower-cased extension of the path alone: React for .tsx, .jsx, .ts and
    .js, Vue for .vue, Svelte for .svelte, and the metadata a run returns
    names that framework; for any other extension it reads no file,
    reports the file type on the error stream and returns no metadata. *)
Theorem parse_component_dispatch_by_extension
        (re_compile : string -> outcome regex) (file_path : string) (w : World) :
  match strategy_of_extension (extension_of file_path) with
  | Some s =>
      PC.parse_component re_compile file_path w = run_strategy re_compile s file_path w
      ∧ (∀ md w', PC.parse_component re_compile file_path w = (Val (Some md), w') ->
                  PC.framework md = framework_of s)
  | None =>
      PC.parse_component re_compile file_path w
      = (Val None, with_stderr w ("Unsupported file type: " +:+ extension_of file_path))
  end.
Proof.
  rewrite parse_component_by_strategy.
  destruct (strategy_of_extension (extension_of file_path)) as [s|]; [|done].
  split; [done|]. intros md w' H.
  apply run_strategy_metadata in H as (content & _ & _ & Hf & _). exact Hf.
Qed.

Example uppercase_extension_is_react :
  strategy_of_extension (extension_of "src/App.TSX") = Some React.
Proof. vm_compute. reflexivity. Qed.

Example unsupported_extension_reads_nothing :
  PC.parse_component re_rejects "notes/readme.md" example_world
  = (Val None, with_stderr example_world "Unsupported file type: .md").
Proof. vm_compute. reflexivity. Qed.

(** A name taken from the file name can break the props pattern it is
    spliced into; the parser then reports the error and returns nothing. *)
Example bad_pattern_is_caught :
  let w := world_of [("src/my(button.tsx", "let a = 1")] in
  PC.parse_component re_rejects "src/my(button.tsx" w
  = (Val None,
     with_stderr w ("Error parsing src/my(button.tsx: bad pattern: "
                    +:+ "interface\s+my(buttonProps\s*\{([^}]+)\}")).
Proof. vm_compute. reflexivity. Qed.

(** C4, as the code has it.  For a readable file of a supported type,
    [parse_component] does not raise, and the metadata it returns has a
    non-empty name: for .tsx, .jsx, .ts and .js the name given by the
    ordered rules (function, then const, then export function, each with
    an identifier that starts with an upper-case letter), or the base name
    of the file when none of them is found; for .vue and .svelte always
    the base name of the file. *)
Theorem parse_component_returns_named
        (re_compile : string -> outcome regex) (file_path : string) (w : World)
        (content : string) (s : strategy) :
  files w !! file_path = Some content ->
  strategy_of_extension (extension_of file_path) = Some s ->
  ∃ r w',
    PC.parse_component re_compile file_path w = (Val r, w')
    ∧ ∀ md, r = Some md ->
            PC.name md ≠ EmptyString
            ∧ PC.name md = match s with
                           | React => name_by_rules content file_path
                           | _ => path_stem file_path
                           end.
Proof.
  intros Hfile Hs. rewrite parse_component_by_strategy, Hs.
  destruct (run_strategy_returns re_compile s file_path w) as (r & w' & Hrun).
  exists r, w'. split; [done|]. intros md ->.
  apply run_strategy_metadata in Hrun
    as (content' & Hfile' & _ & _ & _ & Hname & _ & _ & Hne).
  assert (content' = content) as -> by congruence.
  pose proof (path_stem_nonempty file_path (extension_nonempty _ _ Hs)) as Hstem.
  destruct s.
  - split; [by apply Hne|]. by rewrite Hname, extract_component_name_by_rules.
  - by rewrite Hname.
  - by rewrite Hname.
Qed.

Lemma parse_component_returns_named_witness :
  ∃ r w',
    PC.parse_component re_rejects "src/Button.tsx" example_world = (Val r, w')
    ∧ ∀ md, r = Some md ->
            PC.name md ≠ EmptyString
            ∧ PC.name md = name_by_rules button_tsx "src/Button.tsx".
Proof.
  apply (parse_component_returns_named
           re_rejects "src/Button.tsx" example_world button_tsx React);
    vm_compute; reflexivity.
Defined.

(** C4 as stated fails for the Vue (and Svelte) parser: a .vue file in
    which the first name rule finds Foo is still named after the file. *)
Lemma vue_name_is_the_base_name :
  PC.parse_component re_rejects "src/Card.vue" example_world
  = (Val (Some card_vue_metadata), example_world)
  ∧ PC.name card_vue_metadata = "Card"
  ∧ first_group1 NAME_RULES card_vue = Some "Foo"
  ∧ PC.name card_vue_metadata ≠ name_by_rules card_vue "src/Card.vue".
Proof.
  split; [vm_compute; reflexivity|].
  split; [reflexivity|].
  split; [vm_compute; reflexivity|].
  vm_compute. discriminate.
Qed.

(** C9.  No parser returns a prop that has a default and is required. *)
Theorem parsed_default_not_required
        (re_compile : string -> outcome regex) (file_path : string) (w w' : World)
        (md : PC.ComponentMetadata) :
  PC.parse_component re_compile file_path w = (Val (Some md), w') ->
  Forall default_not_required (PC.props md).
Proof.
  rewrite parse_component_by_strategy.
  destruct (strategy_of_extension (extension_of file_path)) as [s|]; [|discriminate].
  intros H. apply run_strategy_metadata in H as (content & _ & _ & _ & _ & _ & Hp & _).
  destruct s.
  - by eapply ReactTypeScriptParser_extract_props_default.
  - by apply VueParser_extract_props_default in Hp.
  - by apply SvelteParser_extract_props_default in Hp.
Qed.

Lemma parsed_default_not_required_witness :
  PC.parse_component re_rejects "src/Modal.svelte" example_world
  = (Val (Some modal_svelte_metadata), example_world)
  ∧ Forall default_not_required (PC.props modal_svelte_metadata).
Proof.
  assert (H : PC.parse_component re_rejects "src/Modal.svelte" example_world
              = (Val (Some modal_svelte_metadata), example_world))
    by (vm_compute; reflexivity).
  split; [exact H|].
  exact (parsed_default_not_required
           re_rejects "src/Modal.svelte" example_world example_world
           modal_svelte_metadata H).
Defined.

(** C10.  The metadata of a .vue or .svelte file always has
    [exports_default] set, whatever the file holds. *)
Theorem vue_svelte_exports_default
        (re_compile : string -> outcome regex) (file_path : string) (w w' : World)
        (md : PC.ComponentMetadata) :
  extension_of file_path = ".vue" ∨ extension_of file_path = ".svelte" ->
  PC.parse_component re_compile file_path w = (Val (Some md), w') ->
  PC.exports_default md = true.
Proof.
  intros Hext. rewrite parse_component_by_strategy.
  assert (Hs : strategy_of_extension (extension_of file_path) = Some Vue
               ∨ strategy_of_extension (extension_of file_path) = Some Svelte)
    by (destruct Hext as [-> | ->]; [left | right]; reflexivity).
  destruct Hs as [-> | ->]; intros H;
    apply run_strategy_metadata in H as (content & _ & _ & _ & _ & _ & _ & He & _);
    exact He.
Qed.

Lemma vue_svelte_exports_default_witness :
  PyStr.contains "export default" card_vue = false
  ∧ PC.parse_component re_rejects "src/Card.vue" example_world
    = (Val (Some card_vue_metadata), example_world)
  ∧ PC.exports_default card_vue_metadata = true.
Proof.
  assert (H : PC.parse_component re_rejects "src/Card.vue" example_world
              = (Val (Some card_vue_metadata), example_world))
    by (vm_compute; reflexivity).
  split; [vm_compute; reflexivity|].
  split; [exact H|].
  apply (vue_svelte_exports_default
           re_rejects "src/Card.vue" example_world example_world card_vue_metadata);
    [left; vm_compute; reflexivity | exact H].
Defined.

(* ===================================================================== *)
(** ** Properties of the story generator *)
(* ===================================================================== *)

(** C8.  A prop named backgroundColor of type string gets the colour
    control, not the text control: the colour rule comes before the string
    rule, so every prop whose type mentions neither boolean nor number and
    whose lower-cased name contains one of the hints color, background, bg,
    fill, stroke gets the colour control. *)
Theorem color_hint_gives_color_control :
  (∀ (r : bool) (d desc : option string),
      GS._infer_control_type (PC.mkPropDefinition "backgroundColor" "string" r d desc)
      = Some "{ control: 'color' }"
      ∧ GS._infer_control_type (PC.mkPropDefinition "backgroundColor" "string" r d desc)
        ≠ Some "{ control: 'text' }")
  ∧ (∀ prop : PC.PropDefinition,
        PyStr.contains "boolean" (PyStr.lower (PC.prop_type prop)) = false ->
        PyStr.contains "number" (PyStr.lower (PC.prop_type prop)) = false ->
        PyStr.any_in COLOR_HINTS (PyStr.lower (PC.prop_name prop)) = true ->
        GS._infer_control_type prop = Some "{ control: 'color' }").
Proof.
  assert (Hgen : ∀ prop : PC.PropDefinition,
        PyStr.contains "boolean" (PyStr.lower (PC.prop_type prop)) = false ->
        PyStr.contains "number" (PyStr.lower (PC.prop_type prop)) = false ->
        PyStr.any_in COLOR_HINTS (PyStr.lower (PC.prop_name prop)) = true ->
        GS._infer_control_type prop = Some "{ control: 'color' }").
  { intros prop Hb Hn Hc. unfold GS._infer_control_type. cbv zeta.
    unfold COLOR_HINTS in Hc. by rewrite Hb, Hn, Hc. }
  split; [|exact Hgen].
  intros r d desc.
  assert (E : GS._infer_control_type (PC.mkPropDefinition "backgroundColor" "string" r d desc)
              = Some "{ control: 'color' }")
    by (apply Hgen; vm_compute; reflexivity).
  rewrite E. split; [done | discriminate].
Qed.

Lemma color_hint_gives_color_control_witness :
  GS._infer_control_type (PC.PropDefinition3 "fillOpacityLabel" "string | undefined" false)
  = Some "{ control: 'color' }".
Proof.
  apply (proj2 color_hint_gives_color_control); vm_compute; reflexivity.
Defined.

(** A string prop that no earlier rule catches gets the text control. *)
Example label_gets_text_control :
  GS._infer_control_type (PC.PropDefinition3 "label" "string" true)
  = Some "{ control: 'text' }".
Proof. vm_compute. reflexivity. Qed.

(* --------------------------------------------------------------------- *)
(** *** Writing the story file *)
(* --------------------------------------------------------------------- *)

Section WriteFacts.

Variable re_compile : string -> outcome regex.
Variable TEMPLATE_DIR : string.

Lemma path_exists_absent (path : string) (w : World) :
  path_absent path w -> path_exists path w = (Val false, w).
Proof.
  intros [Hf Hd]. unfold path_exists.
  rewrite Hf, bool_decide_false by (by intros [? ?]).
  by rewrite bool_decide_false.
Qed.

(** When neither template is there, [_generate_story_content] reports it
    on the error stream and returns the empty text. *)
Lemma generate_story_content_without_template
      (md : PC.ComponentMetadata) (variants : list Variant) (level : string) (w : World) :
  let basic := TEMPLATE_DIR +:+ "/" +:+ PC.framework md +:+ "-basic.template" in
  let specific := TEMPLATE_DIR +:+ "/" +:+ PC.framework md +:+ "-" +:+ level +:+ ".template" in
  path_absent specific w -> path_absent basic w ->
  GS._generate_story_content TEMPLATE_DIR md variants level w
  = (Val EmptyString, with_stderr w ("Template not found: " +:+ basic)).
Proof.
  intros basic specific Hs Hb. subst basic specific.
  unfold GS._generate_story_content, mbind, IO_bind. cbv zeta.
  rewrite (path_exists_absent _ _ Hs). cbv iota beta.
  rewrite (path_exists_absent _ _ Hb). reflexivity.
Qed.

(** [generate_story] with an output path then goes on and writes that
    empty text to the output path. *)
Lemma generate_story_without_template
      (component_path level out : string) (w : World) (md : PC.ComponentMetadata) :
  let basic := TEMPLATE_DIR +:+ "/" +:+ PC.framework md +:+ "-basic.template" in
  let specific := TEMPLATE_DIR +:+ "/" +:+ PC.framework md +:+ "-" +:+ level +:+ ".template" in
  PC.parse_component re_compile component_path w = (Val (Some md), w) ->
  path_absent specific w -> path_absent basic w ->
  PyStr.truthy out = true ->
  GS.generate_story re_compile TEMPLATE_DIR component_path level (Some out) w
  = (Val (Some EmptyString),
     mkWorld (<[out := EmptyString]> (files w))
             (dirs w ∪ list_to_set (ancestors_go EmptyString (path_parent out)))
             (stdout w ++ [GS.story_generated out])
             (stderr w ++ ["Template not found: " +:+ basic])).
Proof.
  intros basic specific Hparse Hs Hb Hout.
  unfold GS.generate_story, mbind, IO_bind. rewrite Hparse.
  fold (@mbind IO _).
  pose proof (generate_story_content_without_template
                md (detect_variants (GS._metadata_to_dict md)) level w Hs Hb) as Hc.
  cbv zeta in Hc. unfold mbind, IO_bind. rewrite Hc, Hout. reflexivity.
Qed.

End WriteFacts.

(** C2 fails on the code.  With a component that parses, no template at
    all and an output path, [generate_story] reports the missing template
    and then creates the output file all the same, with empty content, and
    prints that the story was generated. *)
Theorem generate_story_writes_without_template :
  let out := "stories/Button.stories.tsx" in
  let run := GS.generate_story re_rejects "templates" "src/Button.tsx" "full"
                               (Some out) example_world in
  files example_world !! out = None
  ∧ run.1 = Val (Some EmptyString)
  ∧ stderr run.2 = ["Template not found: templates/react-basic.template"]
  ∧ files run.2 !! out = Some EmptyString
  ∧ stdout run.2 = [GS.story_generated out].
Proof.
  intros out run.
  repeat split; vm_compute; reflexivity.
Qed.

(** C3 fails on the code.  The size pass has no step that collapses a
    family of literals: it appends a variant for every small-ish and
    every large-ish literal it meets.  For a component whose size prop has
    the type 'xs' | 'sm' | 'md' | 'lg' | 'xl' it returns two variants named
    Small and two named Large (in the order of the union, md skipped)
    where the claim has one of each, and the story module generated from
    the detected variants declares the export Small twice and the export
    Large twice. *)
Theorem size_pass_repeats_names :
  let props := [mkPropDict "size" "'xs' | 'sm' | 'md' | 'lg' | 'xl'" false None] in
  let md := GS._metadata_to_dict avatar_metadata in
  let stories := GS._generate_variant_stories avatar_metadata (detect_variants md) in
  PC.parse_component re_rejects "src/Avatar.tsx" avatar_world
  = (Val (Some avatar_metadata), avatar_world)
  ∧ md_props md = Some props
  ∧ _detect_size_variants props
    = [mkVariant "Small" "Small size variant" [("size", PStr "xs")] 2;
       mkVariant "Small" "Small size variant" [("size", PStr "sm")] 2;
       mkVariant "Large" "Large size variant" [("size", PStr "lg")] 2;
       mkVariant "Large" "Large size variant" [("size", PStr "xl")] 2]
  ∧ ¬ size_pass_collapses props
  ∧ name <$> detect_variants md
    = ["Xs"; "Sm"; "Md"; "Lg"; "Xl"; "Small"; "Small"; "Large"; "Large"]
  ∧ occurrences "export const Small:" stories = 2%nat
  ∧ occurrences "export const Large:" stories = 2%nat.
Proof.
  intros props md stories.
  split; [vm_compute; reflexivity|].
  split; [vm_compute; reflexivity|].
  split; [vm_compute; reflexivity|].
  split.
  - intros [Hsmall _].
    rewrite (count_size_pass "Small" is_smallish props count_small_literals) in Hsmall.
    assert (Hn : size_literals is_smallish props = 2%nat) by (vm_compute; reflexivity).
    rewrite Hn in Hsmall. specialize (Hsmall ltac:(lia)). discriminate.
  - repeat split; vm_compute; reflexivity.
Qed.


(* ===================================================================== *)
(** ** The matcher against the texts a pattern matches *)
(* ===================================================================== *)

Section Strings.

Lemma sapp_cons (c : ascii) (s t : string) : String c s +:+ t = String c (s +:+ t).
Proof. reflexivity. Qed.

Lemma sapp_nil_l (s : string) : EmptyString +:+ s = s.
Proof. reflexivity. Qed.

Lemma sapp_nil_r (s : string) : s +:+ EmptyString = s.
Proof. induction s as [|c s IH]; [done|]. by rewrite sapp_cons, IH. Qed.

Lemma sapp_assoc (s t u : string) : (s +:+ t) +:+ u = s +:+ (t +:+ u).
Proof. induction s as [|c s IH]; [done|]. by rewrite !sapp_cons, IH. Qed.

Lemma sapp_length (s t : string) :
  String.length (s +:+ t) = (String.length s + String.length t)%nat.
Proof. induction s as [|c s IH]; [done|]. rewrite sapp_cons. simpl. by rewrite IH. Qed.

Lemma substring_0_app (t s : string) :
  String.substring 0 (String.length t) (t +:+ s) = t.
Proof. induction t as [|c t IH]; [by destruct s|]. rewrite sapp_cons. simpl. by rewrite IH. Qed.

Lemma consumed_app (t s : string) : consumed (t +:+ s) s = t.
Proof.
  unfold consumed. rewrite sapp_length.
  replace (String.length t + String.length s - String.length s)%nat
    with (String.length t) by lia.
  apply substring_0_app.
Qed.

Lemma strip_prefix_app (t s s' : string) :
  strip_prefix t s = Some s' -> s = t +:+ s'.
Proof.
  revert s. induction t as [|a t IH]; intros s; simpl.
  - by intros [= ->].
  - destruct s as [|b s]; [done|].
    destruct (Ascii.eqb a b) eqn:E; [|done].
    apply Ascii.eqb_eq in E as ->. intros H. rewrite sapp_cons. f_equal. by apply IH.
Qed.

Lemma strip_prefix_complete (t s : string) : strip_prefix t (t +:+ s) = Some s.
Proof.
  induction t as [|a t IH]; [done|]. rewrite sapp_cons. simpl.
  by rewrite Ascii.eqb_refl.
Qed.

Lemma prefix_app (t s : string) : String.prefix t (t +:+ s) = true.
Proof.
  induction t as [|a t IH]; [by destruct s|]. rewrite sapp_cons. simpl.
  destruct (ascii_dec a a); [exact IH | done].
Qed.

Lemma prefix_split (t s : string) :
  String.prefix t s = true -> ∃ s', s = t +:+ s'.
Proof.
  revert s. induction t as [|a t IH]; intros s; [by exists s|].
  destruct s as [|b s]; simpl; [done|].
  destruct (ascii_dec a b) as [->|]; [|done].
  intros H. destruct (IH s H) as [s' ->]. by exists s'.
Qed.

Lemma contains_prefix (sub s : string) :
  String.prefix sub s = true -> PyStr.contains sub s = true.
Proof. intros H. destruct s; cbn [PyStr.contains]; by rewrite H. Qed.

(** [sub in s] says that [s] has [sub] somewhere inside. *)
Lemma contains_app (sub pre post : string) :
  PyStr.contains sub (pre +:+ sub +:+ post) = true.
Proof.
  induction pre as [|c pre IH].
  - rewrite sapp_nil_l. apply contains_prefix, prefix_app.
  - rewrite sapp_cons. cbn [PyStr.contains]. rewrite IH. apply orb_true_r.
Qed.

Lemma contains_split (sub s : string) :
  PyStr.contains sub s = true -> ∃ pre post, s = pre +:+ sub +:+ post.
Proof.
  induction s as [|c s IH]; cbn [PyStr.contains].
  - rewrite orb_false_r. intros H. apply prefix_split in H as [s' H].
    exists EmptyString, s'. by rewrite sapp_nil_l.
  - intros [H|H]%orb_true_iff.
    + apply prefix_split in H as [s' H]. exists EmptyString, s'. by rewrite sapp_nil_l.
    + destruct (IH H) as (pre & post & ->). exists (String c pre), post.
      by rewrite sapp_cons.
Qed.

Lemma str_all_app (p : ascii -> bool) (s t : string) :
  str_all p (s +:+ t) = str_all p s && str_all p t.
Proof.
  induction s as [|c s IH]; [done|]. rewrite sapp_cons. simpl.
  by rewrite IH, andb_assoc.
Qed.

End Strings.

Section Matcher.

Context {R : Type}.

Lemma star_sound (p : ascii -> bool) (s : string) (k : string -> option R) (x : R) :
  star p s k = Some x ->
  ∃ t s', s = t +:+ s' ∧ str_all p t = true ∧ k s' = Some x.
Proof.
  induction s as [|c s IH]; simpl.
  - intros H. by exists EmptyString, EmptyString.
  - destruct (p c) eqn:Ec.
    + destruct (star p s k) as [y|] eqn:Es.
      * intros [= ->]. destruct (IH eq_refl) as (t & s' & -> & Ht & Hk).
        exists (String c t), s'. simpl. by rewrite Ec, Ht.
      * intros H. by exists EmptyString, (String c s).
    + intros H. by exists EmptyString, (String c s).
Qed.

Lemma star_complete (p : ascii -> bool) (t s' : string) (k : string -> option R) :
  str_all p t = true -> is_Some (k s') -> is_Some (star p (t +:+ s') k).
Proof.
  intros Ht Hk. induction t as [|c t IH].
  - rewrite sapp_nil_l. destruct s' as [|c s']; simpl; [done|].
    destruct (p c); [|done]. by destruct (star p s' k).
  - rewrite sapp_cons. simpl in Ht. apply andb_true_iff in Ht as [Hc Ht].
    destruct (IH Ht) as [y Hy]. cbn [star]. by rewrite Hc, Hy.
Qed.

(** Soundness: a successful run matched a text of the pattern, went on
    with the rest, and bound groups only as the pattern allows. *)
Lemma rmatch_sound (r : regex) :
  ∀ (s : string) (g : groups) (k : string -> groups -> option R) (x : R),
    rmatch r s g k = Some x ->
    ∃ t s' new, s = t +:+ s' ∧ match_of r new t ∧ k s' (new ++ g) = Some x.
Proof.
  unfold match_of.
  induction r as [u|p|p|p|a IHa b IHb|a IHa b IHb|a IHa|n a IHa];
    intros s g k x; simpl.
  - destruct (strip_prefix u s) as [s'|] eqn:E; [|done].
    intros H. apply strip_prefix_app in E.
    exists u, s', []. by repeat split.
  - destruct s as [|c s]; [done|]. destruct (p c) eqn:Ec; [|done].
    intros H. exists (String c EmptyString), s, []. repeat split; try done.
    by exists c.
  - intros H. apply star_sound in H as (t & s' & -> & Ht & Hk).
    exists t, s', []. by repeat split.
  - destruct s as [|c s]; [done|]. destruct (p c) eqn:Ec; [|done].
    intros H. apply star_sound in H as (t & s' & -> & Ht & Hk).
    exists (String c t), s', []. repeat split; try done.
    simpl. by rewrite Ec, Ht.
  - intros H. apply IHa in H as (t1 & s1 & n1 & -> & (L1 & C1 & B1) & H).
    apply IHb in H as (t2 & s2 & n2 & -> & (L2 & C2 & B2) & H).
    exists (t1 +:+ t2), s2, (n2 ++ n1).
    split; [by rewrite sapp_assoc|]. split; [|by rewrite <- app_assoc].
    split; [by exists t1, t2|]. split.
    + apply Forall_app. split; (eapply Forall_impl; [eassumption|]); simpl; auto.
    + intros n [Hn|Hn]%orb_true_iff.
      * destruct (B1 n Hn) as [u Hu]. clear -Hu.
        induction n2 as [|[m v] n2 IH]; simpl; [by eauto|].
        destruct (Nat.eqb m n); by eauto.
      * destruct (B2 n Hn) as [u Hu]. clear -Hu.
        induction n2 as [|[m v] n2 IH]; simpl in *; [done|].
        destruct (Nat.eqb m n); by eauto.
  - destruct (rmatch a s g k) as [y|] eqn:E.
    + intros [= ->]. apply IHa in E as (t & s' & new & -> & (L & C & B) & H).
      exists t, s', new. repeat split; try done; [by left| |].
      * eapply Forall_impl; [eassumption|]; simpl; auto.
      * intros n [Hn _]%andb_true_iff. by apply B.
    + intros H. apply IHb in H as (t & s' & new & -> & (L & C & B) & H).
      exists t, s', new. repeat split; try done; [by right| |].
      * eapply Forall_impl; [eassumption|]; simpl; auto.
      * intros n [_ Hn]%andb_true_iff. by apply B.
  - destruct (rmatch a s g k) as [y|] eqn:E.
    + intros [= ->]. apply IHa in E as (t & s' & new & -> & (L & C & B) & H).
      exists t, s', new. repeat split; try done. by left.
    + intros H. exists EmptyString, s, []. repeat split; try done. by right.
  - intros H. apply IHa in H as (t & s' & new & -> & (L & C & B) & H).
    rewrite consumed_app in H.
    exists t, s', ((n, t) :: new). repeat split; try done.
    + constructor; [by left|].
      eapply Forall_impl; [eassumption|]; simpl; auto.
    + intros m Hm. simpl. destruct (Nat.eqb n m) eqn:E; [by eauto|].
      simpl in Hm. by apply B.
Qed.

(** Completeness: where a text of the pattern stands and the rest of the
    pattern can go on whatever the groups, the run succeeds. *)
Lemma rmatch_complete (r : regex) :
  ∀ (t s' : string) (g : groups) (k : string -> groups -> option R),
    lang r t -> (∀ g', is_Some (k s' g')) -> is_Some (rmatch r (t +:+ s') g k).
Proof.
  induction r as [u|p|p|p|a IHa b IHb|a IHa b IHb|a IHa|n a IHa];
    intros t s' g k; simpl.
  - intros -> Hk. by rewrite strip_prefix_complete.
  - intros (c & -> & Hc) Hk. rewrite sapp_cons, sapp_nil_l, Hc. apply Hk.
  - intros Ht Hk. by apply star_complete.
  - intros [Hne Ht] Hk. destruct t as [|c t]; [done|].
    rewrite sapp_cons. simpl in Ht. apply andb_true_iff in Ht as [-> Ht].
    by apply star_complete.
  - intros (t1 & t2 & -> & L1 & L2) Hk. rewrite sapp_assoc.
    apply IHa; [done|]. intros g'. by apply IHb.
  - intros [L|L] Hk.
    + destruct (IHa t s' g k L Hk) as [y ->]. by eauto.
    + destruct (rmatch a (t +:+ s') g k); [by eauto|]. by apply IHb.
  - intros [L| ->] Hk.
    + destruct (IHa t s' g k L Hk) as [y ->]. by eauto.
    + rewrite sapp_nil_l. destruct (rmatch a s' g k); [by eauto|]. apply Hk.
  - intros L Hk. apply IHa; [done|]. intros g'. apply Hk.
Qed.

End Matcher.

Section Search.

Lemma match_here_sound (r : regex) (s s' : string) (g : groups) :
  match_here r s = Some (s', g) -> ∃ t, s = t +:+ s' ∧ match_of r g t.
Proof.
  unfold match_here. intros H.
  apply rmatch_sound in H as (t & s1 & new & -> & Hm & [= -> <-]).
  exists t. by rewrite app_nil_r.
Qed.

Lemma search_rest_sound (r : regex) (s s' : string) (g : groups) :
  search_rest r s = Some (s', g) ->
  ∃ pre t, s = pre +:+ t +:+ s' ∧ match_of r g t.
Proof.
  induction s as [|c s IH]; simpl.
  - destruct (match_here r EmptyString) as [[s1 g1]|] eqn:E; [|done].
    intros [= -> ->]. apply match_here_sound in E as (t & E & Hm).
    by exists EmptyString, t.
  - destruct (match_here r (String c s)) as [[s1 g1]|] eqn:E.
    + intros [= -> ->]. apply match_here_sound in E as (t & E & Hm).
      by exists EmptyString, t.
    + intros H. destruct (IH H) as (pre & t & -> & Hm).
      by exists (String c pre), t.
Qed.

Lemma search_rest_complete (r : regex) (pre t post : string) :
  lang r t -> is_Some (search_rest r (pre +:+ t +:+ post)).
Proof.
  intros L. induction pre as [|c pre IH].
  - rewrite sapp_nil_l.
    assert (H : is_Some (match_here r (t +:+ post)))
      by (apply rmatch_complete; [done | by eauto]).
    destruct H as [m H]. destruct (t +:+ post); simpl; rewrite H; by eauto.
  - rewrite sapp_cons. simpl. destruct (match_here r _); [by eauto | exact IH].
Qed.

Lemma search_sound (r : regex) (s : string) (g : groups) :
  search r s = Some g -> ∃ pre t post, s = pre +:+ t +:+ post ∧ match_of r g t.
Proof.
  unfold search. destruct (search_rest r s) as [[s' g']|] eqn:E; [|done].
  intros [= <-]. apply search_rest_sound in E as (pre & t & -> & Hm). by eauto.
Qed.

Lemma search_complete (r : regex) (pre t post : string) :
  lang r t -> is_Some (search r (pre +:+ t +:+ post)).
Proof.
  intros L. unfold search.
  destruct (search_rest_complete r pre t post L) as [m ->]. by eauto.
Qed.

(** Every match [finditer] reports is a match of the pattern somewhere in
    the text. *)
Lemma finditer_go_sound (r : regex) (fuel : nat) :
  ∀ (s : string) (g : groups),
    g ∈ finditer_go fuel r s ->
    ∃ pre t post, s = pre +:+ t +:+ post ∧ match_of r g t.
Proof.
  induction fuel as [|fuel IH]; intros s g; simpl.
  - by intros H%not_elem_of_nil.
  - destruct (search_rest r s) as [[s' g']|] eqn:E; [|by intros H%not_elem_of_nil].
    apply search_rest_sound in E as (pre & t & -> & Hm).
    intros [->|H]%elem_of_cons; [by eauto|].
    destruct (_ <? _)%nat.
    + apply IH in H as (pre' & t' & post' & -> & Hm').
      exists (pre +:+ t +:+ pre'), t', post'. by rewrite !sapp_assoc.
    + destruct s' as [|c s']; [by apply not_elem_of_nil in H|].
      apply IH in H as (pre' & t' & post' & -> & Hm').
      exists (pre +:+ t +:+ String c pre'), t', post'.
      by rewrite !sapp_assoc, !sapp_cons.
Qed.

Lemma finditer_sound (r : regex) (s : string) (g : groups) :
  g ∈ finditer r s -> ∃ pre t post, s = pre +:+ t +:+ post ∧ match_of r g t.
Proof. apply finditer_go_sound. Qed.

(** The text of a group is one its pattern allows. *)
Lemma group_captures (r : regex) (g : groups) (t : string) (n : nat) (u : string) :
  match_of r g t -> group g n = Some u -> captures r n u.
Proof.
  intros (_ & C & _). induction C as [|[m v] g Hc C IH]; simpl; [done|].
  destruct (Nat.eqb m n) eqn:E; [|exact IH].
  apply Nat.eqb_eq in E as ->. by intros [= <-].
Qed.

End Search.

(* ===================================================================== *)
(** ** Further properties of the variant detector *)
(* ===================================================================== *)

Section SortFacts.

Lemma insert_by_priority_sorted (v : Variant) (l : list Variant) :
  StronglySorted by_priority l -> StronglySorted by_priority (insert_by_priority v l).
Proof.
  induction 1 as [|w l Hs IH Hw]; simpl.
  - repeat constructor.
  - destruct (priority v <=? priority w) eqn:E.
    + apply Z.leb_le in E. constructor; [by constructor|].
      constructor; [done|]. eapply Forall_impl; [exact Hw|].
      unfold by_priority. intros x Hx. simpl in Hx. lia.
    + apply Z.leb_gt in E. constructor; [done|].
      rewrite insert_by_priority_perm. constructor; [|done].
      unfold by_priority. lia.
Qed.

Lemma sort_by_priority_sorted (l : list Variant) :
  StronglySorted by_priority (sort_by_priority l).
Proof.
  induction l as [|v l IH]; simpl; [constructor|].
  by apply insert_by_priority_sorted.
Qed.

Lemma insert_by_priority_stable (p : Z) (v : Variant) (l : list Variant) :
  of_priority p (insert_by_priority v l) = of_priority p (v :: l).
Proof.
  unfold of_priority. induction l as [|w l IH]; simpl; [done|].
  destruct (priority v <=? priority w) eqn:E; [done|].
  apply Z.leb_gt in E.
  rewrite (filter_cons _ w), IH, !filter_cons.
  repeat case_decide; try done; lia.
Qed.

Lemma sort_by_priority_stable (p : Z) (l : list Variant) :
  of_priority p (sort_by_priority l) = of_priority p l.
Proof.
  induction l as [|v l IH]; simpl; [done|].
  rewrite insert_by_priority_stable. unfold of_priority in *.
  by rewrite !filter_cons, IH.
Qed.

End SortFacts.

(** X1.  The variants come back in ascending priority, and variants of
    the same priority keep the order in which the passes emitted them. *)
Theorem detect_variants_sorted_stable (md : MetadataDict) :
  StronglySorted by_priority (detect_variants md)
  ∧ ∀ p, of_priority p (detect_variants md) = of_priority p (to_sort md).
Proof.
  unfold detect_variants, to_sort. split.
  - apply sort_by_priority_sorted.
  - intros p. rewrite sort_by_priority_stable. by destruct (detected md).
Qed.

Section PassFacts.

(** A property of the fallback and of everything the passes emit holds
    for everything [detect_variants] returns. *)
Lemma detect_variants_Forall (P : Variant -> Prop) (md : MetadataDict) :
  P default_variant -> Forall P (detected md) -> Forall P (detect_variants md).
Proof.
  intros Hd Hp. rewrite detect_variants_perm.
  destruct (detected md); [by repeat constructor | done].
Qed.

Lemma detected_Forall (P : Variant -> Prop) (md : MetadataDict) :
  (∀ prop, Forall P (enum_variants_of prop)) ->
  (∀ prop, Forall P (size_variants_of prop)) ->
  (∀ prop, Forall P (state_variants_of prop)) ->
  (∀ ct props, Forall P (_detect_type_specific_variants ct props)) ->
  Forall P (detected md).
Proof.
  intros He Hz Hs Ht.
  unfold detected, _detect_enum_variants, _detect_size_variants,
    _detect_state_variants.
  repeat (apply Forall_app; split); try by apply Forall_concat_fmap.
  apply Ht.
Qed.

(** The variants of pass 4 are constants of the script. *)
Lemma type_specific_Forall (P : Variant -> Prop) (ct : string) (props : list PropDict) :
  P (mkVariant "WithIcon" "Button with icon" [] 3) ->
  P (mkVariant "WithError" "Input with error state"
               [("error", PStr "This field is required")] 2) ->
  P (mkVariant "Open" "Modal in open state" [("isOpen", PBool true)] 1) ->
  P (mkVariant "WithData" "Table with sample data" [] 1) ->
  P (mkVariant "Empty" "Table with no data" [] 2) ->
  Forall P (_detect_type_specific_variants ct props).
Proof.
  intros. unfold _detect_type_specific_variants.
  repeat match goal with
         | |- context [if ?b then _ else _] => destruct b
         end;
    repeat (apply Forall_cons; split; [done|]); apply Forall_nil_2.
Qed.

Lemma size_variants_of_Forall (P : Variant -> Prop) (prop : PropDict) :
  (∀ value, is_size_name (pd_name prop) = true ->
            P (mkVariant "Small" "Small size variant" [(pd_name prop, PStr value)] 2)
            ∧ P (mkVariant "Large" "Large size variant" [(pd_name prop, PStr value)] 2)) ->
  Forall P (size_variants_of prop).
Proof.
  intros H. unfold size_variants_of.
  destruct (is_size_name _) eqn:E; [|constructor].
  apply Forall_concat_fmap. intros v. unfold size_variant_of.
  destruct (H v eq_refl) as [Hs Hl].
  destruct (is_smallish v); [|destruct (is_largeish v)];
    repeat (apply Forall_cons; split; [done|]); apply Forall_nil_2.
Qed.

(** What pass 1 emits for a prop: the prop is a key of the table, the
    literal is one the table admits for it. *)
Lemma enum_variants_of_Forall (P : Variant -> Prop) (prop : PropDict) :
  (∀ expected value,
      dict_get VARIANT_PATTERNS (pd_name prop) = Some expected ->
      value ∈ expected ->
      value ∈ _parse_union_type (pd_type prop) ->
      P (mkVariant (PyStr.capitalize value) (pd_name prop +:+ ": " +:+ value)
                   [(pd_name prop, PStr value)] 1)) ->
  Forall P (enum_variants_of prop).
Proof.
  intros H. unfold enum_variants_of.
  destruct (dict_get VARIANT_PATTERNS (pd_name prop)) as [ev|] eqn:E; [|constructor].
  pose proof E as E'. apply dict_get_In in E'.
  pose proof VARIANT_PATTERNS_rows as Hrows.
  rewrite forallb_forall in Hrows.
  apply list_elem_of_In, Hrows in E'. unfold table_row_ok in E'. simpl in E'.
  apply Forall_fmap, Forall_forall. intros value Hv.
  apply list_elem_of_filter in Hv as [Hc Hin]. simpl.
  apply (H ev); [done| |done].
  destruct ev as [|e ev]; [done|]. by apply mem_true.
Qed.

Lemma state_variants_of_Forall (P : Variant -> Prop) (prop : PropDict) :
  (PyStr.mem (PyStr.lower (pd_name prop)) STATE_PROPS = true ->
   P (mkVariant (PyStr.capitalize (pd_name prop)) (pd_name prop +:+ " state")
                [(pd_name prop, PBool true)] 2)) ->
  Forall P (state_variants_of prop).
Proof.
  intros H. unfold state_variants_of.
  destruct (PyStr.contains _ _); [|constructor].
  destruct (PyStr.mem _ STATE_PROPS) eqn:E; [|constructor].
  apply Forall_cons; split; [by apply H | apply Forall_nil_2].
Qed.

Lemma detect_variants_sorted (md : MetadataDict) :
  StronglySorted by_priority (detect_variants md).
Proof. apply sort_by_priority_sorted. Qed.

Lemma detect_variants_fallback (md : MetadataDict) :
  detected md = [] -> detect_variants md = [default_variant].
Proof.
  intros E. pose proof (detect_variants_perm md) as Hp. rewrite E in Hp.
  by apply Permutation_singleton_r in Hp.
Qed.

Lemma detect_variants_not_nil (md : MetadataDict) : detect_variants md ≠ [].
Proof.
  intros E. pose proof (detect_variants_perm md) as Hp. rewrite E in Hp.
  apply Permutation_nil_l in Hp. by destruct (detected md).
Qed.

End PassFacts.

(** X2.  Without props (an empty list, or no props key at all) and for a
    component type other than modal and table, the result is exactly the
    fallback variant. *)
Theorem detect_variants_no_props
        (nm : string) (ct : option string) (props : option (list PropDict)) :
  default [] props = [] ->
  default "other" ct ≠ "modal" ->
  default "other" ct ≠ "table" ->
  detect_variants (mkMetadataDict nm ct props) = [default_variant].
Proof.
  intros Hp Hm Ht.
  apply detect_variants_fallback.
  unfold detected. simpl. rewrite Hp. simpl.
  unfold _detect_type_specific_variants. simpl.
  apply String.eqb_neq in Hm, Ht. rewrite Hm, Ht.
  by repeat destruct (String.eqb _ _).
Qed.

Lemma detect_variants_no_props_witness :
  detect_variants (mkMetadataDict "Button" (Some "button") (Some []))
  = [default_variant].
Proof.
  apply detect_variants_no_props; [reflexivity | discriminate | discriminate].
Defined.

(** X3.  A table-classified component always gets WithData and Empty,
    whatever its props, and WithData comes before Empty in the result. *)
Theorem detect_variants_table (nm : string) (props : option (list PropDict)) :
  ∃ l1 l2 l3,
    detect_variants (mkMetadataDict nm (Some "table") props)
    = l1 ++ mkVariant "WithData" "Table with sample data" [] 1
         :: l2 ++ mkVariant "Empty" "Table with no data" [] 2 :: l3.
Proof.
  set (md := mkMetadataDict nm (Some "table") props).
  set (wd := mkVariant "WithData" "Table with sample data" [] 1).
  set (em := mkVariant "Empty" "Table with no data" [] 2).
  assert (Hin : wd ∈ detect_variants md ∧ em ∈ detect_variants md).
  { rewrite detect_variants_perm.
    assert (H : wd ∈ detected md ∧ em ∈ detected md).
    { unfold detected. rewrite !elem_of_app. simpl.
      split; do 3 right; [left | right; left]. }
    destruct (detected md); [by destruct H as [H%not_elem_of_nil _] | done]. }
  destruct Hin as [Hw He].
  pose proof (detect_variants_sorted md) as Hs.
  apply list_elem_of_split in Hw as (l1 & l2 & E). rewrite E in He, Hs |- *.
  exists l1. apply elem_of_app in He as [He|He].
  - exfalso.
    assert (Hc : by_priority em wd)
      by (eapply StronglySorted_app_1_elem_of; [exact Hs | exact He | left]).
    unfold by_priority in Hc. simpl in Hc. lia.
  - apply elem_of_cons in He as [He|He]; [discriminate|].
    apply list_elem_of_split in He as (a & b & ->). by exists a, b.
Qed.

Section ArgsFacts.

Lemma eqb_children_key (key : string) (f : string -> bool) :
  f "children" = false -> f key = true -> String.eqb "children" key = false.
Proof.
  intros Hc Hk. apply String.eqb_neq. intros E. rewrite <- E in Hk. congruence.
Qed.

Lemma has_key_singleton (key k : string) (v : pyval) :
  GS.has_key key [(k, v)] = String.eqb key k.
Proof. unfold GS.has_key. cbn [existsb fst]. apply orb_false_r. Qed.

End ArgsFacts.

(** The args of every variant: at most one entry, and no children key. *)
Lemma variants_args_shape (md : MetadataDict) :
  Forall (fun v => (length (args v) <= 1)%nat
                   ∧ GS.has_key "children" (args v) = false)
         (detect_variants md).
Proof.
  apply detect_variants_Forall; [by split; simpl; lia|].
  apply detected_Forall.
  - intros prop. apply enum_variants_of_Forall. intros ev value Hg _ _.
    cbn [args]. rewrite has_key_singleton. split; [simpl; lia|].
    apply String.eqb_neq. intros E. rewrite <- E in Hg. vm_compute in Hg.
    discriminate.
  - intros prop. apply size_variants_of_Forall. intros value Hz.
    cbn [args]. rewrite !has_key_singleton.
    rewrite (eqb_children_key _ is_size_name) by done.
    repeat split; simpl; lia.
  - intros prop. apply state_variants_of_Forall. intros Hm.
    cbn [args]. rewrite has_key_singleton. split; [simpl; lia|].
    by apply (eqb_children_key _ (fun n => PyStr.mem (PyStr.lower n) STATE_PROPS)).
  - intros ct props. apply type_specific_Forall; by split; simpl; try lia.
Qed.

(** X4.  Every variant sets at most one prop, and never the children
    prop: the story generator therefore adds its children line to every
    story of a component that has children. *)
Theorem detect_variants_args (md : MetadataDict) :
  Forall (fun v => (length (args v) <= 1)%nat
                   ∧ GS.has_key "children" (args v) = false)
         (detect_variants md).
Proof. apply variants_args_shape. Qed.

Section NameFacts.

Lemma upper_of_lower_letter (c : ascii) :
  PyStr.is_lower (PyStr.lower_char c) = true ->
  PyStr.is_upper (PyStr.upper_char c) = true.
Proof. destruct c as [[] [] [] [] [] [] [] []]; vm_compute; done. Qed.

Lemma lower_word_letters (s : string) :
  str_all PyStr.is_lower s = true -> str_all is_letter s = true.
Proof.
  induction s as [|c s IH]; simpl; [done|].
  intros [Hc Hs]%andb_true_iff. unfold is_letter at 1.
  by rewrite Hc, orb_true_r, IH.
Qed.

(** Capitalising a text whose lower-cased form is a word of lower-case
    letters gives an identifier. *)
Lemma capitalize_identifier (s : string) :
  is_lower_word (PyStr.lower s) = true ->
  is_story_identifier (PyStr.capitalize s) = true.
Proof.
  destruct s as [|c s]; simpl; [done|].
  intros [Hc Hs]%andb_true_iff.
  by rewrite (upper_of_lower_letter c Hc), (lower_word_letters _ Hs).
Qed.

Lemma lower_words_mem (x : string) (l : list string) :
  forallb is_lower_word l = true -> PyStr.mem x l = true -> is_lower_word x = true.
Proof.
  rewrite forallb_forall, mem_true, list_elem_of_In. intros H Hx. by apply H.
Qed.

Lemma lower_of_lower_word (s : string) :
  str_all PyStr.is_lower s = true -> PyStr.lower s = s.
Proof.
  induction s as [|c s IH]; simpl; [done|].
  intros [Hc Hs]%andb_true_iff. rewrite (IH Hs). f_equal.
  revert Hc. destruct c as [[] [] [] [] [] [] [] []]; vm_compute; done.
Qed.

End NameFacts.

(** X5.  Every variant name is an identifier: an upper-case letter
    followed by letters. *)
Theorem detect_variants_names (md : MetadataDict) :
  Forall (fun v => is_story_identifier (name v) = true) (detect_variants md).
Proof.
  apply detect_variants_Forall; [reflexivity|].
  apply detected_Forall.
  - intros prop. apply enum_variants_of_Forall. intros ev value Hg Hin _. simpl.
    apply capitalize_identifier.
    assert (Hw : is_lower_word value = true).
    { apply dict_get_In in Hg.
      assert (Hrows : forallb (fun row => forallb is_lower_word row.2)
                              VARIANT_PATTERNS = true) by (vm_compute; reflexivity).
      rewrite forallb_forall in Hrows. apply list_elem_of_In, Hrows in Hg.
      simpl in Hg. apply (lower_words_mem value ev Hg). by apply mem_true. }
    rewrite lower_of_lower_word; [done|].
    by destruct value.
  - intros prop. apply size_variants_of_Forall. by intros value _.
  - intros prop. apply state_variants_of_Forall. intros Hm. simpl.
    apply capitalize_identifier.
    by apply (lower_words_mem _ STATE_PROPS).
  - intros ct props. by apply type_specific_Forall.
Qed.

Section UnionFacts.

(** A text without quote characters has no quoted literal. *)
Lemma no_quote_no_literal (type_str : string) :
  str_all (fun c => negb (is_quote c)) type_str = true ->
  findall1 quoted_literal type_str = [].
Proof.
  intros Hq. unfold findall1.
  destruct (finditer quoted_literal type_str) as [|g l] eqn:E; [done|].
  exfalso.
  assert (Hg : g ∈ finditer quoted_literal type_str) by (rewrite E; left).
  apply finditer_sound in Hg as (pre & t & post & -> & (L & _)).
  destruct L as (t1 & t2 & -> & (c & -> & Hc) & _).
  rewrite !str_all_app in Hq. simpl in Hq. rewrite Hc in Hq. simpl in Hq.
  by rewrite andb_false_r in Hq.
Qed.

End UnionFacts.

(** X6.  A prop whose type text has neither a quote character nor a
    vertical bar (string, number, boolean, a type name) is no union: the
    enum pass and the size pass emit nothing for it, whatever its name. *)
Theorem plain_type_no_union_variants (prop : PropDict) :
  str_all (fun c => negb (is_quote c)) (pd_type prop) = true ->
  PyStr.contains "|" (pd_type prop) = false ->
  _parse_union_type (pd_type prop) = []
  ∧ enum_variants_of prop = []
  ∧ size_variants_of prop = [].
Proof.
  intros Hq Hb.
  assert (E : _parse_union_type (pd_type prop) = []).
  { unfold _parse_union_type. by rewrite (no_quote_no_literal _ Hq), Hb. }
  split; [done|]. unfold enum_variants_of, size_variants_of. rewrite E.
  split.
  - by destruct (dict_get _ _).
  - by destruct (is_size_name _).
Qed.

Lemma plain_type_no_union_variants_witness :
  _parse_union_type "ButtonSize" = []
  ∧ enum_variants_of (mkPropDict "size" "ButtonSize" false None) = []
  ∧ size_variants_of (mkPropDict "size" "ButtonSize" false None) = [].
Proof.
  apply (plain_type_no_union_variants (mkPropDict "size" "ButtonSize" false None));
    vm_compute; reflexivity.
Defined.

(** X7.  [detect_variants_from_file] returns the empty list exactly when
    the file could not be parsed; for a parsed file it returns the
    variants of its metadata, which are never empty. *)
Theorem detect_variants_from_file_empty_iff
        (re_compile : string -> outcome regex) (file_path : string) (w : World) :
  ∃ md w' vs,
    PC.parse_component re_compile file_path w = (Val md, w')
    ∧ EP.detect_variants_from_file re_compile file_path w = (Val vs, w')
    ∧ (vs = [] <-> md = None)
    ∧ (∀ m, md = Some m -> vs = detect_variants (GS._metadata_to_dict m)).
Proof.
  unfold EP.detect_variants_from_file, mbind, IO_bind.
  pose proof (parse_component_by_strategy re_compile file_path) as Hd.
  assert (Hr : ∃ md w', PC.parse_component re_compile file_path w = (Val md, w')).
  { rewrite Hd. destruct (strategy_of_extension _) as [s|]; [|by eauto].
    apply run_strategy_returns. }
  destruct Hr as (md & w' & Hr). rewrite Hr.
  destruct md as [m|].
  - exists (Some m), w', (detect_variants (GS._metadata_to_dict m)).
    repeat split; try done.
    + intros E. exfalso. by apply (detect_variants_not_nil (GS._metadata_to_dict m)).
    + by intros m' [= <-].
  - exists None, w', []. by repeat split.
Qed.

Section LiteralFacts.

(** What [findall1] returns are the texts of group 1 of matches. *)
Lemma findall1_captures (r : regex) (s v : string) :
  binds r 1 = true -> v ∈ findall1 r s -> captures r 1 v.
Proof.
  intros Hb. unfold findall1. intros (g & -> & Hg)%list_elem_of_fmap.
  apply finditer_sound in Hg as (pre & t & post & _ & Hm).
  destruct (proj2 (proj2 Hm) 1%nat Hb) as [u Hu]. rewrite Hu. simpl.
  by eapply group_captures.
Qed.

Lemma quoted_literal_shape (type_str v : string) :
  v ∈ findall1 quoted_literal type_str ->
  PyStr.truthy v = true ∧ str_all (fun c => negb (is_quote c)) v = true.
Proof.
  intros H. apply findall1_captures in H; [|reflexivity].
  unfold quoted_literal in H. cbn [captures] in H.
  destruct H as [[]|[[[_ [Hne Hq]]|[]]|[]]]. split; [by destruct v | done].
Qed.

Lemma strip_parts_truthy (parts : list string) :
  Forall (fun v => PyStr.truthy v = true)
         (PyStr.strip <$> filter (fun p => PyStr.truthy (PyStr.strip p) = true) parts).
Proof.
  apply Forall_fmap, Forall_forall. intros p Hp.
  by apply list_elem_of_filter in Hp as [Hp _].
Qed.

End LiteralFacts.

(** X26.  The literals [_parse_union_type] returns are never empty, and
    those it takes from between quotes contain no quote character. *)
Theorem union_literals_shape (type_str : string) :
  Forall (fun v => PyStr.truthy v = true) (_parse_union_type type_str)
  ∧ Forall (fun v => str_all (fun c => negb (is_quote c)) v = true)
           (findall1 quoted_literal type_str).
Proof.
  split.
  - unfold _parse_union_type.
    destruct (findall1 quoted_literal type_str) as [|m ms] eqn:E.
    + destruct (PyStr.contains "|" type_str); [apply strip_parts_truthy | constructor].
    + rewrite <- E. apply Forall_forall. intros v Hv.
      by apply quoted_literal_shape in Hv as [Hv _].
  - apply Forall_forall. intros v Hv. by apply quoted_literal_shape in Hv as [_ Hv].
Qed.

(* ===================================================================== *)
(** ** Further properties of the parser *)
(* ===================================================================== *)

(** Splits the cases of a [captures] hypothesis. *)
Ltac split_captures H :=
  cbn [captures] in H;
  repeat match type of H with
         | _ ∨ _ => destruct H as [H|H]
         | False => destruct H
         | _ = _ ∧ _ => destruct H as [? H]
         end;
  try discriminate.

Section NameShape.

(** The group of a successful [search] holds a text its pattern allows. *)
Lemma search_group1_captures (r : regex) (content n : string) :
  PC.search_group1 r content = Some n -> captures r 1 n.
Proof.
  unfold PC.search_group1. destruct (search r content) as [g|] eqn:E; [|done].
  simpl. intros Hg. apply search_sound in E as (pre & t & post & _ & Hm).
  by eapply group_captures.
Qed.

(** Where a pattern binds group 1, a successful [search] has it. *)
Lemma search_group1_is_Some (r : regex) (content : string) :
  binds r 1 = true -> is_Some (search r content) ->
  is_Some (PC.search_group1 r content).
Proof.
  intros Hb [g E]. unfold PC.search_group1. rewrite E. simpl.
  apply search_sound in E as (pre & t & post & _ & (_ & _ & B)). by apply B.
Qed.

Lemma lang_component_ident (n : string) :
  lang (Cls PyStr.is_upper ⋅ Star PyStr.is_word) n -> is_component_ident n = true.
Proof.
  intros (t1 & t2 & -> & (c & -> & Hc) & Hs). simpl in Hs.
  rewrite sapp_cons, sapp_nil_l. simpl. by rewrite Hc, Hs.
Qed.

(** The three name rules only ever give an identifier with an upper-case
    initial. *)
Lemma name_rule_ident (r : regex) (content n : string) :
  r ∈ NAME_RULES -> PC.search_group1 r content = Some n ->
  is_component_ident n = true.
Proof.
  intros Hr Hn. apply search_group1_captures in Hn.
  apply lang_component_ident.
  unfold NAME_RULES in Hr.
  repeat (apply elem_of_cons in Hr as [-> | Hr]);
    [| | |by apply not_elem_of_nil in Hr];
    unfold PC.function_pattern, PC.const_pattern, PC.export_pattern,
      PC.component_ident in Hn;
    split_captures Hn; exact Hn.
Qed.

Lemma component_ident_truthy (n : string) :
  is_component_ident n = true -> PyStr.truthy n = true.
Proof. by destruct n. Qed.

Lemma extract_component_name_shape (content file_path : string) :
  PC._extract_component_name content file_path = path_stem file_path
  ∨ is_component_ident (PC._extract_component_name content file_path) = true.
Proof.
  unfold PC._extract_component_name.
  destruct (PC.search_group1 PC.function_pattern content) as [n|] eqn:E1.
  { right. apply (name_rule_ident PC.function_pattern content n); [|done].
    unfold NAME_RULES. set_solver. }
  destruct (PC.search_group1 PC.const_pattern content) as [n|] eqn:E2.
  { right. apply (name_rule_ident PC.const_pattern content n); [|done].
    unfold NAME_RULES. set_solver. }
  destruct (PC.search_group1 PC.export_pattern content) as [n|] eqn:E3.
  { right. apply (name_rule_ident PC.export_pattern content n); [|done].
    unfold NAME_RULES. set_solver. }
  by left.
Qed.

Lemma extract_component_name_truthy (content file_path : string) :
  path_suffix file_path ≠ EmptyString ->
  PyStr.truthy (PC._extract_component_name content file_path) = true.
Proof.
  intros Hs. destruct (extract_component_name_shape content file_path) as [-> | H].
  - apply path_stem_nonempty in Hs. by destruct (path_stem file_path).
  - by apply component_ident_truthy.
Qed.

(** The export rule has the function rule inside it: where it finds a
    name, the function rule, which is tried first, finds one too. *)
Lemma export_rule_shadowed (content : string) :
  PC.search_group1 PC.function_pattern content = None ->
  PC.search_group1 PC.export_pattern content = None.
Proof.
  intros Hf.
  destruct (PC.search_group1 PC.export_pattern content) as [n|] eqn:He; [|done].
  exfalso.
  assert (Hs : is_Some (search PC.export_pattern content)).
  { unfold PC.search_group1 in He. by destruct (search PC.export_pattern content). }
  destruct Hs as [g Hs].
  apply search_sound in Hs as (pre & t & post & -> & (L & _)).
  destruct L as (t1 & t2 & -> & _ & L).
  destruct L as (t3 & t4 & -> & _ & L).
  destruct L as (t5 & t6 & -> & _ & L).
  assert (Hc : is_Some (search PC.function_pattern
                               ((pre +:+ t1 +:+ t3 +:+ t5) +:+ t6 +:+ post)))
    by (by apply search_complete).
  rewrite !sapp_assoc in Hc.
  apply (search_group1_is_Some PC.function_pattern _ eq_refl) in Hc.
  rewrite !sapp_assoc in Hf. rewrite Hf in Hc. by destruct Hc.
Qed.

End NameShape.

(** Closes a goal that asks for the result and the world of a run that
    has been computed. *)
Ltac report_done :=
  eexists _, _; split; [reflexivity|]; cbn; by eauto.

Section ParserWorld.

Variable re_compile : string -> outcome regex.

(** A run of the parser a path is dispatched to returns; with metadata
    it leaves the world as it is, without it adds one line to the error
    stream. *)
Lemma run_strategy_report (s : strategy) (file_path : string) (w : World) :
  strategy_of_extension (extension_of file_path) = Some s ->
  ∃ r w', run_strategy re_compile s file_path w = (Val r, w')
          ∧ match r with
            | Some _ => w' = w
            | None => ∃ line, w' = with_stderr w line
            end.
Proof.
  intros Hs. apply extension_nonempty in Hs.
  destruct s; simpl.
  - rewrite ReactTypeScriptParser_parse_cases.
    destruct (files w !! file_path); [|report_done].
    simpl. rewrite (extract_component_name_truthy _ _ Hs). simpl.
    destruct (PC.ReactTypeScriptParser_extract_props _ _ _); report_done.
  - rewrite VueParser_parse_cases. destruct (files w !! file_path); [|report_done].
    simpl. destruct (PC.VueParser_extract_props _); report_done.
  - rewrite SvelteParser_parse_cases. destruct (files w !! file_path); [|report_done].
    simpl. destruct (PC.SvelteParser_extract_props _); report_done.
Qed.

Lemma parse_component_report (file_path : string) (w : World) :
  ∃ r w', PC.parse_component re_compile file_path w = (Val r, w')
          ∧ match r with
            | Some _ => w' = w
            | None => ∃ line, w' = with_stderr w line
            end.
Proof.
  rewrite parse_component_by_strategy.
  destruct (strategy_of_extension _) as [s|] eqn:Hs; [by apply run_strategy_report|].
  report_done.
Qed.


End ParserWorld.


(* --------------------------------------------------------------------- *)
(** *** Opening a file that is not there *)
(* --------------------------------------------------------------------- *)

Section MissingFile.

Lemma ancestors_go_last (done rest : string) :
  last (ancestors_go done rest) = Some (done +:+ rest).
Proof.
  revert done. induction rest as [|c rest IH]; intros done.
  - simpl. by rewrite sapp_nil_r.
  - cbn [ancestors_go]. rewrite last_app, IH.
    by rewrite sapp_assoc.
Qed.

Lemma ancestors_go_self (path : string) :
  path ∈ ancestors_go EmptyString path.
Proof. apply last_Some_elem_of. by rewrite ancestors_go_last. Qed.

(** A walk that meets no name that is too long, no file, and no
    directory at its end finds nothing. *)
Lemma walk_error_not_found (w : World) (prefixes : list string) :
  forallb (fun a => plain_component (path_name a)) prefixes = true ->
  forallb (fun a => negb (bool_decide (is_Some (files w !! a)))) prefixes = true ->
  (∀ p, last prefixes = Some p -> p ∉ dirs w) ->
  walk_error w prefixes = ENOENT.
Proof.
  induction prefixes as [|p rest IH]; [done|].
  intros [Hp Hps]%andb_true_iff [Hf Hfs]%andb_true_iff Hlast.
  assert (Hlen : (NAME_MAX <? String.length (path_name p))%nat = false).
  { unfold plain_component in Hp. apply andb_true_iff in Hp as [_ Hp].
    apply Nat.leb_le in Hp. apply Nat.ltb_ge. exact Hp. }
  destruct rest as [|q rest].
  - cbn [walk_error]. rewrite Hlen.
    rewrite bool_decide_eq_false_2; [done|]. by apply Hlast.
  - change (walk_error w (p :: q :: rest))
      with (if (NAME_MAX <? String.length (path_name p))%nat then ENAMETOOLONG
            else if bool_decide (p ∈ dirs w) then walk_error w (q :: rest)
                 else if bool_decide (is_Some (files w !! p)) then ENOTDIR
                      else ENOENT).
    rewrite Hlen. destruct (bool_decide (p ∈ dirs w)).
    + apply IH; [exact Hps | exact Hfs | exact Hlast].
    + apply negb_true_iff in Hf. by rewrite Hf.
Qed.

Lemma open_error_not_found (path : string) (w : World) :
  plain_path path = true -> nothing_at path w = true ->
  files w !! path = None ∧ open_error path w = not_found path.
Proof.
  unfold plain_path, nothing_at.
  intros [[[_ Hnul]%andb_true_iff Hlen]%andb_true_iff Hnames]%andb_true_iff
         [Hdir Hfiles]%andb_true_iff.
  split.
  - pose proof (ancestors_go_self path) as Hin.
    rewrite forallb_forall in Hfiles.
    apply list_elem_of_In, Hfiles in Hin.
    apply negb_true_iff, bool_decide_eq_false in Hin.
    by apply eq_None_not_Some.
  - unfold open_error. apply negb_true_iff in Hnul. rewrite Hnul.
    apply Nat.ltb_lt in Hlen.
    destruct (Nat.leb_spec PATH_MAX (String.length path)) as [Hle|_]; [lia|].
    rewrite (walk_error_not_found w _ Hnames Hfiles); [done|].
    intros p. rewrite ancestors_go_last. intros [= <-].
    apply negb_true_iff, bool_decide_eq_false in Hdir. exact Hdir.
Qed.

End MissingFile.

(** X9.  Take a path of a supported type that is plain (ASCII, in normal
    form, within the limits of the system) with neither a file nor a
    directory at it and no file above it.  Then [parse_component] gives
    no metadata and prints one line on the error stream: Error parsing
    PATH: [Errno 2] No such file or directory: REPR, where REPR is the
    path as [repr] writes it. *)
Theorem parse_component_missing_file
        (re_compile : string -> outcome regex) (file_path : string) (w : World)
        (s : strategy) :
  strategy_of_extension (extension_of file_path) = Some s ->
  plain_path file_path = true ->
  nothing_at file_path w = true ->
  PC.parse_component re_compile file_path w
  = (Val None, with_stderr w (parse_error_line file_path (not_found file_path))).
Proof.
  intros Hs Hp Hn. rewrite parse_component_by_strategy, Hs.
  destruct (open_error_not_found file_path w Hp Hn) as [Hf He].
  destruct s; simpl;
    [rewrite ReactTypeScriptParser_parse_cases
    |rewrite VueParser_parse_cases
    |rewrite SvelteParser_parse_cases]; by rewrite Hf, He.
Qed.

Lemma parse_component_missing_file_witness :
  PC.parse_component re_rejects "src/Gone.jsx" example_world
  = (Val None,
     with_stderr example_world
       "Error parsing src/Gone.jsx: [Errno 2] No such file or directory: 'src/Gone.jsx'").
Proof.
  apply (parse_component_missing_file re_rejects "src/Gone.jsx" example_world React);
    vm_compute; reflexivity.
Defined.

(** The same for a name that holds a single quote, which [repr] writes
    between double quotes; and what is printed when a directory is at the
    path, or a file above it. *)
Example missing_file_quoted :
  (PC.parse_component re_rejects "src/it's.tsx" example_world).2
  = with_stderr example_world
      ("Error parsing src/it's.tsx: [Errno 2] No such file or directory: "
       +:+ String "034"%char ("src/it's.tsx" +:+ String "034"%char EmptyString)).
Proof. vm_compute. reflexivity. Qed.

Example directory_in_place_of_file :
  (PC.parse_component re_rejects "src/index.ts" (world_of [("src/index.ts/a.ts", "x")])).2
  = with_stderr (world_of [("src/index.ts/a.ts", "x")])
      "Error parsing src/index.ts: [Errno 21] Is a directory: 'src/index.ts'".
Proof. vm_compute. reflexivity. Qed.

Example file_in_place_of_directory :
  (PC.parse_component re_rejects "src/Button.tsx/index.ts" example_world).2
  = with_stderr example_world
      "Error parsing src/Button.tsx/index.ts: [Errno 20] Not a directory: 'src/Button.tsx/index.ts'".
Proof. vm_compute. reflexivity. Qed.

(** X10.  For .tsx, .jsx, .ts and .js files the export rule never decides
    the name: the name is what the function rule finds, else what the
    const rule finds, else the base name of the file. *)
Theorem export_rule_never_decides (content file_path : string) :
  PC._extract_component_name content file_path
  = default (path_stem file_path)
            (first_group1 [PC.function_pattern; PC.const_pattern] content).
Proof.
  unfold PC._extract_component_name. simpl.
  destruct (PC.search_group1 PC.function_pattern content) eqn:E1; [done|].
  destruct (PC.search_group1 PC.const_pattern content) eqn:E2; [done|].
  by rewrite (export_rule_shadowed content E1).
Qed.

(** X11.  The name of a React component is the base name of its file or
    an identifier found in its text: an upper-case letter followed by
    letters, digits and underscores. *)
Theorem react_name_shape
        (re_compile : string -> outcome regex) (file_path : string) (w w' : World)
        (md : PC.ComponentMetadata) :
  strategy_of_extension (extension_of file_path) = Some React ->
  PC.parse_component re_compile file_path w = (Val (Some md), w') ->
  PC.name md = path_stem file_path ∨ is_component_ident (PC.name md) = true.
Proof.
  intros Hs. rewrite parse_component_by_strategy, Hs. intros H.
  apply run_strategy_metadata in H as (content & _ & _ & _ & _ & -> & _).
  apply extract_component_name_shape.
Qed.

Lemma react_name_shape_witness :
  PC.parse_component re_rejects "src/Button.tsx" example_world
  = (Val (Some button_tsx_metadata), example_world)
  ∧ (PC.name button_tsx_metadata = path_stem "src/Button.tsx"
     ∨ is_component_ident (PC.name button_tsx_metadata) = true).
Proof.
  assert (H : PC.parse_component re_rejects "src/Button.tsx" example_world
              = (Val (Some button_tsx_metadata), example_world))
    by (vm_compute; reflexivity).
  split; [exact H|].
  exact (react_name_shape re_rejects "src/Button.tsx" example_world example_world
           button_tsx_metadata eq_refl H).
Defined.

(* --------------------------------------------------------------------- *)
(** *** Classification *)
(* --------------------------------------------------------------------- *)

Section Classify.

Lemma classify_rows_closed (rows : list (list string * string)) (s : string) :
  PC.classify_rows rows s ∈ (snd <$> rows) ++ ["other"].
Proof.
  induction rows as [|[terms category] rows IH]; simpl; [left|].
  destruct (PyStr.any_in terms s); [left | by right].
Qed.

(** A text that has datagrid inside has grid inside. *)
Lemma datagrid_has_grid (s : string) :
  PyStr.contains "datagrid" s = true -> PyStr.contains "grid" s = true.
Proof.
  intros (pre & post & ->)%contains_split.
  change "datagrid" with ("data" +:+ "grid").
  rewrite sapp_assoc, <- (sapp_assoc pre "data"). apply contains_app.
Qed.

End Classify.

(** X12.  The classification is one of the 23 categories of the table,
    and it depends on the name only up to the case of its letters: the
    props play no part. *)
Theorem classify_component_closed (nm : string) (ps : list PC.PropDefinition) :
  PC.classify_component nm ps ∈ CATEGORIES
  ∧ ∀ nm' ps', PyStr.lower nm' = PyStr.lower nm ->
               PC.classify_component nm' ps' = PC.classify_component nm ps.
Proof.
  split.
  - apply (classify_rows_closed PC.CLASSIFICATION).
  - intros nm' ps' E. unfold PC.classify_component. by rewrite E.
Qed.

(** X13.  A component is classified as a table only when its lower-cased
    name contains table.  The other keyword of that row, datagrid, never
    decides: a name with datagrid in it has grid in it, which an earlier
    row takes. *)
Theorem classify_table_only_by_table (nm : string) (ps : list PC.PropDefinition) :
  PC.classify_component nm ps = "table" ->
  PyStr.contains "table" (PyStr.lower nm) = true.
Proof.
  unfold PC.classify_component, PC.CLASSIFICATION.
  generalize (PyStr.lower nm). intros s. cbn [PC.classify_rows].
  repeat match goal with
         | |- context [if PyStr.any_in ?l s then _ else _] =>
             let E := fresh "E" in
             destruct (PyStr.any_in l s) eqn:E; [try discriminate|]
         end; try discriminate.
  intros _.
  match goal with
  | H : PyStr.any_in ["table"; "datagrid"] s = true |- _ => rename H into Ht
  end.
  match goal with
  | H : PyStr.any_in ["container"; "box"; "grid"] s = false |- _ => rename H into Hg
  end.
  unfold PyStr.any_in in Ht, Hg. cbn [existsb] in Ht, Hg.
  destruct (PyStr.contains "table" s); [done|].
  rewrite orb_false_l, orb_false_r in Ht. apply datagrid_has_grid in Ht.
  rewrite Ht in Hg. by rewrite !orb_true_r in Hg.
Qed.

Lemma classify_table_only_by_table_witness :
  PyStr.contains "table" (PyStr.lower "DataTable") = true.
Proof.
  apply (classify_table_only_by_table "DataTable" []). vm_compute. reflexivity.
Defined.

Example datagrid_is_layout : PC.classify_component "DataGrid" [] = "layout".
Proof. vm_compute. reflexivity. Qed.

(* --------------------------------------------------------------------- *)
(** *** Where the props come from *)
(* --------------------------------------------------------------------- *)

Section PropsBuilt.

Lemma mapM_outcome_Forall_in {A B} (f : A -> outcome B) (P : B -> Prop)
      (l : list A) (ps : list B) :
  (∀ x p, x ∈ l -> f x = Val p -> P p) -> mapM f l = Val ps -> Forall P ps.
Proof.
  revert ps. induction l as [|x l IH]; intros ps Hf; simpl.
  - intros [= <-]. constructor.
  - unfold mbind, outcome_bind, mret, outcome_ret.
    destruct (f x) as [p|] eqn:Ex; [|discriminate].
    destruct (mapM f l) as [ps'|] eqn:El; [|discriminate].
    intros [= <-]. constructor.
    + apply (Hf x); [left | done].
    + apply IH; [|done]. intros y q Hy. apply Hf. by right.
Qed.

Lemma mapM_prop_from (r : regex) (f : groups -> outcome PC.PropDefinition)
      (block : string) (ps : list PC.PropDefinition) :
  mapM f (finditer r block) = Val ps -> Forall (prop_from r f) ps.
Proof.
  apply mapM_outcome_Forall_in. intros g p Hg Hp. by exists block, g.
Qed.

Lemma react_props_built (re_compile : string -> outcome regex)
      (content nm : string) (ps : list PC.PropDefinition) :
  PC.ReactTypeScriptParser_extract_props re_compile content nm = Val ps ->
  Forall (built_by React) ps.
Proof.
  unfold PC.ReactTypeScriptParser_extract_props, mbind, outcome_bind.
  destruct (PC.find_props_block _ _ _) as [[g|]|]; try discriminate.
  - destruct (PC.group_text g 1); [|discriminate]. apply mapM_prop_from.
  - intros [= <-]. constructor.
Qed.

Lemma svelte_props_built (content : string) (ps : list PC.PropDefinition) :
  PC.SvelteParser_extract_props content = Val ps -> Forall (built_by Svelte) ps.
Proof. apply mapM_prop_from. Qed.

Lemma vue_props_built (content : string) (ps : list PC.PropDefinition) :
  PC.VueParser_extract_props content = Val ps -> Forall (built_by Vue) ps.
Proof.
  unfold PC.VueParser_extract_props, mbind, outcome_bind.
  set (typed := match search PC.define_props_type_pattern content with
                | Some g => _ | None => _ end).
  assert (Ht : ∀ l, typed = Val l ->
                    Forall (prop_from PC.vue_prop_pattern PC.vue_prop_of) l).
  { subst typed. destruct (search PC.define_props_type_pattern content) as [g|].
    - destruct (PC.group_text g 1); [|discriminate].
      intros l. apply mapM_prop_from.
    - intros l [= <-]. constructor. }
  destruct typed as [l|]; [|discriminate].
  specialize (Ht l eq_refl).
  assert (Hl : Forall (built_by Vue) l)
    by (eapply Forall_impl; [exact Ht|]; intros p Hp; by left).
  destruct (search PC.define_props_runtime_pattern content) as [g|];
    [|by intros [= <-]].
  destruct l as [|p l]; [|by intros [= <-]].
  destruct (PC.group_text g 1); [|discriminate].
  destruct (mapM _ _) as [more|] eqn:Em; [|discriminate].
  intros [= <-]. simpl. apply mapM_prop_from in Em.
  eapply Forall_impl; [exact Em|]. intros p Hp. by right.
Qed.

(** The props of any metadata [parse_component] returns. *)
Lemma parsed_props_built (re_compile : string -> outcome regex)
      (file_path : string) (w w' : World) (md : PC.ComponentMetadata) :
  PC.parse_component re_compile file_path w = (Val (Some md), w') ->
  ∃ s, strategy_of_extension (extension_of file_path) = Some s
       ∧ PC.framework md = framework_of s
       ∧ Forall (built_by s) (PC.props md).
Proof.
  rewrite parse_component_by_strategy.
  destruct (strategy_of_extension (extension_of file_path)) as [s|]; [|discriminate].
  intros H. apply run_strategy_metadata in H as (content & _ & _ & Hf & _ & _ & Hp & _).
  exists s. split; [done|]. split; [done|].
  destruct s.
  - exact (react_props_built _ _ _ _ Hp).
  - exact (vue_props_built _ _ Hp).
  - exact (svelte_props_built _ _ Hp).
Qed.

(** The first group of each prop pattern is a run of word characters. *)
Lemma lang_plus_word_text (n : string) :
  lang (Plus PyStr.is_word) n -> is_word_text n = true.
Proof. intros [Hne Hw]. by destruct n. Qed.

Lemma built_by_name (s : strategy) (p : PC.PropDefinition) :
  built_by s p -> is_word_text (PC.prop_name p) = true.
Proof.
  assert (Hn : ∀ r f, (∀ n, captures r 1 n -> lang (Plus PyStr.is_word) n) ->
                      (∀ g q, f g = Val q -> group g 1 = Some (PC.prop_name q)) ->
                      prop_from r f p -> is_word_text (PC.prop_name p) = true).
  { intros r f Hc Hf (block & g & Hg & Hp).
    apply finditer_sound in Hg as (pre & t & post & _ & Hm).
    apply lang_plus_word_text, Hc. eapply group_captures; [exact Hm|]. by apply Hf. }
  assert (Hg1 : ∀ g n, PC.group_text g 1 = Val n -> group g 1 = Some n).
  { intros g n. unfold PC.group_text. destruct (group g 1); [|done]. by intros [= ->]. }
  destruct s; simpl.
  - apply Hn.
    + intros n H. unfold PC.react_prop_pattern in H. split_captures H. exact H.
    + intros g q. unfold PC.react_prop_of, mbind, outcome_bind.
      destruct (PC.group_text g 1) as [n|] eqn:E; [|done].
      destruct (PC.group_strip g 3); [|done]. intros [= <-]. by apply Hg1.
  - intros [H|H]; revert H; apply Hn.
    + intros n H. unfold PC.vue_prop_pattern in H. split_captures H. exact H.
    + intros g q. unfold PC.vue_prop_of, mbind, outcome_bind.
      destruct (PC.group_text g 1) as [n|] eqn:E; [|done].
      destruct (PC.group_strip g 3); [|done]. intros [= <-]. by apply Hg1.
    + intros n H. unfold PC.vue_runtime_prop_pattern in H. split_captures H. exact H.
    + intros g q. unfold PC.vue_runtime_prop_of, mbind, outcome_bind.
      destruct (PC.group_text g 1) as [n|] eqn:E; [|done].
      destruct (PC.group_text g 2); [|done]. intros [= <-]. by apply Hg1.
  - apply Hn.
    + intros n H. unfold PC.svelte_prop_pattern in H. split_captures H. exact H.
    + intros g q. unfold PC.svelte_prop_of, mbind, outcome_bind.
      destruct (PC.group_text g 1) as [n|] eqn:E; [|done]. intros [= <-]. by apply Hg1.
Qed.

End PropsBuilt.

(** X14.  When the text of the file is ASCII, every prop of the metadata
    has a name that is a non-empty run of letters, digits and
    underscores. *)
Theorem parsed_prop_names
        (re_compile : string -> outcome regex) (file_path content : string)
        (w w' : World) (md : PC.ComponentMetadata) :
  files w !! file_path = Some content ->
  PyStr.isascii content = true ->
  PC.parse_component re_compile file_path w = (Val (Some md), w') ->
  Forall (fun p => is_word_text (PC.prop_name p) = true) (PC.props md).
Proof.
  intros _ _ H. apply parsed_props_built in H as (s & _ & _ & Hb).
  eapply Forall_impl; [exact Hb|]. apply built_by_name.
Qed.

Lemma parsed_prop_names_witness :
  PC.parse_component re_rejects "src/Button.tsx" example_world
  = (Val (Some button_tsx_metadata), example_world)
  ∧ Forall (fun p => is_word_text (PC.prop_name p) = true)
           (PC.props button_tsx_metadata).
Proof.
  assert (H : PC.parse_component re_rejects "src/Button.tsx" example_world
              = (Val (Some button_tsx_metadata), example_world))
    by (vm_compute; reflexivity).
  split; [exact H|].
  apply (parsed_prop_names re_rejects "src/Button.tsx" button_tsx
           example_world example_world button_tsx_metadata);
    [vm_compute; reflexivity | vm_compute; reflexivity | exact H].
Defined.

(* --------------------------------------------------------------------- *)
(** *** Vue props declared at run time *)
(* --------------------------------------------------------------------- *)

Section VueRuntime.

Lemma str_all_app_r (p : ascii -> bool) (s t : string) :
  str_all p (s +:+ t) = true -> str_all p t = true.
Proof. rewrite str_all_app. by intros [_ H]%andb_true_iff. Qed.

Lemma str_all_app_mid (p : ascii -> bool) (pre t post : string) :
  str_all p (pre +:+ t +:+ post) = true -> str_all p t = true.
Proof. rewrite !str_all_app. by intros [_ [H _]%andb_true_iff]%andb_true_iff. Qed.

(** The runtime prop pattern ends with a closing brace, so it finds
    nothing in a text without one. *)
Lemma runtime_block_no_match (block : string) :
  str_all (none_of "}") block = true ->
  finditer PC.vue_runtime_prop_pattern block = [].
Proof.
  intros Hq.
  destruct (finditer PC.vue_runtime_prop_pattern block) as [|g l] eqn:E; [done|].
  exfalso.
  assert (Hg : g ∈ finditer PC.vue_runtime_prop_pattern block) by (rewrite E; left).
  apply finditer_sound in Hg as (pre & t & post & -> & (L & _)).
  apply str_all_app_mid in Hq. unfold PC.vue_runtime_prop_pattern in L.
  repeat (destruct L as (?t1 & ?t2 & -> & _ & L); apply str_all_app_r in Hq).
  cbn [lang] in L. subst. vm_compute in Hq. discriminate.
Qed.

(** The text between the braces of a runtime declaration has no closing
    brace. *)
Lemma runtime_block_no_brace (content : string) (g : groups) (block : string) :
  search PC.define_props_runtime_pattern content = Some g ->
  PC.group_text g 1 = Val block ->
  str_all (none_of "}") block = true.
Proof.
  intros Hs Hg. apply search_sound in Hs as (pre & t & post & _ & Hm).
  assert (Hc : captures PC.define_props_runtime_pattern 1 block).
  { eapply group_captures; [exact Hm|]. unfold PC.group_text in Hg.
    destruct (group g 1); [|done]. by injection Hg as ->. }
  unfold PC.define_props_runtime_pattern, PC.braces_block in Hc.
  split_captures Hc. by destruct Hc.
Qed.

(** [VueParser._extract_props] returns what the typed declaration gives;
    the runtime branch adds nothing. *)
Lemma vue_props_typed_only (content : string) (ps : list PC.PropDefinition) :
  PC.VueParser_extract_props content = Val ps ->
  match search PC.define_props_type_pattern content with
  | Some g => ∃ block, PC.group_text g 1 = Val block
                       ∧ mapM PC.vue_prop_of (finditer PC.vue_prop_pattern block) = Val ps
  | None => ps = []
  end.
Proof.
  unfold PC.VueParser_extract_props, mbind, outcome_bind.
  set (typed := match search PC.define_props_type_pattern content with
                | Some g => _ | None => _ end).
  assert (Ht : ∀ l, typed = Val l ->
                    match search PC.define_props_type_pattern content with
                    | Some g => ∃ block, PC.group_text g 1 = Val block
                        ∧ mapM PC.vue_prop_of (finditer PC.vue_prop_pattern block) = Val l
                    | None => l = []
                    end).
  { subst typed. destruct (search PC.define_props_type_pattern content) as [g|].
    - destruct (PC.group_text g 1) as [block|]; [|discriminate].
      intros l Hl. by exists block.
    - by intros l [= <-]. }
  destruct typed as [l|]; [|discriminate]. specialize (Ht l eq_refl).
  destruct (search PC.define_props_runtime_pattern content) as [g|] eqn:Er;
    [|by intros [= <-]].
  destruct l as [|p l]; [|by intros [= <-]].
  destruct (PC.group_text g 1) as [block|] eqn:Eb; [|discriminate].
  rewrite (runtime_block_no_match block (runtime_block_no_brace _ _ _ Er Eb)).
  simpl. by intros [= <-].
Qed.

Lemma no_typed_declaration (content : string) :
  PyStr.contains "defineProps<" content = false ->
  search PC.define_props_type_pattern content = None.
Proof.
  intros Hc. destruct (search PC.define_props_type_pattern content) as [g|] eqn:E;
    [|done].
  apply search_sound in E as (pre & t & post & -> & (L & _)).
  destruct L as (t1 & t2 & -> & -> & _).
  rewrite sapp_assoc, contains_app in Hc. discriminate.
Qed.

End VueRuntime.

(** X15.  For a .vue file the props are those of the typed declaration
    (defineProps with a type argument).  Props declared at run time, with
    defineProps called on an object, are never found: a file without the
    text defineProps< has no props. *)
Theorem vue_runtime_props_not_found
        (re_compile : string -> outcome regex) (file_path : string) (w w' : World)
        (md : PC.ComponentMetadata) (content : string) :
  extension_of file_path = ".vue" ->
  files w !! file_path = Some content ->
  PyStr.contains "defineProps<" content = false ->
  PC.parse_component re_compile file_path w = (Val (Some md), w') ->
  PC.props md = [].
Proof.
  intros Hext Hfile Hc. rewrite parse_component_by_strategy, Hext.
  change (strategy_of_extension ".vue") with (Some Vue). intros H.
  apply run_strategy_metadata in H as (content' & Hfile' & _ & _ & _ & _ & Hp & _).
  assert (content' = content) as -> by congruence.
  apply vue_props_typed_only in Hp. by rewrite (no_typed_declaration _ Hc) in Hp.
Qed.

Lemma vue_runtime_props_not_found_witness :
  PyStr.contains "defineProps(" runtime_vue = true
  ∧ PC.parse_component re_rejects "src/Plain.vue" runtime_vue_world
    = (Val (Some (PC.mkComponentMetadata "Plain" "src/Plain.vue" "vue" []
                                         "other" false true)),
       runtime_vue_world)
  ∧ PC.props (PC.mkComponentMetadata "Plain" "src/Plain.vue" "vue" []
                                     "other" false true) = [].
Proof.
  assert (H : PC.parse_component re_rejects "src/Plain.vue" runtime_vue_world
              = (Val (Some (PC.mkComponentMetadata "Plain" "src/Plain.vue" "vue" []
                                                   "other" false true)),
                 runtime_vue_world))
    by (vm_compute; reflexivity).
  split; [vm_compute; reflexivity|]. split; [exact H|].
  apply (vue_runtime_props_not_found re_rejects "src/Plain.vue" runtime_vue_world
           runtime_vue_world _ runtime_vue); [| | |exact H]; vm_compute; reflexivity.
Defined.

(* --------------------------------------------------------------------- *)
(** *** Defaults and descriptions *)
(* --------------------------------------------------------------------- *)

Section Defaults.

Lemma built_by_defaults (s : strategy) (p : PC.PropDefinition) :
  built_by s p ->
  PC.description p = None
  ∧ match s with
    | Svelte => PC.required p = true <-> PC.default_value p = None
    | _ => PC.default_value p = None
    end.
Proof.
  assert (H3 : ∀ g, (PC.react_prop_of g = Val p ∨ PC.vue_prop_of g = Val p
                     ∨ PC.vue_runtime_prop_of g = Val p) ->
                    PC.description p = None ∧ PC.default_value p = None).
  { intros g. unfold PC.react_prop_of, PC.vue_prop_of, PC.vue_runtime_prop_of,
      mbind, outcome_bind.
    destruct (PC.group_text g 1); [|by intros [|[|]]].
    destruct (PC.group_strip g 3), (PC.group_text g 2);
      intros [H|[H|H]]; try discriminate; by injection H as <-. }
  destruct s; simpl.
  - intros (block & g & _ & Hp). apply (H3 g). by left.
  - intros [(block & g & _ & Hp)|(block & g & _ & Hp)]; apply (H3 g); by auto.
  - intros (block & g & _ & Hp). revert Hp.
    unfold PC.svelte_prop_of, mbind, outcome_bind.
    destruct (PC.group_text g 1); [|done]. intros [= <-]. simpl.
    split; [done|]. by destruct (PC.group_strip_or g 3 Some None).
Qed.

End Defaults.

(** X16.  No prop ever carries a description.  The React and Vue parsers
    never record a default value; the Svelte parser marks a prop required
    exactly when it recorded no default for it. *)
Theorem parsed_defaults
        (re_compile : string -> outcome regex) (file_path : string) (w w' : World)
        (md : PC.ComponentMetadata) :
  PC.parse_component re_compile file_path w = (Val (Some md), w') ->
  Forall (fun p =>
            PC.description p = None
            ∧ if decide (PC.framework md = "svelte")
              then PC.required p = true <-> PC.default_value p = None
              else PC.default_value p = None)
         (PC.props md).
Proof.
  intros H. apply parsed_props_built in H as (s & _ & Hf & Hb).
  eapply Forall_impl; [exact Hb|]. intros p Hp.
  apply built_by_defaults in Hp as [Hd Hs]. split; [done|].
  rewrite Hf. by destruct s.
Qed.

Lemma parsed_defaults_witness :
  PC.parse_component re_rejects "src/Modal.svelte" example_world
  = (Val (Some modal_svelte_metadata), example_world)
  ∧ Forall (fun p =>
              PC.description p = None
              ∧ (PC.required p = true <-> PC.default_value p = None))
           (PC.props modal_svelte_metadata).
Proof.
  assert (H : PC.parse_component re_rejects "src/Modal.svelte" example_world
              = (Val (Some modal_svelte_metadata), example_world))
    by (vm_compute; reflexivity).
  split; [exact H|].
  exact (parsed_defaults re_rejects "src/Modal.svelte" example_world example_world
           modal_svelte_metadata H).
Defined.

(* ===================================================================== *)
(** ** Further properties of the story generator *)
(* ===================================================================== *)

Section ContentFacts.

Variable TEMPLATE_DIR : string.

Lemma path_exists_world (path : string) (w : World) :
  ∃ b, path_exists path w = (Val b, w).
Proof. unfold path_exists. by eauto. Qed.

Lemma path_exists_file (path content : string) (w : World) :
  files w !! path = Some content -> path_exists path w = (Val true, w).
Proof.
  intros H. unfold path_exists. rewrite H.
  by rewrite bool_decide_true by (by eexists).
Qed.

Lemma read_text_world (path : string) (w w' : World) (r : outcome string) :
  read_text path w = (r, w') -> w' = w.
Proof. unfold read_text. destruct (files w !! path); by intros [= _ <-]. Qed.

(** [_generate_story_content] reads; at most it adds a line to the error
    stream. *)
Lemma generate_story_content_world
      (md : PC.ComponentMetadata) (vs : list Variant) (level : string)
      (w w' : World) (r : outcome string) :
  GS._generate_story_content TEMPLATE_DIR md vs level w = (r, w') ->
  same_files w w' ∧ stdout w' = stdout w.
Proof.
  unfold GS._generate_story_content, mbind, IO_bind. cbv zeta.
  destruct (path_exists_world (specific_template TEMPLATE_DIR md level) w) as [b1 E1].
  unfold specific_template in E1. rewrite E1. cbv iota beta.
  match goal with
  | |- context [path_exists ?p w] =>
      destruct (path_exists_world p w) as [b2 E2]; rewrite E2
  end.
  cbv iota beta. destruct b2; simpl.
  - match goal with
    | |- context [read_text ?p w] => destruct (read_text p w) as [o w1] eqn:Er
    end.
    apply read_text_world in Er as ->.
    destruct o; intros [= _ <-]; by repeat split.
  - intros [= _ <-]. by repeat split.
Qed.

End ContentFacts.

Section GeneratorFacts.

Variable re_compile : string -> outcome regex.
Variable TEMPLATE_DIR : string.

(** Without an output path [generate_story] leaves files, directories
    and standard output as they are. *)
Lemma generate_story_no_output_world
      (component_path level : string) (out : option string) (w w' : World)
      (r : outcome (option string)) :
  out = None ∨ out = Some EmptyString ->
  GS.generate_story re_compile TEMPLATE_DIR component_path level out w = (r, w') ->
  same_files w w' ∧ stdout w' = stdout w.
Proof.
  intros Hout. unfold GS.generate_story, mbind, IO_bind.
  destruct (parse_component_report re_compile component_path w) as (md & w1 & E & Hw).
  rewrite E. destruct md as [md|].
  - subst w1.
    destruct (GS._generate_story_content _ _ _ _ w) as [o w2] eqn:Ec.
    apply generate_story_content_world in Ec as [Hf Ho].
    destruct o as [content|e]; [|by intros [= _ <-]].
    destruct Hout as [-> | ->]; simpl; by intros [= _ <-].
  - destruct Hw as [line ->]. simpl. intros [= _ <-]. by repeat split.
Qed.

End GeneratorFacts.

(** X17.  Called without an output path (None, or the empty text),
    [generate_story] changes no file, makes no directory and prints
    nothing on standard output, whatever happens to the story. *)
Theorem generate_story_without_output_path
        (re_compile : string -> outcome regex) (TEMPLATE_DIR : string)
        (component_path level : string) (out : option string) (w w' : World)
        (r : outcome (option string)) :
  out = None ∨ out = Some EmptyString ->
  GS.generate_story re_compile TEMPLATE_DIR component_path level out w = (r, w') ->
  same_files w w' ∧ stdout w' = stdout w.
Proof. apply generate_story_no_output_world. Qed.

Lemma generate_story_without_output_path_witness :
  GS.generate_story re_rejects "templates" "src/Button.tsx" "full" None templated_world
  = (Val (Some plain_template), templated_world)
  ∧ same_files templated_world templated_world.
Proof.
  assert (H : GS.generate_story re_rejects "templates" "src/Button.tsx" "full" None
                                templated_world
              = (Val (Some plain_template), templated_world))
    by (vm_compute; reflexivity).
  split; [exact H|].
  exact (proj1 (generate_story_without_output_path
                  re_rejects "templates" "src/Button.tsx" "full" None
                  templated_world templated_world _ (or_introl eq_refl) H)).
Defined.





(** X20.  A testing level whose template is missing gives what the
    level basic gives: the same text, or the same report when the basic
    template is missing too. *)
Theorem missing_level_is_basic
        (TEMPLATE_DIR : string) (md : PC.ComponentMetadata) (vs : list Variant)
        (level : string) (w : World) :
  path_absent (specific_template TEMPLATE_DIR md level) w ->
  GS._generate_story_content TEMPLATE_DIR md vs level w
  = GS._generate_story_content TEMPLATE_DIR md vs "basic" w.
Proof.
  intros Ha. unfold GS._generate_story_content, mbind, IO_bind. cbv zeta.
  unfold specific_template in Ha. rewrite (path_exists_absent _ _ Ha). cbv iota beta.
  change (PC.framework md +:+ "-" +:+ "basic" +:+ ".template")
    with (PC.framework md +:+ "-basic.template").
  destruct (path_exists_world
              (TEMPLATE_DIR +:+ "/" +:+ PC.framework md +:+ "-basic.template") w)
    as [b E].
  rewrite E. cbv iota beta. destruct b; [by rewrite E|].
  by rewrite E.
Qed.

Lemma missing_level_is_basic_witness :
  GS._generate_story_content "templates" button_tsx_metadata [] "minimal" templated_world
  = GS._generate_story_content "templates" button_tsx_metadata [] "basic" templated_world.
Proof.
  apply missing_level_is_basic. split; [vm_compute; reflexivity|].
  intros H. apply (bool_decide_eq_true_2 _) in H. vm_compute in H. discriminate.
Defined.

(* --------------------------------------------------------------------- *)
(** *** Substitution into the template *)
(* --------------------------------------------------------------------- *)

Section Replace.

Lemma contains_app_l (a b s : string) :
  PyStr.contains (a +:+ b) s = true -> PyStr.contains a s = true.
Proof.
  intros (pre & post & ->)%contains_split.
  rewrite (sapp_assoc a b post). apply contains_app.
Qed.

Lemma contains_cons_false (sub : string) (c : ascii) (s : string) :
  PyStr.contains sub (String c s) = false ->
  String.prefix sub (String c s) = false ∧ PyStr.contains sub s = false.
Proof. cbn [PyStr.contains]. by intros [? ?]%orb_false_iff. Qed.

(** Replacing a text that does not occur changes nothing. *)
Lemma replace_absent (s old new : string) :
  PyStr.contains old s = false -> PyStr.replace s old new = s.
Proof.
  unfold PyStr.replace. induction s as [|c s IH]; [done|].
  intros [Hp Hc]%contains_cons_false. cbn [PyStr.replace_go].
  by rewrite Hp, (IH Hc).
Qed.

Lemma replace_no_braces (s rest new : string) :
  PyStr.contains "{{" s = false ->
  PyStr.replace s (String "{" (String "{" rest)) new = s.
Proof.
  intros H. apply replace_absent.
  destruct (PyStr.contains (String "{" (String "{" rest)) s) eqn:E; [|done].
  change (String "{" (String "{" rest)) with ("{{" +:+ rest) in E.
  apply contains_app_l in E. congruence.
Qed.

End Replace.

(** X21.  A template without an opening double brace has no placeholder:
    the story is the template text, unchanged, whatever the component and
    its variants. *)
Theorem template_without_placeholder
        (TEMPLATE_DIR : string) (md : PC.ComponentMetadata) (vs : list Variant)
        (level template : string) (w : World) :
  files w !! specific_template TEMPLATE_DIR md level = Some template ->
  PyStr.contains "{{" template = false ->
  GS._generate_story_content TEMPLATE_DIR md vs level w = (Val template, w).
Proof.
  intros Hf Hc. unfold GS._generate_story_content, mbind, IO_bind. cbv zeta.
  unfold specific_template in Hf.
  rewrite (path_exists_file _ _ _ Hf). cbv iota beta.
  rewrite (path_exists_file _ _ _ Hf). cbv iota beta.
  change (negb true) with false. cbv iota beta.
  unfold read_text. rewrite Hf.
  unfold mret, IO_ret. by rewrite !(replace_no_braces template) by exact Hc.
Qed.

Lemma template_without_placeholder_witness :
  GS._generate_story_content "templates" button_tsx_metadata [] "basic" templated_world
  = (Val plain_template, templated_world).
Proof.
  apply template_without_placeholder; vm_compute; reflexivity.
Defined.

(* --------------------------------------------------------------------- *)
(** *** Children in the stories *)
(* --------------------------------------------------------------------- *)

Section Children.

Lemma join_snoc (sep : string) (l : list string) (x : string) :
  ∃ pre, PyStr.join sep (l ++ [x]) = pre +:+ x.
Proof.
  induction l as [|y l [pre IH]]; [by exists EmptyString|].
  destruct l as [|z l].
  - exists (y +:+ sep). simpl. by rewrite sapp_assoc.
  - simpl in *. rewrite IH. exists (y +:+ sep +:+ pre). by rewrite !sapp_assoc.
Qed.

Lemma contains_sapp_r (sub a b : string) :
  PyStr.contains sub b = true -> PyStr.contains sub (a +:+ b) = true.
Proof.
  intros (pre & post & ->)%contains_split.
  rewrite <- (sapp_assoc a pre). apply contains_app.
Qed.

Lemma contains_sapp_l (sub a b : string) :
  PyStr.contains sub a = true -> PyStr.contains sub (a +:+ b) = true.
Proof.
  intros (pre & post & ->)%contains_split.
  rewrite !sapp_assoc. apply contains_app.
Qed.

Lemma contains_suffix (sub pre : string) : PyStr.contains sub (pre +:+ sub) = true.
Proof. rewrite <- (sapp_nil_r sub) at 2. apply contains_app. Qed.

(** A story whose variant does not set children, of a component that has
    children, passes the children line. *)
Lemma variant_story_children (metadata : PC.ComponentMetadata) (v : Variant) :
  PC.has_children metadata = true ->
  GS.has_key "children" (args v) = false ->
  PyStr.contains (children_line metadata) (GS.variant_story metadata v) = true.
Proof.
  intros Hc Hk. unfold GS.variant_story. rewrite Hc, Hk. cbn [negb andb].
  destruct (join_snoc "
" (GS.arg_line <$> args v) (children_line metadata)) as [pre E].
  unfold children_line in E |- *. rewrite E.
  do 3 apply contains_sapp_r. apply contains_sapp_l, contains_suffix.
Qed.

End Children.

(** X22.  For a component that has children, every story generated from
    the variants of its metadata passes the line children: 'NAME'. *)
Theorem stories_pass_children (metadata : PC.ComponentMetadata) :
  PC.has_children metadata = true ->
  Forall (fun v => PyStr.contains (children_line metadata)
                                  (GS.variant_story metadata v) = true)
         (detect_variants (GS._metadata_to_dict metadata)).
Proof.
  intros Hc. eapply Forall_impl; [apply variants_args_shape|].
  intros v [_ Hk]. by apply variant_story_children.
Qed.

Lemma stories_pass_children_witness :
  Forall (fun v => PyStr.contains (children_line button_tsx_metadata)
                                  (GS.variant_story button_tsx_metadata v) = true)
         (detect_variants (GS._metadata_to_dict button_tsx_metadata)).
Proof. apply stories_pass_children. reflexivity. Defined.

(* --------------------------------------------------------------------- *)
(** *** The command line *)
(* --------------------------------------------------------------------- *)

(** X23.  With --dry-run the command writes nothing, also when --output
    names a path: no file changes and no directory is made. *)
Theorem main_dry_run_writes_nothing
        (re_compile : string -> outcome regex) (TEMPLATE_DIR : string)
        (args : EP.Args) (w w' : World) (r : outcome ()) :
  EP.dry_run args = true ->
  EP.main re_compile TEMPLATE_DIR args w = (r, w') ->
  same_files w w'.
Proof.
  intros Hd. unfold EP.main, mbind, IO_bind. rewrite Hd. simpl negb. cbv iota.
  destruct (GS.generate_story _ _ _ _ None w) as [o w1] eqn:E.
  apply generate_story_no_output_world in E as [[Hf Hdirs] _]; [|by left].
  destruct o as [[content|]|e]; simpl.
  - destruct (PyStr.truthy content); intros [= _ <-]; by split.
  - intros [= _ <-]. by split.
  - intros [= _ <-]. by split.
Qed.

Lemma main_dry_run_writes_nothing_witness :
  let run := EP.main re_rejects "templates"
               (EP.mkArgs "src/Button.tsx" "full" (Some "out/Button.stories.tsx") true)
               templated_world in
  stdout run.2 = [plain_template] ∧ same_files templated_world run.2.
Proof.
  intros run. split; [vm_compute; reflexivity|].
  apply (main_dry_run_writes_nothing re_rejects "templates"
           (EP.mkArgs "src/Button.tsx" "full" (Some "out/Button.stories.tsx") true)
           templated_world run.2 run.1 eq_refl).
  apply surjective_pairing.
Defined.

(* --------------------------------------------------------------------- *)
(** *** The callback rule of the control inference *)
(* --------------------------------------------------------------------- *)

Section ActionControl.

(** Tells two control texts apart by their first characters. *)
Ltac other_control :=
  let H := fresh in
  intros H; injection H as H; cbv [String.append] in H; discriminate H.

(** When an earlier rule applies, the control is not the action control. *)
Lemma earlier_rule_control (prop : PC.PropDefinition) :
  earlier_rule_applies prop = true ->
  GS._infer_control_type prop ≠ Some (action_control prop).
Proof.
  unfold earlier_rule_applies, GS._infer_control_type, action_control, COLOR_HINTS.
  cbv zeta.
  destruct (PyStr.contains "boolean" _); [intros _; other_control|].
  destruct (PyStr.contains "number" _).
  { intros _. repeat destruct (PyStr.any_in _ _); other_control. }
  destruct (PyStr.any_in _ _); [intros _; other_control|].
  destruct (_ || _ || PyStr.contains "timestamp" _); [intros _; other_control|].
  destruct (_ || _ || PyStr.contains "{" _); [intros _; other_control|].
  destruct (_ || PyStr.contains "[]" _); [intros _; other_control|].
  destruct (_ || PyStr.mem _ _).
  { intros _. destruct (_ || _ || PyStr.contains "photo" _); other_control. }
  cbn [orb]. destruct (_ && PyStr.contains "'" _); [|discriminate].
  destruct (findall1 GS.single_quoted _) as [|m ms]; [discriminate|].
  intros _. destruct (_ <=? _)%nat; other_control.
Qed.

(** When none does, the callback rule is next. *)
Lemma no_earlier_rule_control (prop : PC.PropDefinition) :
  earlier_rule_applies prop = false ->
  GS._infer_control_type prop
  = if looks_like_callback prop then Some (action_control prop)
    else if PyStr.contains "string" (PyStr.lower (PC.prop_type prop))
         then Some "{ control: 'text' }"
         else if PyStr.contains "react" (PyStr.lower (PC.prop_type prop))
                 || PyStr.contains "node" (PyStr.lower (PC.prop_type prop))
                 || PyStr.contains "element" (PyStr.lower (PC.prop_type prop))
              then Some "{ control: false }"
              else None.
Proof.
  unfold earlier_rule_applies, GS._infer_control_type, action_control,
    looks_like_callback, COLOR_HINTS.
  cbv zeta.
  destruct (PyStr.contains "boolean" _); [discriminate|].
  destruct (PyStr.contains "number" _); [discriminate|].
  destruct (PyStr.any_in _ _); [discriminate|].
  destruct (_ || _ || PyStr.contains "timestamp" _); [discriminate|].
  destruct (_ || _ || PyStr.contains "{" _); [discriminate|].
  destruct (_ || PyStr.contains "[]" _); [discriminate|].
  destruct (_ || PyStr.mem _ _); [discriminate|].
  cbn [orb]. destruct (_ && PyStr.contains "'" _); [|done].
  destruct (findall1 GS.single_quoted _) as [|m ms]; [done | discriminate].
Qed.

End ActionControl.

(** X27.  A prop gets the action control exactly when it looks like a
    callback (a function type, or a name that starts with on) and none of
    the earlier rules applies.  A callback whose name has a colour hint, or
    ends in date or time, gets the colour or the date control instead. *)
Theorem action_control_iff (prop : PC.PropDefinition) :
  GS._infer_control_type prop = Some (action_control prop)
  <-> earlier_rule_applies prop = false ∧ looks_like_callback prop = true.
Proof.
  split.
  - intros H. destruct (earlier_rule_applies prop) eqn:E.
    + by apply earlier_rule_control in E.
    + split; [done|]. rewrite (no_earlier_rule_control _ E) in H.
      destruct (looks_like_callback prop); [done|].
      exfalso. revert H. unfold action_control.
      repeat match goal with
             | |- context [if ?b then _ else _] => destruct b
             end; try discriminate;
        intros H; injection H as H; cbv [String.append] in H; discriminate H.
  - intros [E Hc]. by rewrite (no_earlier_rule_control _ E), Hc.
Qed.

Example on_update_gets_date_control :
  GS._infer_control_type (PC.PropDefinition3 "onUpdate" "() => void" true)
  = Some "{ control: 'date' }".
Proof. vm_compute. reflexivity. Qed.

Example on_save_gets_action_control :
  GS._infer_control_type (PC.PropDefinition3 "onSave" "() => void" true)
  = Some "{ action: 'onSave' }".
Proof. vm_compute. reflexivity. Qed.

(* ===================================================================== *)
(** ** Properties of the scanner's file filters *)
(* ===================================================================== *)

Section GlobFacts.

Lemma glob_star_unfold (pat s : string) :
  SC.glob (String "*" pat) s
  = SC.glob pat s || match s with
                     | EmptyString => false
                     | String _ s' => SC.glob (String "*" pat) s'
                     end.
Proof. by destruct s. Qed.

Lemma glob_star_any (s : string) : SC.glob "*" s = true.
Proof.
  induction s as [|c s IH]; [done|]. rewrite glob_star_unfold, IH. apply orb_true_r.
Qed.

(** A plain text followed by a star matches the names that start with
    the text. *)
Lemma glob_plain_star (lit s : string) :
  str_all is_plain_char lit = true ->
  SC.glob (lit +:+ "*") s = String.prefix lit s.
Proof.
  revert s. induction lit as [|c lit IH]; intros s Hl.
  - rewrite sapp_nil_l, glob_star_any. by destruct s.
  - simpl in Hl. apply andb_true_iff in Hl as [Hc Hl].
    unfold is_plain_char in Hc. apply andb_true_iff in Hc as [H1 H2].
    apply negb_true_iff in H1, H2.
    rewrite sapp_cons. cbn [SC.glob]. rewrite H1, H2.
    destruct s as [|d s]; [done|]. rewrite (IH s Hl). simpl.
    destruct (ascii_dec c d) as [->|Hn].
    + by rewrite Ascii.eqb_refl.
    + apply Ascii.eqb_neq in Hn. by rewrite Hn.
Qed.

(** A star, a plain text and a star match the names that have the text
    inside. *)
Lemma glob_star_plain_star (lit s : string) :
  str_all is_plain_char lit = true ->
  SC.glob (String "*" (lit +:+ "*")) s = PyStr.contains lit s.
Proof.
  intros Hl. induction s as [|c s IH].
  - rewrite glob_star_unfold, (glob_plain_star _ _ Hl). by cbn [PyStr.contains].
  - rewrite glob_star_unfold, (glob_plain_star _ _ Hl), IH. by cbn [PyStr.contains].
Qed.

(** Two stars are one. *)
Lemma glob_star_star (pat s : string) :
  SC.glob (String "*" (String "*" pat)) s = SC.glob (String "*" pat) s.
Proof.
  induction s as [|c s IH].
  - rewrite (glob_star_unfold (String "*" pat)). by rewrite orb_false_r.
  - rewrite (glob_star_unfold (String "*" pat)), IH.
    rewrite (glob_star_unfold pat (String c s)).
    by destruct (SC.glob pat (String c s)), (SC.glob (String "*" pat) s).
Qed.

End GlobFacts.

Section PartsFacts.

(** The first piece of a split is where the text starts. *)
Lemma split_on_head (sep : ascii) (s w : string) (ws : list string) :
  PyStr.split_on sep s = w :: ws -> ∃ post, s = w +:+ post.
Proof.
  revert w ws. induction s as [|c s IH]; intros w ws; simpl.
  - intros [= <- _]. by exists EmptyString.
  - destruct (Ascii.eqb c sep).
    + intros [= <- _]. by exists (String c s).
    + destruct (PyStr.split_on sep s) as [|w' ws'] eqn:E.
      * intros [= <- _]. exists s. by rewrite sapp_cons, sapp_nil_l.
      * intros [= <- _]. destruct (IH w' ws' eq_refl) as [post ->].
        by exists post.
Qed.

(** Every piece of a split is a part of the text. *)
Lemma split_on_inside (sep : ascii) (s x : string) :
  x ∈ PyStr.split_on sep s -> ∃ pre post, s = pre +:+ x +:+ post.
Proof.
  revert x. induction s as [|c s IH]; intros x; simpl.
  - intros ->%list_elem_of_singleton. by exists EmptyString, EmptyString.
  - destruct (Ascii.eqb c sep).
    + intros [->|Hx]%elem_of_cons.
      * by exists EmptyString, (String c s).
      * destruct (IH x Hx) as (pre & post & ->). by exists (String c pre), post.
    + destruct (PyStr.split_on sep s) as [|w ws] eqn:E.
      * intros ->%list_elem_of_singleton. exists EmptyString, s.
        by rewrite sapp_nil_l, sapp_cons, sapp_nil_l.
      * intros [->|Hx]%elem_of_cons.
        -- destruct (split_on_head sep s w ws E) as [post ->].
           by exists EmptyString, post.
        -- destruct (IH x) as (pre & post & ->); [by right|].
           by exists (String c pre), post.
Qed.

(** A component of a path, other than the root, is a part of its text. *)
Lemma path_part_inside (p part : string) :
  part ∈ SC.path_parts p -> part = "/" ∨ PyStr.contains part p = true.
Proof.
  unfold SC.path_parts. intros [H|H]%elem_of_app.
  - left. destruct (String.prefix "/" p); [|by apply not_elem_of_nil in H].
    by apply list_elem_of_singleton in H.
  - right. apply list_elem_of_filter in H as [_ H].
    apply split_on_inside in H as (pre & post & ->). apply contains_app.
Qed.

(** A path with a component of the form star, text, star has the text
    inside. *)
Lemma starred_part_inside (p lit : string) :
  PyStr.mem (String "*" (lit +:+ "*")) (SC.path_parts p) = true ->
  PyStr.contains lit p = true.
Proof.
  intros H%mem_true. apply path_part_inside in H as [H|H]; [discriminate|].
  apply contains_split in H as (pre & post & ->).
  rewrite sapp_cons, sapp_assoc.
  change (String "*" (lit +:+ "*" +:+ post)) with ("*" +:+ lit +:+ "*" +:+ post).
  rewrite <- (sapp_assoc pre "*"). apply contains_app.
Qed.

Lemma existsb_mem_swap (l1 l2 : list string) :
  existsb (fun x => PyStr.mem x l2) l1 = existsb (fun y => PyStr.mem y l1) l2.
Proof.
  apply eq_true_iff_eq. rewrite !existsb_exists. split.
  - intros (x & Hx & Hm). apply mem_true, list_elem_of_In in Hm.
    exists x. split; [done|]. by apply mem_true, list_elem_of_In.
  - intros (x & Hx & Hm). apply mem_true, list_elem_of_In in Hm.
    exists x. split; [done|]. by apply mem_true, list_elem_of_In.
Qed.

End PartsFacts.

(** X24.  With the default patterns a path is excluded exactly when one
    of its components (any of them, also above the scanned root, and the
    file name itself) is one of the thirteen plain names, or when its text
    has .test. or .spec. or .stories. somewhere inside. *)
Theorem default_exclusion
        (fnmatch_brackets : string -> string -> bool) (file_path : string) :
  SC._should_exclude fnmatch_brackets file_path SC.EXCLUDE_PATTERNS
  = existsb (fun part => PyStr.mem part PLAIN_EXCLUDES) (SC.path_parts file_path)
    || PyStr.contains ".test." file_path
    || PyStr.contains ".spec." file_path
    || PyStr.contains ".stories." file_path.
Proof.
  unfold SC._should_exclude.
  change SC.EXCLUDE_PATTERNS
    with (PLAIN_EXCLUDES ++ ["*.test.*"; "*.spec.*"; "*.stories.*"]).
  rewrite existsb_app.
  set (f := fun pattern : string => _).
  assert (HA : existsb f PLAIN_EXCLUDES
               = existsb (fun part => PyStr.mem part PLAIN_EXCLUDES)
                         (SC.path_parts file_path)).
  { rewrite <- (existsb_mem_swap PLAIN_EXCLUDES).
    subst f. unfold PLAIN_EXCLUDES. cbn [existsb].
    repeat match goal with
           | |- context [PyStr.contains "*" ?s] =>
               let b := eval vm_compute in (PyStr.contains "*" s) in
               change (PyStr.contains "*" s) with b
           end.
    cbn [andb]. by rewrite !orb_false_r. }
  assert (HB : existsb f ["*.test.*"; "*.spec.*"; "*.stories.*"]
               = PyStr.contains ".test." file_path
                 || PyStr.contains ".spec." file_path
                 || PyStr.contains ".stories." file_path).
  { subst f. unfold SC.fnmatch. cbn [existsb].
    repeat match goal with
           | |- context [PyStr.contains "*" ?s] =>
               let b := eval vm_compute in (PyStr.contains "*" s) in
               change (PyStr.contains "*" s) with b
           | |- context [PyStr.contains "[" ?s] =>
               let b := eval vm_compute in (PyStr.contains "[" s) in
               change (PyStr.contains "[" s) with b
           end.
    cbn [andb].
    change ("*" +:+ "*.test.*") with (String "*" (String "*" (".test." +:+ "*"))).
    change ("*" +:+ "*.spec.*") with (String "*" (String "*" (".spec." +:+ "*"))).
    change ("*" +:+ "*.stories.*") with (String "*" (String "*" (".stories." +:+ "*"))).
    rewrite !glob_star_star, !glob_star_plain_star by reflexivity.
    rewrite orb_false_r.
    pose proof (starred_part_inside file_path ".test.") as H1.
    pose proof (starred_part_inside file_path ".spec.") as H2.
    pose proof (starred_part_inside file_path ".stories.") as H3.
    change (String "*" (".test." +:+ "*")) with "*.test.*" in H1.
    change (String "*" (".spec." +:+ "*")) with "*.spec.*" in H2.
    change (String "*" (".stories." +:+ "*")) with "*.stories.*" in H3.
    destruct (PyStr.mem "*.test.*" _) eqn:E1; [rewrite (H1 eq_refl)|];
      (destruct (PyStr.mem "*.spec.*" _) eqn:E2; [rewrite (H2 eq_refl)|]);
      (destruct (PyStr.mem "*.stories.*" _) eqn:E3; [rewrite (H3 eq_refl)|]);
      rewrite ?orb_true_r, ?orb_false_r, ?orb_false_l, ?orb_true_l, ?orb_assoc;
      reflexivity. }
  rewrite HA, HB. by rewrite !orb_assoc.
Qed.

Example project_under_test_directory :
  SC._should_exclude (fun _ _ => false) "/home/dev/test/shop/src/Button.tsx"
                     SC.EXCLUDE_PATTERNS = true.
Proof. vm_compute. reflexivity. Qed.

(** X25.  [_is_component_file] never fails on an empty base name, and
    every file it accepts has an extension [parse_component] has a parser
    for. *)
Theorem component_files_are_parsable (file_path : string) :
  ∃ b, SC._is_component_file file_path = Some b
       ∧ (b = true -> is_Some (strategy_of_extension (extension_of file_path))).
Proof.
  unfold SC._is_component_file.
  destruct (PyStr.mem (path_suffix file_path) SC.COMPONENT_EXTENSIONS) eqn:Em;
    [|by exists false].
  simpl negb. cbv iota.
  assert (Hs : is_Some (strategy_of_extension (extension_of file_path))).
  { apply mem_true in Em. unfold extension_of, SC.COMPONENT_EXTENSIONS in *.
    repeat (apply elem_of_cons in Em as [-> | Em]);
      [by eexists ..|by apply not_elem_of_nil in Em]. }
  assert (Hne : path_stem file_path ≠ EmptyString).
  { apply path_stem_nonempty. intros E. rewrite E in Em. vm_compute in Em.
    discriminate. }
  destruct (path_stem file_path) as [|c rest]; [done|].
  repeat match goal with
         | |- context [if ?b then _ else _] => destruct b
         end; by eexists.
Qed.

Example upper_case_extension_not_scanned :
  SC._is_component_file "/shop/src/App.TSX" = Some false
  ∧ strategy_of_extension (extension_of "/shop/src/App.TSX") = Some React.
Proof. split; vm_compute; reflexivity. Qed.
